(** * EF100 control-plane core: a shallow embedding of [ef100_nic.c]

    The development follows the layout of the driver source:
    - [Tlv]    the design-parameter TLV reader ([ef100_tlv_feed]), the
               parameter interpreter ([ef100_process_design_param]) and the
               register-window scan ([ef100_check_design_params]);
    - [Mcdi]   warm-boot-count reading and reboot detection;
    - [Evq]    the phase-bit event-queue consumer ([ef100_ev_process]);
    - [Caps]   the datapath capability query;
    - [ResetSeq] the reset sequence and the filter-table up/down helpers;
    - [TlvRun] reachable reader states and the accepted prefix of a scan;
    - [EvqScan] [ef100_ev_init] and the scan for a pending MCDI event;
    - [McdiBuf] the MCDI buffer bitmap; [McdiPdu] the request and
               response copies and the doorbell writes;
    - [ResetMap] the mapping of reset reasons and reset flags;
    - [Version] the firmware version comparison;
    - [UdpTunnel] the list of UDP tunnel ports;
    - [Probe]  [ef100_probe_main] and its warm-boot-count loop.

    Machine integers are [Z] with the wrap-around of their C type written
    out; bit fields are taken with [Z.land], [Z.shiftl] and friends. *)

From Stdlib Require Import ZArith List Bool Lia.
Import ListNotations.

Local Open Scope Z_scope.

(** ** Machine integers and errno values *)

Definition u8  (x : Z) : Z := x mod 2 ^ 8.
Definition u16 (x : Z) : Z := x mod 2 ^ 16.
Definition u32 (x : Z) : Z := x mod 2 ^ 32.
Definition u64 (x : Z) : Z := x mod 2 ^ 64.

(** Two's-complement [int]; the kernel is built with wrapping signed
    arithmetic. *)
Definition s32 (x : Z) : Z := (x + 2 ^ 31) mod 2 ^ 32 - 2 ^ 31.

Definition EIO        : Z := 5.
Definition EOPNOTSUPP : Z := 95.
Definition ENETDOWN   : Z := 100.

(** ** The design-parameter TLV reader *)

Module Tlv.

Inductive ef100_tlv_state_machine : Type :=
  | EF100_TLV_TYPE
  | EF100_TLV_TYPE_CONT
  | EF100_TLV_LENGTH
  | EF100_TLV_VALUE.

Definition is_TYPE (s : ef100_tlv_state_machine) : bool :=
  match s with EF100_TLV_TYPE => true | _ => false end.

(** [struct ef100_tlv_state]: [value] is a u64, [value_offset] a u32,
    [type] a u16 and [len] a u8. *)
Record ef100_tlv_state : Type := mk_tlv_state {
  state        : ef100_tlv_state_machine;
  value        : Z;
  value_offset : Z;
  type         : Z;
  len          : Z
}.

(** [struct ef100_tlv_state reader = {};] *)
Definition reader0 : ef100_tlv_state :=
  mk_tlv_state EF100_TLV_TYPE 0 0 0 0.

(** [ef100_tlv_feed]: the result is the return code paired with the
    updated reader.  [byte] is the [u8] argument.  The [default:] arm of
    the C switch is unreachable for a four-valued enumeration and has no
    counterpart here. *)
Definition ef100_tlv_feed (st : ef100_tlv_state) (byte : Z)
  : Z * ef100_tlv_state :=
  match state st with
  | EF100_TLV_TYPE =>
      (0, {| state := if Z.land byte 0x80 =? 0 then EF100_TLV_LENGTH
                      else EF100_TLV_TYPE_CONT;
             value := 0;
             value_offset := 0;
             type := u16 (Z.land byte 0x7f);
             len := len st |})
  | EF100_TLV_TYPE_CONT =>
      (0, {| state := EF100_TLV_LENGTH;
             value := value st;
             value_offset := value_offset st;
             type := u16 (Z.lor (type st) (Z.shiftl byte 7));
             len := len st |})
  | EF100_TLV_LENGTH =>
      let l := u8 byte in
      if 8 <? l then
        (- EOPNOTSUPP,
         {| state := EF100_TLV_LENGTH;
            value := value st;
            value_offset := value_offset st;
            type := type st;
            len := l |})
      else
        (0, {| state := if l =? 0 then EF100_TLV_TYPE else EF100_TLV_VALUE;
               value := value st;
               value_offset := value_offset st;
               type := type st;
               len := l |})
  | EF100_TLV_VALUE =>
      let off := u32 (value_offset st + 1) in
      (0, {| state := if len st <=? off then EF100_TLV_TYPE
                      else EF100_TLV_VALUE;
             value := Z.lor (value st)
                        (u64 (Z.shiftl byte (u32 (value_offset st * 8))));
             value_offset := off;
             type := type st;
             len := len st |})
  end.

(** The per-byte step of the scan in [ef100_check_design_params]: feed the
    byte, and when the feed succeeded and the reader is back in the TYPE
    state hand the completed triple to [process].  [process] is the
    parameter interpreter acting on a state of type [A]. *)
Section Scan.
Context {A : Type}.
Variable process : A -> ef100_tlv_state -> Z * A.

Definition tlv_step (reader : ef100_tlv_state) (s : A) (byte : Z)
  : Z * ef100_tlv_state * A :=
  let (rc, reader') := ef100_tlv_feed reader byte in
  if (rc =? 0) && is_TYPE (state reader')
  then let (rc', s') := process s reader' in (rc', reader', s')
  else (rc, reader', s).

(** Feed a byte sequence one byte at a time, stopping at the first
    non-zero return code. *)
Fixpoint tlv_scan (reader : ef100_tlv_state) (s : A) (bytes : list Z)
  : Z * ef100_tlv_state * A :=
  match bytes with
  | [] => (0, reader, s)
  | b :: rest =>
      match tlv_step reader s b with
      | (rc, reader', s') =>
          if rc =? 0 then tlv_scan reader' s' rest
          else (rc, reader', s')
      end
  end.

(** What the scan does once a triple is complete: the interpreter runs on
    the completed reader and the scan goes on only if it accepts. *)
Definition after_triple (done : ef100_tlv_state) (s : A) (rest : list Z)
  : Z * ef100_tlv_state * A :=
  match process s done with
  | (rc, s') => if rc =? 0 then tlv_scan done s' rest else (rc, done, s')
  end.
End Scan.

(** Observation of the decoder alone: every completed triple is recorded as
    a [(type, value)] pair and never rejected. *)
Definition record_triple (log : list (Z * Z)) (r : ef100_tlv_state)
  : Z * list (Z * Z) :=
  (0, log ++ [(type r, value r)]).

Definition tlv_emitted (reader : ef100_tlv_state) (bytes : list Z)
  : Z * ef100_tlv_state * list (Z * Z) :=
  tlv_scan record_triple reader [] bytes.

(** The state in which each byte of a sequence is consumed. *)
Fixpoint tlv_consumed_in (reader : ef100_tlv_state) (bytes : list Z)
  : list ef100_tlv_state_machine :=
  match bytes with
  | [] => []
  | b :: rest =>
      state reader :: tlv_consumed_in (snd (ef100_tlv_feed reader b)) rest
  end.

(** *** Wire format of a triple, as the specification describes it

    A triple carries a type of up to 15 bits, a declared length and a
    little-endian value of that many bytes.  [tlv_wide] records whether the
    type is sent in two bytes (continuation bit set on the first). *)
Record triple : Type := mk_triple {
  tlv_type  : Z;
  tlv_wide  : bool;
  tlv_len   : Z;
  tlv_value : Z
}.

Definition encode_type (t : Z) (wide : bool) : list Z :=
  if wide then [Z.lor 0x80 (Z.land t 0x7f); Z.shiftr t 7] else [t].

Fixpoint le_bytes (n : nat) (v : Z) : list Z :=
  match n with
  | O => []
  | S k => Z.land v 0xff :: le_bytes k (Z.shiftr v 8)
  end.

Definition encode_triple (x : triple) : list Z :=
  encode_type (tlv_type x) (tlv_wide x)
    ++ tlv_len x :: le_bytes (Z.to_nat (tlv_len x)) (tlv_value x).

Definition encode_triples (xs : list triple) : list Z :=
  flat_map encode_triple xs.

Definition triple_wf (x : triple) : Prop :=
  0 <= tlv_type x < 2 ^ 15 /\
  (tlv_wide x = false -> tlv_type x < 128) /\
  0 <= tlv_len x <= 8 /\
  0 <= tlv_value x < 2 ^ (8 * tlv_len x).

Definition triple_pair (x : triple) : Z * Z := (tlv_type x, tlv_value x).

(** The reader as it stands when the last byte of [x] has been consumed. *)
Definition completed (x : triple) : ef100_tlv_state :=
  mk_tlv_state EF100_TLV_TYPE (tlv_value x) (tlv_len x) (tlv_type x)
    (tlv_len x).

(** *** The parameter interpreter

    The design-parameter identifiers come from [ef100_regs.h], the minimum
    DMA queue size from [net_driver.h] and [GSO_MAX_SIZE] from the kernel;
    none of these headers is part of the verified source, so their values
    are parameters of the model.  [HAVE_GSO_MAX_SEGS] stands for the
    preprocessor condition that guards the [gso_max_segs] assignment. *)
Class ef100_regs : Type := {
  ESE_EF100_DP_GZ_PAD : Z;
  ESE_EF100_DP_GZ_PARTIAL_TSTAMP_SUB_NANO_BITS : Z;
  ESE_EF100_DP_GZ_EVQ_UNSOL_CREDIT_SEQ_BITS : Z;
  ESE_EF100_DP_GZ_NMMU_GROUP_SIZE : Z;
  ESE_EF100_DP_GZ_RX_L4_CSUM_PROTOCOLS : Z;
  ESE_EF100_DP_GZ_TSO_MAX_HDR_LEN : Z;
  ESE_EF100_DP_GZ_TSO_MAX_HDR_NUM_SEGS : Z;
  ESE_EF100_DP_GZ_RXQ_SIZE_GRANULARITY : Z;
  ESE_EF100_DP_GZ_TXQ_SIZE_GRANULARITY : Z;
  ESE_EF100_DP_GZ_TSO_MAX_PAYLOAD_LEN : Z;
  ESE_EF100_DP_GZ_TSO_MAX_PAYLOAD_NUM_SEGS : Z;
  ESE_EF100_DP_GZ_TSO_MAX_NUM_FRAMES : Z;
  ESE_EF100_DP_GZ_COMPAT : Z;
  ESE_EF100_DP_GZ_MEM2MEM_MAX_LEN : Z;
  ESE_EF100_DP_GZ_EVQ_TIMER_TICK_NANOS : Z;
  ESE_EF100_DP_GZ_NMMU_PAGE_SIZES : Z;
  ESE_EF100_DP_GZ_VI_STRIDES : Z;
  ESE_EF100_DP_GZ_RX_MAX_RUNT : Z;
  EFX_MIN_DMAQ_SIZE : Z;
  GSO_MAX_SIZE : Z;
  HAVE_GSO_MAX_SEGS : bool
}.

(** One assignment of the header constants, used for worked examples: the
    identifiers numbered from 0 in the order of the [switch], a minimum
    queue size of 512 and a maximum GSO size of 65536. *)
Definition example_regs : ef100_regs := {|
  ESE_EF100_DP_GZ_PAD := 0;
  ESE_EF100_DP_GZ_PARTIAL_TSTAMP_SUB_NANO_BITS := 1;
  ESE_EF100_DP_GZ_EVQ_UNSOL_CREDIT_SEQ_BITS := 2;
  ESE_EF100_DP_GZ_NMMU_GROUP_SIZE := 3;
  ESE_EF100_DP_GZ_RX_L4_CSUM_PROTOCOLS := 4;
  ESE_EF100_DP_GZ_TSO_MAX_HDR_LEN := 5;
  ESE_EF100_DP_GZ_TSO_MAX_HDR_NUM_SEGS := 6;
  ESE_EF100_DP_GZ_RXQ_SIZE_GRANULARITY := 7;
  ESE_EF100_DP_GZ_TXQ_SIZE_GRANULARITY := 8;
  ESE_EF100_DP_GZ_TSO_MAX_PAYLOAD_LEN := 9;
  ESE_EF100_DP_GZ_TSO_MAX_PAYLOAD_NUM_SEGS := 10;
  ESE_EF100_DP_GZ_TSO_MAX_NUM_FRAMES := 11;
  ESE_EF100_DP_GZ_COMPAT := 12;
  ESE_EF100_DP_GZ_MEM2MEM_MAX_LEN := 13;
  ESE_EF100_DP_GZ_EVQ_TIMER_TICK_NANOS := 14;
  ESE_EF100_DP_GZ_NMMU_PAGE_SIZES := 15;
  ESE_EF100_DP_GZ_VI_STRIDES := 16;
  ESE_EF100_DP_GZ_RX_MAX_RUNT := 17;
  EFX_MIN_DMAQ_SIZE := 512;
  GSO_MAX_SIZE := 65536;
  HAVE_GSO_MAX_SEGS := true
|}.

(** The labels of the [switch] in [ef100_process_design_param], in source
    order. *)
Definition dp_case_labels `{ef100_regs} : list Z :=
  [ ESE_EF100_DP_GZ_PAD;
    ESE_EF100_DP_GZ_PARTIAL_TSTAMP_SUB_NANO_BITS;
    ESE_EF100_DP_GZ_EVQ_UNSOL_CREDIT_SEQ_BITS;
    ESE_EF100_DP_GZ_NMMU_GROUP_SIZE;
    ESE_EF100_DP_GZ_RX_L4_CSUM_PROTOCOLS;
    ESE_EF100_DP_GZ_TSO_MAX_HDR_LEN;
    ESE_EF100_DP_GZ_TSO_MAX_HDR_NUM_SEGS;
    ESE_EF100_DP_GZ_RXQ_SIZE_GRANULARITY;
    ESE_EF100_DP_GZ_TXQ_SIZE_GRANULARITY;
    ESE_EF100_DP_GZ_TSO_MAX_PAYLOAD_LEN;
    ESE_EF100_DP_GZ_TSO_MAX_PAYLOAD_NUM_SEGS;
    ESE_EF100_DP_GZ_TSO_MAX_NUM_FRAMES;
    ESE_EF100_DP_GZ_COMPAT;
    ESE_EF100_DP_GZ_MEM2MEM_MAX_LEN;
    ESE_EF100_DP_GZ_EVQ_TIMER_TICK_NANOS;
    ESE_EF100_DP_GZ_NMMU_PAGE_SIZES;
    ESE_EF100_DP_GZ_VI_STRIDES;
    ESE_EF100_DP_GZ_RX_MAX_RUNT ].

(** What C itself demands of the headers: case labels are pairwise
    distinct, and the queue-size constant is a positive value of an
    unsigned 32-bit range, so that in the granularity test the [(u32)] cast
    is applied to a value it does not change. *)
Definition regs_ok `{ef100_regs} : Prop :=
  NoDup dp_case_labels /\ 0 < EFX_MIN_DMAQ_SIZE < 2 ^ 32.

(** The fields of [struct ef100_nic_data] and of the net device that the
    interpreter writes. *)
Record design_params : Type := mk_design_params {
  tso_max_hdr_len          : Z;
  tso_max_payload_len      : Z;
  tso_max_payload_num_segs : Z;
  tso_max_frames           : Z;
  gso_max_size             : Z;
  gso_max_segs             : Z
}.

(** [min_t(u64, a, b)] *)
Definition min_u64 (a b : Z) : Z := Z.min (u64 a) (u64 b).

(** [ef100_process_design_param]: the [switch] on [reader->type], written
    as the chain of comparisons in source order.  Logging calls are left
    out. *)
Definition ef100_process_design_param `{ef100_regs}
    (nic : design_params) (reader : ef100_tlv_state) : Z * design_params :=
  let t := type reader in
  let v := value reader in
  if t =? ESE_EF100_DP_GZ_PAD then (0, nic)
  else if t =? ESE_EF100_DP_GZ_PARTIAL_TSTAMP_SUB_NANO_BITS then (0, nic)
  else if t =? ESE_EF100_DP_GZ_EVQ_UNSOL_CREDIT_SEQ_BITS then (0, nic)
  else if t =? ESE_EF100_DP_GZ_NMMU_GROUP_SIZE then (0, nic)
  else if t =? ESE_EF100_DP_GZ_RX_L4_CSUM_PROTOCOLS then (0, nic)
  else if t =? ESE_EF100_DP_GZ_TSO_MAX_HDR_LEN then
    (0, {| tso_max_hdr_len := min_u64 v 0xffff;
           tso_max_payload_len := tso_max_payload_len nic;
           tso_max_payload_num_segs := tso_max_payload_num_segs nic;
           tso_max_frames := tso_max_frames nic;
           gso_max_size := gso_max_size nic;
           gso_max_segs := gso_max_segs nic |})
  else if t =? ESE_EF100_DP_GZ_TSO_MAX_HDR_NUM_SEGS then
    if v =? 0 then (- EOPNOTSUPP, nic) else (0, nic)
  else if (t =? ESE_EF100_DP_GZ_RXQ_SIZE_GRANULARITY)
          || (t =? ESE_EF100_DP_GZ_TXQ_SIZE_GRANULARITY) then
    if (v =? 0) || (EFX_MIN_DMAQ_SIZE <? v)
       || negb (EFX_MIN_DMAQ_SIZE mod (u32 v) =? 0)
    then (- EOPNOTSUPP, nic) else (0, nic)
  else if t =? ESE_EF100_DP_GZ_TSO_MAX_PAYLOAD_LEN then
    let l := min_u64 v GSO_MAX_SIZE in
    (0, {| tso_max_hdr_len := tso_max_hdr_len nic;
           tso_max_payload_len := l;
           tso_max_payload_num_segs := tso_max_payload_num_segs nic;
           tso_max_frames := tso_max_frames nic;
           gso_max_size := l;
           gso_max_segs := gso_max_segs nic |})
  else if t =? ESE_EF100_DP_GZ_TSO_MAX_PAYLOAD_NUM_SEGS then
    let n := min_u64 v 0xffff in
    (0, {| tso_max_hdr_len := tso_max_hdr_len nic;
           tso_max_payload_len := tso_max_payload_len nic;
           tso_max_payload_num_segs := n;
           tso_max_frames := tso_max_frames nic;
           gso_max_size := gso_max_size nic;
           gso_max_segs := if HAVE_GSO_MAX_SEGS then n
                           else gso_max_segs nic |})
  else if t =? ESE_EF100_DP_GZ_TSO_MAX_NUM_FRAMES then
    (0, {| tso_max_hdr_len := tso_max_hdr_len nic;
           tso_max_payload_len := tso_max_payload_len nic;
           tso_max_payload_num_segs := tso_max_payload_num_segs nic;
           tso_max_frames := min_u64 v 0xffff;
           gso_max_size := gso_max_size nic;
           gso_max_segs := gso_max_segs nic |})
  else if t =? ESE_EF100_DP_GZ_COMPAT then
    if v =? 0 then (0, nic) else (- EOPNOTSUPP, nic)
  else if t =? ESE_EF100_DP_GZ_MEM2MEM_MAX_LEN then (0, nic)
  else if t =? ESE_EF100_DP_GZ_EVQ_TIMER_TICK_NANOS then (0, nic)
  else if t =? ESE_EF100_DP_GZ_NMMU_PAGE_SIZES then (0, nic)
  else if t =? ESE_EF100_DP_GZ_VI_STRIDES then (0, nic)
  else if t =? ESE_EF100_DP_GZ_RX_MAX_RUNT then (0, nic)
  else (0, nic).

(** A size granularity the driver cannot work with: zero, larger than the
    minimum queue size, or not a divisor of it. *)
Definition granularity_unsafe `{ef100_regs} (v : Z) : Prop :=
  v = 0 \/ EFX_MIN_DMAQ_SIZE < v \/ ~ (v | EFX_MIN_DMAQ_SIZE).

(** The conditions under which a completed triple is a hard
    incompatibility. *)
Definition hard_incompatibility `{ef100_regs} (t v : Z) : Prop :=
  (t = ESE_EF100_DP_GZ_COMPAT /\ v <> 0)
  \/ (t = ESE_EF100_DP_GZ_TSO_MAX_HDR_NUM_SEGS /\ v = 0)
  \/ ((t = ESE_EF100_DP_GZ_RXQ_SIZE_GRANULARITY
       \/ t = ESE_EF100_DP_GZ_TXQ_SIZE_GRANULARITY)
      /\ granularity_unsafe v).

(** *** The register-window scan

    [params_tlv off] is the dword read from [ER_GZ_PARAMS_TLV + off];
    [total_len] is the dword read from [ER_GZ_PARAMS_TLV_LEN]. *)
Record scan_result : Type := mk_scan_result {
  scan_rc     : Z;
  scan_offset : Z;
  scan_reader : ef100_tlv_state;
  scan_nic    : design_params
}.

(** The inner [for (i = 0; i < sizeof(data); i++)] loop, [n] iterations
    remaining.  The call [ef100_tlv_feed(&reader, data)] converts [data] to
    [u8]. *)
Fixpoint dword_loop `{ef100_regs} (n : nat) (data offset : Z)
    (reader : ef100_tlv_state) (nic : design_params) : scan_result :=
  match n with
  | O => mk_scan_result 0 offset reader nic
  | S k =>
      match tlv_step ef100_process_design_param reader nic (u8 data) with
      | (rc, reader', nic') =>
          if rc =? 0
          then dword_loop k (Z.shiftr data 8) (u32 (offset + 1)) reader' nic'
          else mk_scan_result rc offset reader' nic'
      end
  end.

(** The outer [while (offset < total_len)] loop.  [rc] is the value the
    variable holds on entry; [None] means the fuel ran out. *)
Fixpoint params_loop `{ef100_regs} (fuel : nat) (params_tlv : Z -> Z)
    (total_len : Z) (rc offset : Z) (reader : ef100_tlv_state)
    (nic : design_params) : option scan_result :=
  match fuel with
  | O => None
  | S fuel' =>
      if offset <? total_len then
        let r := dword_loop 4 (u32 (params_tlv offset)) offset reader nic in
        if scan_rc r =? 0
        then params_loop fuel' params_tlv total_len (scan_rc r)
               (scan_offset r) (scan_reader r) (scan_nic r)
        else Some r
      else Some (mk_scan_result rc offset reader nic)
  end.

(** [ef100_check_design_params] *)
Definition ef100_check_design_params `{ef100_regs} (fuel : nat)
    (params_tlv : Z -> Z) (total_len : Z) (nic : design_params)
  : option scan_result :=
  params_loop fuel params_tlv (u32 total_len) 0 0 reader0 nic.

(** The byte stream that [n] consecutive dwords of the window present,
    starting at byte offset [off]: each dword least significant byte
    first. *)
Fixpoint window_bytes (params_tlv : Z -> Z) (off : Z) (n : nat) : list Z :=
  match n with
  | O => []
  | S k => le_bytes 4 (u32 (params_tlv off))
             ++ window_bytes params_tlv (off + 4) k
  end.

(** A completed (type, value) pair as the interpreter sees it, the
    interpreter's verdict on it and its effect on the parameters. *)
Definition reader_of_pair (p : Z * Z) : ef100_tlv_state :=
  mk_tlv_state EF100_TLV_TYPE (snd p) 0 (fst p) 0.

Definition design_params0 : design_params := mk_design_params 0 0 0 0 0 0.

Definition accepted `{ef100_regs} (p : Z * Z) : Prop :=
  fst (ef100_process_design_param design_params0 (reader_of_pair p)) = 0.

Definition apply_param `{ef100_regs} (nic : design_params) (p : Z * Z)
  : design_params :=
  snd (ef100_process_design_param nic (reader_of_pair p)).

(** The register window that presents a byte sequence, four bytes to a
    dword, least significant byte first; bytes past the end read as 0. *)
Definition window_of_bytes (bytes : list Z) (off : Z) : Z :=
  let b i := nth (Z.to_nat (off + i)) bytes 0 in
  b 0 + 256 * b 1 + 65536 * b 2 + 16777216 * b 3.

(** The reading of the scan on which a stream that ends inside a triple is
    accepted whatever it holds: whenever the declared length is a multiple
    of 4 and the decoder alone gets through the declared bytes and is left
    in the middle of a triple, [ef100_check_design_params] returns 0. *)
Definition truncation_always_accepted `{ef100_regs} (params_tlv : Z -> Z)
    (total_len : Z) (nic : design_params) : Prop :=
  total_len mod 4 = 0 ->
  (exists rd pairs,
     tlv_emitted reader0
       (window_bytes params_tlv 0 (Z.to_nat (total_len / 4)))
     = (0, rd, pairs)
     /\ state rd <> EF100_TLV_TYPE) ->
  exists fuel r,
    ef100_check_design_params fuel params_tlv total_len nic = Some r
    /\ scan_rc r = 0.

End Tlv.

(** ** MCDI reboot detection *)

Module Mcdi.

(** [enum nic_state], the values the driver core moves between. *)
Inductive nic_state : Type :=
  | STATE_PROBED
  | STATE_NET_DOWN
  | STATE_NET_UP
  | STATE_DISABLED.

(** The fields of [struct efx_nic] and [struct ef100_nic_data] that reboot
    detection reads and writes. *)
Record efx_nic : Type := mk_efx_nic {
  state           : nic_state;
  warm_boot_count : Z
}.

(** Modelled from the spec: the bit-field accessors of [bitfield.h], which
    is not part of the verified source.  [EFX_WORD_1] is the upper half of
    the status dword, where the magic pattern sits; [EFX_WORD_0] is the
    lower half, where the boot counter sits. *)
Definition EFX_WORD_0 (reg : Z) : Z := Z.land reg 0xffff.
Definition EFX_WORD_1 (reg : Z) : Z := Z.land (Z.shiftr reg 16) 0xffff.

(** [ef100_get_warm_boot_count]; [reg] is the dword read from
    [ER_GZ_MC_SFT_STATUS]. *)
Definition ef100_get_warm_boot_count (efx : efx_nic) (reg : Z)
  : Z * efx_nic :=
  if u32 reg =? 0xffffffff then
    (- ENETDOWN,
     {| state := STATE_DISABLED; warm_boot_count := warm_boot_count efx |})
  else
    (if EFX_WORD_1 reg =? 0xb007 then EFX_WORD_0 reg else - EIO, efx).

(** [ef100_mcdi_poll_reboot] *)
Definition ef100_mcdi_poll_reboot (efx : efx_nic) (reg : Z) : Z * efx_nic :=
  let (rc, efx1) := ef100_get_warm_boot_count efx reg in
  if rc <? 0 then (0, efx1)
  else if rc =? warm_boot_count efx1 then (0, efx1)
  else (- EIO, {| state := state efx1; warm_boot_count := rc |}).

(** The two results the reboot detector is specified to have. *)
Definition NoChange : Z := 0.
Definition Rebooted : Z := - EIO.

(** The claim that a bad magic pattern surfaces from the reboot detector
    as a result distinct from both of these. *)
Definition bad_magic_is_reported (efx : efx_nic) (reg : Z) : Prop :=
  u32 reg <> 0xffffffff -> EFX_WORD_1 reg <> 0xb007 ->
  fst (ef100_mcdi_poll_reboot efx reg) <> NoChange
  /\ fst (ef100_mcdi_poll_reboot efx reg) <> Rebooted.

End Mcdi.

(** ** The event queue *)

Module Evq.

(** The value of the [ESF_GZ_E_TYPE] field of an event, as far as
    [ef100_ev_process] tells the values apart. *)
Inductive ev_type_t : Type :=
  | ESE_GZ_EF100_EV_RX_PKTS
  | ESE_GZ_EF100_EV_MCDI
  | ESE_GZ_EF100_EV_TX_COMPLETION
  | ESE_GZ_EF100_EV_DRIVER
  | EV_OTHER (code : Z).

(** An event-ring entry ([efx_qword_t]) seen through the two fields the
    dispatcher extracts; the positions of the fields are fixed by
    [ef100_regs.h], which is not part of the verified source. *)
Record efx_qword_t : Type := mk_event {
  ev_phase   : bool;       (* !!EFX_QWORD_FIELD(ev, ESF_GZ_EV_RXPKTS_PHASE) *)
  ev_type    : ev_type_t;  (* EFX_QWORD_FIELD(ev, ESF_GZ_E_TYPE) *)
  ev_payload : Z
}.

(** [struct efx_channel]; [eventq i] is entry [i] of the ring buffer, as
    one invocation of the dispatcher finds it (the device writes the ring
    between invocations, see [ev_process_run]). *)
Record efx_channel : Type := mk_channel {
  channel         : Z;
  enabled         : bool;
  eventq_mask     : Z;
  eventq_read_ptr : Z;
  eventq          : Z -> efx_qword_t
}.

(** [evq_phases] is the bitmap of per-channel phase bits in
    [struct ef100_nic_data]; [busy_poll] holds when the busy-poll code is
    compiled in and [efx->interrupt_mode == EFX_INT_MODE_POLLED]. *)
Record efx_nic : Type := mk_efx_nic {
  evq_phases : Z;
  busy_poll  : bool
}.

Definition test_bit (nr bitmap : Z) : bool := Z.testbit bitmap nr.
Definition change_bit (nr bitmap : Z) : Z := Z.lxor bitmap (Z.shiftl 1 nr).

(** [efx_event] *)
Definition efx_event (c : efx_channel) (index : Z) : efx_qword_t :=
  eventq c (Z.land index (eventq_mask c)).

(** The handlers outside [ef100_nic.c] that the dispatcher calls.  Each
    acts on a state [World] of its own and is handed the channel number
    and the event; the MCDI handlers also return whether they claimed the
    event, and the port handler the value it leaves in [*rc] (which is 0
    on entry) given the budget it was passed.  [efx_writed_evq_prime] is
    the register write of [ef100_ev_read_ack]. *)
Class evq_externals (World : Type) : Type := {
  efx_ef100_ev_rx : World -> Z -> efx_qword_t -> World;
  ef100_ev_tx : World -> Z -> efx_qword_t -> World;
  efx_mcdi_process_event : World -> Z -> efx_qword_t -> bool * World;
  efx_mcdi_port_process_event_common :
    World -> Z -> efx_qword_t -> Z -> bool * Z * World;
  efx_writed_evq_prime : World -> Z -> Z -> World
}.

(** Modelled from the spec: the port handler is not part of the verified
    source; the specification calls the work it reports "bounded", that is
    at most the budget it was given. *)
Definition port_within_budget {World} `{evq_externals World} : Prop :=
  forall w ch ev budget,
    0 < budget ->
    snd (fst (efx_mcdi_port_process_event_common w ch ev budget)) <= budget.

(** One handled ring entry: the read pointer it was read at, the phase the
    dispatcher expected there, the entry, and the work it was counted as. *)
Record dispatched : Type := mk_dispatched {
  at_ptr   : Z;
  expected : bool;
  entry    : efx_qword_t;
  units    : Z
}.

Definition sum_units (t : list dispatched) : Z :=
  fold_right (fun d acc => units d + acc) 0 t.

(** The number of handled entries after which the masked read pointer
    came back to zero. *)
Definition wraps (mask : Z) (t : list dispatched) : nat :=
  length (filter (fun d => Z.land (u32 (at_ptr d + 1)) mask =? 0) t).

Section Dispatch.
Context {World : Type} `{evq_externals World}.

(** [ef100_ev_read_ack] *)
Definition ef100_ev_read_ack (w : World) (c : efx_channel) : World :=
  efx_writed_evq_prime w (channel c)
    (Z.land (eventq_read_ptr c) (eventq_mask c)).

(** [ef100_ev_mcdi] *)
Definition ef100_ev_mcdi (w : World) (c : efx_channel) (ev : efx_qword_t)
    (quota : Z) : Z * World :=
  let (claimed, w1) := efx_mcdi_process_event w (channel c) ev in
  let (rc, w2) :=
    if claimed then (0, w1)
    else
      match efx_mcdi_port_process_event_common w1 (channel c) ev quota with
      | (_, rc, w2) => (rc, w2)
      end in
  let spent := 0 in
  (if 0 <? rc then s32 (spent + rc)
   else if rc <? 0 then s32 (spent + 1)
   else spent,
   w2).

(** The local variables of [ef100_ev_process] inside its loop, with the
    record of the entries handled so far. *)
Record loop_state : Type := mk_loop_state {
  spent     : Z;
  read_ptr  : Z;
  evq_phase : bool;
  world     : World;
  trace     : list dispatched
}.

(** The [switch (ev_type)] of the loop body: the work counted for the
    entry and the effect of the handler. *)
Definition dispatch (c : efx_channel) (quota : Z) (st : loop_state)
    (ev : efx_qword_t) : Z * World :=
  match ev_type ev with
  | ESE_GZ_EF100_EV_RX_PKTS =>
      (1, efx_ef100_ev_rx (world st) (channel c) ev)
  | ESE_GZ_EF100_EV_MCDI =>
      ef100_ev_mcdi (world st) c ev (s32 (quota - spent st))
  | ESE_GZ_EF100_EV_TX_COMPLETION =>
      (0, ef100_ev_tx (world st) (channel c) ev)
  | ESE_GZ_EF100_EV_DRIVER => (0, world st)
  | EV_OTHER _ => (0, world st)
  end.

(** The body of the loop once the entry at [read_ptr] has the expected
    phase: dispatch on the event type, account the work, advance the read
    pointer, flip the local phase when the masked pointer comes back to
    zero and, in busy-poll mode, re-prime the queue every 512 entries (the
    store to [channel->eventq_read_ptr] made there is repeated after the
    loop). *)
Definition ev_body (polled : bool) (c : efx_channel) (quota : Z)
    (st : loop_state) : loop_state :=
  let ev := efx_event c (read_ptr st) in
  let (n, w1) := dispatch c quota st ev in
  let rp := u32 (read_ptr st + 1) in
  let ph := if Z.land rp (eventq_mask c) =? 0
            then negb (evq_phase st) else evq_phase st in
  let w2 :=
    if polled && (rp mod 512 =? 0)
    then ef100_ev_read_ack w1
           (mk_channel (channel c) (enabled c) (eventq_mask c) rp (eventq c))
    else w1 in
  {| spent := s32 (spent st + n);
     read_ptr := rp;
     evq_phase := ph;
     world := w2;
     trace := trace st ++ [mk_dispatched (read_ptr st) (evq_phase st) ev n] |}.

(** The [while (spent < quota)] loop with its [break] on a phase mismatch;
    [None] means the fuel ran out. *)
Fixpoint ev_loop (fuel : nat) (polled : bool) (c : efx_channel) (quota : Z)
    (st : loop_state) : option loop_state :=
  match fuel with
  | O => None
  | S fuel' =>
      if spent st <? quota then
        if negb (Bool.eqb (ev_phase (efx_event c (read_ptr st)))
                   (evq_phase st))
        then Some st
        else ev_loop fuel' polled c quota (ev_body polled c quota st)
      else Some st
  end.

(** The loop has stopped in [st]: the quota is used up or the entry at the
    read pointer does not have the expected phase. *)
Definition stopped (c : efx_channel) (quota : Z) (st : loop_state) : Prop :=
  quota <= spent st
  \/ ev_phase (efx_event c (read_ptr st)) <> evq_phase st.

(** What a handled entry satisfies: it is the ring entry at the pointer it
    was read at, and it had the phase expected there. *)
Definition handled_ok (c : efx_channel) (d : dispatched) : Prop :=
  entry d = efx_event c (at_ptr d)
  /\ ev_phase (entry d) = expected d.

(** How the work of a handled entry is counted: 1 for an RX event, the
    report of [ef100_ev_mcdi] for an MCDI event, 0 for the others. *)
Definition units_ok (d : dispatched) : Prop :=
  match ev_type (entry d) with
  | ESE_GZ_EF100_EV_RX_PKTS => units d = 1
  | ESE_GZ_EF100_EV_MCDI => 0 <= units d
  | ESE_GZ_EF100_EV_TX_COMPLETION => units d = 0
  | ESE_GZ_EF100_EV_DRIVER => units d = 0
  | EV_OTHER _ => units d = 0
  end.

(** The invariant of the loop on the read pointer and the phase, for a
    loop started with read pointer [rp0] and phase [ph0] on a ring of
    [mask + 1] entries. *)
Definition loop_inv (c : efx_channel) (ph0 : bool) (rp0 : Z)
    (st : loop_state) : Prop :=
  let t := trace st in
  let mask := eventq_mask c in
  Forall (handled_ok c) t
  /\ map at_ptr t = map (fun i => u32 (rp0 + Z.of_nat i)) (seq 0 (length t))
  /\ read_ptr st = u32 (rp0 + Z.of_nat (length t))
  /\ evq_phase st = xorb ph0 (Nat.odd (wraps mask t))
  /\ Z.of_nat (length t) <= mask + 1
  /\ Z.of_nat (wraps mask t)
     = (Z.land rp0 mask + Z.of_nat (length t)) / (mask + 1)
  /\ ((0 < length t)%nat ->
      ev_phase (eventq c (Z.land rp0 mask)) = ph0).

(** The invariant of the loop on the work accounted. *)
Definition quota_inv (quota : Z) (st : loop_state) : Prop :=
  spent st = sum_units (trace st)
  /\ 0 <= spent st <= Z.max 0 quota
  /\ Forall units_ok (trace st).

Record ev_result : Type := mk_ev_result {
  ev_ret     : Z;
  ev_nic     : efx_nic;
  ev_channel : efx_channel;
  ev_world   : World;
  ev_trace   : list dispatched
}.

(** The code after the loop: store the read pointer, toggle the stored
    phase bit if the local phase differs from the one read on entry, and
    report the full quota in busy-poll mode. *)
Definition ev_finish (efx : efx_nic) (c : efx_channel) (quota : Z)
    (st : loop_state) : ev_result :=
  let old_evq_phase := test_bit (channel c) (evq_phases efx) in
  {| ev_ret := if busy_poll efx then quota else spent st;
     ev_nic :=
       if Bool.eqb (evq_phase st) old_evq_phase then efx
       else mk_efx_nic (change_bit (channel c) (evq_phases efx))
              (busy_poll efx);
     ev_channel :=
       mk_channel (channel c) (enabled c) (eventq_mask c) (read_ptr st)
         (eventq c);
     ev_world := world st;
     ev_trace := trace st |}.

(** [ef100_ev_process] *)
Definition ef100_ev_process (fuel : nat) (efx : efx_nic) (w : World)
    (c : efx_channel) (quota : Z) : option ev_result :=
  if negb (enabled c) then Some (mk_ev_result 0 efx c w [])
  else
    let old_evq_phase := test_bit (channel c) (evq_phases efx) in
    match ev_loop fuel (busy_poll efx) c quota
            (mk_loop_state 0 (eventq_read_ptr c) old_evq_phase w []) with
    | None => None
    | Some st => Some (ev_finish efx c quota st)
    end.

(** What an invocation, or a run of invocations, does to the read pointer
    and to the stored phase bit of the channel, in terms of the entries it
    handled. *)
Definition phase_post (efx : efx_nic) (c : efx_channel) (r : ev_result)
  : Prop :=
  let t := ev_trace r in
  let mask := eventq_mask c in
  channel (ev_channel r) = channel c
  /\ enabled (ev_channel r) = enabled c
  /\ eventq_mask (ev_channel r) = mask
  /\ busy_poll (ev_nic r) = busy_poll efx
  /\ eventq_read_ptr (ev_channel r)
     = u32 (eventq_read_ptr c + Z.of_nat (length t))
  /\ test_bit (channel c) (evq_phases (ev_nic r))
     = xorb (test_bit (channel c) (evq_phases efx)) (Nat.odd (wraps mask t))
  /\ Z.of_nat (wraps mask t)
     = (Z.land (eventq_read_ptr c) mask + Z.of_nat (length t)) / (mask + 1).

(** Successive invocations on one channel.  Between two invocations the
    hardware may have rewritten the ring, so each invocation comes with
    the ring contents it finds and its quota; the handled entries of all
    invocations are collected in order. *)
Fixpoint ev_process_run (fuel : nat) (efx : efx_nic) (w : World)
    (c : efx_channel) (invocations : list ((Z -> efx_qword_t) * Z))
  : option ev_result :=
  match invocations with
  | [] => Some (mk_ev_result 0 efx c w [])
  | (ring, quota) :: rest =>
      match ef100_ev_process fuel efx w
              (mk_channel (channel c) (enabled c) (eventq_mask c)
                 (eventq_read_ptr c) ring) quota with
      | None => None
      | Some r =>
          match ev_process_run fuel (ev_nic r) (ev_world r) (ev_channel r)
                  rest with
          | None => None
          | Some r' =>
              Some (mk_ev_result (ev_ret r') (ev_nic r') (ev_channel r')
                      (ev_world r') (ev_trace r ++ ev_trace r'))
          end
      end
  end.

(** The state of the loop of [ef100_ev_process] after [i] turns. *)
Definition ev_state_after (efx : efx_nic) (w : World) (c : efx_channel)
    (quota : Z) (i : nat) : loop_state :=
  Nat.iter i (ev_body (busy_poll efx) c quota)
    (mk_loop_state 0 (eventq_read_ptr c)
       (test_bit (channel c) (evq_phases efx)) w []).

(** The phase the channel expects of the entry [i] places after the read
    pointer it started from: the phase bit stored for the channel, flipped
    once for each time the masked pointer has come back to zero on the
    way. *)
Definition expected_phase (efx : efx_nic) (c : efx_channel) (i : nat)
  : bool :=
  xorb (test_bit (channel c) (evq_phases efx))
    (Z.odd ((Z.land (eventq_read_ptr c) (eventq_mask c) + Z.of_nat i)
            / (eventq_mask c + 1))).

(** The work counted for an event handled in world [w] with [budget] left
    of the quota: 1 for an RX event, what [ef100_ev_mcdi] reports for an
    MCDI event, 0 for TX-completion, driver and unknown events. *)
Definition counted_work (w : World) (c : efx_channel) (ev : efx_qword_t)
    (budget : Z) : Z :=
  match ev_type ev with
  | ESE_GZ_EF100_EV_RX_PKTS => 1
  | ESE_GZ_EF100_EV_MCDI => fst (ef100_ev_mcdi w c ev budget)
  | ESE_GZ_EF100_EV_TX_COMPLETION => 0
  | ESE_GZ_EF100_EV_DRIVER => 0
  | EV_OTHER _ => 0
  end.

(** The record of the [i]-th handled entry of an invocation whose handled
    entries are [t]: it was read [i] places after the starting read
    pointer, with the phase expected there, and counted with the work of
    [counted_work] in the world the [i] turns before it left, with the
    budget the entries before it left of the quota. *)
Definition handled_record (efx : efx_nic) (w : World) (c : efx_channel)
    (quota : Z) (t : list dispatched) (i : nat) : dispatched :=
  let ev := efx_event c (u32 (eventq_read_ptr c + Z.of_nat i)) in
  mk_dispatched (u32 (eventq_read_ptr c + Z.of_nat i))
    (expected_phase efx c i) ev
    (counted_work (world (ev_state_after efx w c quota i)) c ev
       (quota - sum_units (firstn i t))).

(** What the loop has done when it has handled the entries of
    [trace st]: it is in the state after that many turns, and each turn
    was entered with quota left and found, at its place after the starting
    read pointer, an entry with the phase expected there, which it
    recorded. *)
Definition handled_inv (efx : efx_nic) (w : World) (c : efx_channel)
    (quota : Z) (st : loop_state) : Prop :=
  st = ev_state_after efx w c quota (length (trace st))
  /\ forall i, (i < length (trace st))%nat ->
       ev_phase (efx_event c (u32 (eventq_read_ptr c + Z.of_nat i)))
       = expected_phase efx c i
       /\ sum_units (firstn i (trace st)) < quota
       /\ nth_error (trace st) i
          = Some (handled_record efx w c quota (trace st) i).

(** What the phase test has let through when the loop has handled the
    entries of [trace st]: each of them is the ring entry at its place
    after the starting read pointer, and carries the phase expected
    there. *)
Definition phase_inv (efx : efx_nic) (c : efx_channel) (st : loop_state)
  : Prop :=
  forall i, (i < length (trace st))%nat ->
    ev_phase (efx_event c (u32 (eventq_read_ptr c + Z.of_nat i)))
    = expected_phase efx c i
    /\ exists n,
         nth_error (trace st) i
         = Some (mk_dispatched (u32 (eventq_read_ptr c + Z.of_nat i))
                   (expected_phase efx c i)
                   (efx_event c (u32 (eventq_read_ptr c + Z.of_nat i))) n).

(** The reading of the dispatcher on which the quota bounds the work of an
    invocation whatever the handlers report: on an enabled channel the
    work counted for the handled entries is at most the quota. *)
Definition work_never_exceeds_quota (efx : efx_nic) (w : World)
    (c : efx_channel) (quota : Z) : Prop :=
  enabled c = true ->
  forall fuel r,
    ef100_ev_process fuel efx w c quota = Some r ->
    sum_units (ev_trace r) <= quota /\ ev_ret r <= quota.

End Dispatch.

(** A world in which the handlers only count their calls, and the port
    handler claims every event and reports no work; used for worked
    examples. *)
Definition counting_externals : evq_externals nat := {|
  efx_ef100_ev_rx := fun w _ _ => S w;
  ef100_ev_tx := fun w _ _ => S w;
  efx_mcdi_process_event := fun w _ _ => (false, S w);
  efx_mcdi_port_process_event_common := fun w _ _ _ => (true, 0, S w);
  efx_writed_evq_prime := fun w _ _ => w
|}.

(** A world in which the handlers count their calls and the port handler
    claims no event and reports as work the budget it is handed, up to 2
    units. *)
Definition metered_externals : evq_externals nat := {|
  efx_ef100_ev_rx := fun w _ _ => S w;
  ef100_ev_tx := fun w _ _ => S w;
  efx_mcdi_process_event := fun w _ _ => (false, S w);
  efx_mcdi_port_process_event_common :=
    fun w _ _ budget => (true, Z.min budget 2, S w);
  efx_writed_evq_prime := fun w _ _ => w
|}.

(** A world in which the port handler reports 1000 units of work whatever
    budget it is handed. *)
Definition greedy_externals : evq_externals nat := {|
  efx_ef100_ev_rx := fun w _ _ => S w;
  ef100_ev_tx := fun w _ _ => S w;
  efx_mcdi_process_event := fun w _ _ => (false, S w);
  efx_mcdi_port_process_event_common := fun w _ _ _ => (true, 1000, S w);
  efx_writed_evq_prime := fun w _ _ => w
|}.

(** A ring given by the list of its entries. *)
Definition ring_of (entries : list efx_qword_t) (i : Z) : efx_qword_t :=
  nth (Z.to_nat i) entries (mk_event false (EV_OTHER 0) 0).

End Evq.

(** ** The datapath capability query *)

Module Caps.

(** The constants of [mcdi_pcol.h] and of the kernel's [netdev_features.h]
    that the capability query uses; the headers are not part of the
    verified source, so the values are parameters.  The [_OFST] fields are
    byte offsets into the response, [TX_TSO_V3_LBN] is the bit number of
    the TSO v3 capability in the second flags word. *)
Class mcdi_pcol : Type := {
  MC_CMD_GET_CAPABILITIES_V4_OUT_LEN : Z;
  GET_CAPABILITIES_OUT_FLAGS1_OFST : Z;
  GET_CAPABILITIES_V2_OUT_FLAGS2_OFST : Z;
  GET_CAPABILITIES_V3_OUT_VI_WINDOW_MODE_OFST : Z;
  GET_CAPABILITIES_V4_OUT_MAC_STATS_NUM_STATS_OFST : Z;
  TX_TSO_V3_LBN : Z;
  NETIF_F_TSO : Z;
  NETIF_F_TSO6 : Z
}.

(** The capability state: the two flag words of [struct ef100_nic_data],
    the VI stride, the feature words of the net device and the number of
    MAC statistics. *)
Record efx_nic : Type := mk_efx_nic {
  datapath_caps  : Z;
  datapath_caps2 : Z;
  vi_stride      : Z;
  features       : Z;
  hw_features    : Z;
  num_mac_stats  : Z
}.

(** Little-endian fields of the response buffer. *)
Definition MCDI_BYTE (outbuf : list Z) (ofst : Z) : Z :=
  nth (Z.to_nat ofst) outbuf 0.

Definition MCDI_WORD (outbuf : list Z) (ofst : Z) : Z :=
  MCDI_BYTE outbuf ofst + 256 * MCDI_BYTE outbuf (ofst + 1).

Definition MCDI_DWORD (outbuf : list Z) (ofst : Z) : Z :=
  MCDI_WORD outbuf ofst + 65536 * MCDI_WORD outbuf (ofst + 2).

(** [efx_ef100_has_cap(caps, TX_TSO_V3)] *)
Definition has_cap_TX_TSO_V3 `{mcdi_pcol} (caps : Z) : bool :=
  Z.testbit caps TX_TSO_V3_LBN.

(** What [efx_mcdi_rpc] hands back: its return code, the response buffer
    and the length of the response. *)
Record rpc_result : Type := mk_rpc_result {
  rpc_rc  : Z;
  outbuf  : list Z;
  outlen  : Z
}.

Section InitCaps.
Context `{mcdi_pcol}.

(** [efx_mcdi_window_mode_to_stride], outside the verified source: from
    the window mode it computes a return code and the stride it stores. *)
Variable efx_mcdi_window_mode_to_stride : efx_nic -> Z -> Z * efx_nic.

(** [efx_ef100_init_datapath_caps]; [rpc] is the outcome of the
    [MC_CMD_GET_CAPABILITIES] request. *)
Definition efx_ef100_init_datapath_caps (efx : efx_nic) (rpc : rpc_result)
  : Z * efx_nic :=
  if negb (rpc_rc rpc =? 0) then (rpc_rc rpc, efx)
  else if outlen rpc <? MC_CMD_GET_CAPABILITIES_V4_OUT_LEN then (- EIO, efx)
  else
    let efx1 :=
      {| datapath_caps :=
           MCDI_DWORD (outbuf rpc) GET_CAPABILITIES_OUT_FLAGS1_OFST;
         datapath_caps2 :=
           MCDI_DWORD (outbuf rpc) GET_CAPABILITIES_V2_OUT_FLAGS2_OFST;
         vi_stride := vi_stride efx;
         features := features efx;
         hw_features := hw_features efx;
         num_mac_stats := num_mac_stats efx |} in
    let vi_window_mode :=
      MCDI_BYTE (outbuf rpc) GET_CAPABILITIES_V3_OUT_VI_WINDOW_MODE_OFST in
    let (rc, efx2) := efx_mcdi_window_mode_to_stride efx1 vi_window_mode in
    if negb (rc =? 0) then (rc, efx2)
    else
      let tso := has_cap_TX_TSO_V3 (datapath_caps2 efx2) in
      (0,
       {| datapath_caps := datapath_caps efx2;
          datapath_caps2 := datapath_caps2 efx2;
          vi_stride := vi_stride efx2;
          features :=
            if tso
            then Z.lor (features efx2) (Z.lor NETIF_F_TSO NETIF_F_TSO6)
            else features efx2;
          hw_features :=
            if tso then Z.lor (hw_features efx2) NETIF_F_TSO
            else hw_features efx2;
          num_mac_stats :=
            MCDI_WORD (outbuf rpc)
              GET_CAPABILITIES_V4_OUT_MAC_STATS_NUM_STATS_OFST |}).

End InitCaps.

(** One assignment of the protocol constants and a stride helper, for
    worked examples. *)
Definition example_pcol : mcdi_pcol := {|
  MC_CMD_GET_CAPABILITIES_V4_OUT_LEN := 78;
  GET_CAPABILITIES_OUT_FLAGS1_OFST := 0;
  GET_CAPABILITIES_V2_OUT_FLAGS2_OFST := 20;
  GET_CAPABILITIES_V3_OUT_VI_WINDOW_MODE_OFST := 72;
  GET_CAPABILITIES_V4_OUT_MAC_STATS_NUM_STATS_OFST := 76;
  TX_TSO_V3_LBN := 31;
  NETIF_F_TSO := 2 ^ 16;
  NETIF_F_TSO6 := 2 ^ 20
|}.

Definition example_stride (efx : efx_nic) (mode : Z) : Z * efx_nic :=
  (0, {| datapath_caps := datapath_caps efx;
         datapath_caps2 := datapath_caps2 efx;
         vi_stride := 8192 * 2 ^ mode;
         features := features efx;
         hw_features := hw_features efx;
         num_mac_stats := num_mac_stats efx |}).

End Caps.

(** ** The reset sequence *)

Module ResetSeq.

Inductive nic_state : Type :=
  | STATE_PROBED
  | STATE_NET_DOWN
  | STATE_NET_UP
  | STATE_DISABLED.

(** [enum reset_type], as far as [ef100_reset] tells the values apart. *)
Inductive reset_type : Type :=
  | RESET_TYPE_TX_WATCHDOG
  | RESET_TYPE_ALL
  | RESET_TYPE_DISABLE
  | RESET_TYPE_OTHER (n : Z).

Definition reset_type_eqb (a b : reset_type) : bool :=
  match a, b with
  | RESET_TYPE_TX_WATCHDOG, RESET_TYPE_TX_WATCHDOG => true
  | RESET_TYPE_ALL, RESET_TYPE_ALL => true
  | RESET_TYPE_DISABLE, RESET_TYPE_DISABLE => true
  | RESET_TYPE_OTHER n, RESET_TYPE_OTHER m => n =? m
  | _, _ => false
  end.

(** The VLAN identifiers the filter helpers are called with. *)
Inductive vlan_id : Type :=
  | EFX_FILTER_VID_UNSPEC
  | VID (n : Z).

(** The calls that leave [ef100_nic.c], in the order they are made. *)
Inductive call : Type :=
  | dev_close
  | dev_open
  | attach_reps
  | netif_device_attach
  | down_write_filter_sem
  | up_write_filter_sem
  | efx_mcdi_reset (t : reset_type)
  | efx_mcdi_filter_add_vlan (vid : vlan_id)
  | efx_mcdi_filter_del_vlan (vid : vlan_id)
  | efx_mcdi_filter_table_down.

(** The fields of [struct efx_nic] and [struct ef100_nic_data] the reset
    sequence touches.  [has_attach_reps] holds when the representor hook
    is compiled in and set in the device type; [reset_pending] is the set
    of pending reset types. *)
Record efx_nic : Type := mk_efx_nic {
  state           : nic_state;
  filters_up      : bool;
  reset_pending   : reset_type -> bool;
  last_reset      : Z;
  has_attach_reps : bool
}.

(** What the outside answers: the return codes of the firmware reset, of
    adding a VLAN filter and of opening the net device, and the clock. *)
Record environment : Type := mk_environment {
  mcdi_reset_rc : Z;
  add_vlan_rc   : vlan_id -> Z;
  dev_open_rc   : Z;
  jiffies       : Z
}.

(** The driver state together with the calls made so far, and the monad
    of computations over it. *)
Record machine : Type := mk_machine {
  efx   : efx_nic;
  calls : list call
}.

Definition M (A : Type) : Type := machine -> A * machine.

Definition ret {A : Type} (a : A) : M A := fun m => (a, m).

Definition bind {A B : Type} (x : M A) (f : A -> M B) : M B :=
  fun m => let (a, m') := x m in f a m'.

Notation "x <- c1 ;; c2" := (bind c1 (fun x => c2))
  (at level 61, c1 at next level, right associativity).
Notation "c1 ;; c2" := (bind c1 (fun _ => c2))
  (at level 61, right associativity).

Definition do_call (c : call) : M unit :=
  fun m => (tt, mk_machine (efx m) (calls m ++ [c])).

Definition get_efx : M efx_nic := fun m => (efx m, m).

Definition set_efx (e : efx_nic) : M unit :=
  fun m => (tt, mk_machine e (calls m)).

Definition when (b : bool) (c : M unit) : M unit :=
  if b then c else ret tt.

Definition set_filters_up (b : bool) : M unit :=
  e <- get_efx ;;
  set_efx (mk_efx_nic (state e) b (reset_pending e) (last_reset e)
             (has_attach_reps e)).

Definition set_state (s : nic_state) : M unit :=
  e <- get_efx ;;
  set_efx (mk_efx_nic s (filters_up e) (reset_pending e) (last_reset e)
             (has_attach_reps e)).

Definition set_last_reset (t : Z) : M unit :=
  e <- get_efx ;;
  set_efx (mk_efx_nic (state e) (filters_up e) (reset_pending e) t
             (has_attach_reps e)).

(** [__clear_bit(reset_type, &efx->reset_pending)] *)
Definition clear_reset_pending (t : reset_type) : M unit :=
  e <- get_efx ;;
  set_efx (mk_efx_nic (state e) (filters_up e)
             (fun t' => if reset_type_eqb t' t then false
                        else reset_pending e t')
             (last_reset e) (has_attach_reps e)).

Section Sequence.
Variable env : environment.

(** [ef100_filter_table_up] *)
Definition ef100_filter_table_up : M Z :=
  e <- get_efx ;;
  if filters_up e then ret 0
  else
    do_call (efx_mcdi_filter_add_vlan EFX_FILTER_VID_UNSPEC) ;;
    let rc := add_vlan_rc env EFX_FILTER_VID_UNSPEC in
    if negb (rc =? 0) then
      do_call efx_mcdi_filter_table_down ;;
      ret rc
    else
      do_call (efx_mcdi_filter_add_vlan (VID 0)) ;;
      let rc := add_vlan_rc env (VID 0) in
      when (negb (rc =? 0))
        (do_call (efx_mcdi_filter_del_vlan EFX_FILTER_VID_UNSPEC) ;;
         do_call efx_mcdi_filter_table_down) ;;
      set_filters_up (rc =? 0) ;;
      ret rc.

(** [ef100_filter_table_down] *)
Definition ef100_filter_table_down : M unit :=
  e <- get_efx ;;
  if negb (filters_up e) then ret tt
  else
    do_call (efx_mcdi_filter_del_vlan (VID 0)) ;;
    do_call (efx_mcdi_filter_del_vlan EFX_FILTER_VID_UNSPEC) ;;
    do_call efx_mcdi_filter_table_down ;;
    set_filters_up false.

(** The representor hook and [netif_device_attach], as both reset flows
    call them. *)
Definition reattach : M unit :=
  e <- get_efx ;;
  when (has_attach_reps e) (do_call attach_reps) ;;
  do_call netif_device_attach.

(** [ef100_reset] *)
Definition ef100_reset (t : reset_type) : M Z :=
  do_call dev_close ;;
  match t with
  | RESET_TYPE_TX_WATCHDOG =>
      reattach ;;
      clear_reset_pending t ;;
      set_state STATE_NET_DOWN ;;
      do_call dev_open ;;
      ret (dev_open_rc env)
  | RESET_TYPE_ALL =>
      do_call down_write_filter_sem ;;
      ef100_filter_table_down ;;
      do_call up_write_filter_sem ;;
      do_call (efx_mcdi_reset t) ;;
      let rc := mcdi_reset_rc env in
      if negb (rc =? 0) then ret rc
      else
        set_last_reset (jiffies env) ;;
        reattach ;;
        do_call down_write_filter_sem ;;
        rc <- ef100_filter_table_up ;;
        do_call up_write_filter_sem ;;
        if negb (rc =? 0) then ret rc
        else
          do_call dev_open ;;
          ret (dev_open_rc env)
  | _ => ret 1
  end.

End Sequence.

(** The calls of the four steps of a full reset. *)
Definition teardown_calls (up : bool) : list call :=
  [down_write_filter_sem]
  ++ (if up then [ efx_mcdi_filter_del_vlan (VID 0);
                   efx_mcdi_filter_del_vlan EFX_FILTER_VID_UNSPEC;
                   efx_mcdi_filter_table_down ]
      else [])
  ++ [up_write_filter_sem].

Definition reset_calls : list call := [efx_mcdi_reset RESET_TYPE_ALL].

Definition reattach_calls (reps : bool) : list call :=
  (if reps then [attach_reps] else []) ++ [netif_device_attach].

Definition rebuild_calls (env : environment) : list call :=
  [down_write_filter_sem;
   efx_mcdi_filter_add_vlan EFX_FILTER_VID_UNSPEC]
  ++ (if add_vlan_rc env EFX_FILTER_VID_UNSPEC =? 0
      then efx_mcdi_filter_add_vlan (VID 0)
           :: (if add_vlan_rc env (VID 0) =? 0 then []
               else [ efx_mcdi_filter_del_vlan EFX_FILTER_VID_UNSPEC;
                      efx_mcdi_filter_table_down ])
      else [efx_mcdi_filter_table_down])
  ++ [up_write_filter_sem].

(** The return code of the rebuild step. *)
Definition rebuild_rc (env : environment) : Z :=
  if add_vlan_rc env EFX_FILTER_VID_UNSPEC =? 0
  then add_vlan_rc env (VID 0)
  else add_vlan_rc env EFX_FILTER_VID_UNSPEC.

Definition reopen_calls : list call := [dev_open].

(** A call that belongs to re-attaching, rebuilding or reopening. *)
Definition recovery_call (c : call) : bool :=
  match c with
  | dev_open | attach_reps | netif_device_attach
  | efx_mcdi_filter_add_vlan _ => true
  | _ => false
  end.

End ResetSeq.

(** ** The design-parameter scan as a whole *)

Module TlvRun.
Import Tlv.

(** The readers [ef100_check_design_params] can hold: the initial reader,
    and what a successful feed of a byte makes of such a reader. *)
Inductive reachable : ef100_tlv_state -> Prop :=
  | reach_init : reachable reader0
  | reach_feed st byte st' :
      reachable st -> 0 <= byte < 256 ->
      ef100_tlv_feed st byte = (0, st') -> reachable st'.



(** The limits the interpreter clamps the TSO parameters to. *)
Definition params_bounded `{ef100_regs} (nic : design_params) : Prop :=
  0 <= tso_max_hdr_len nic <= 0xffff
  /\ 0 <= tso_max_payload_num_segs nic <= 0xffff
  /\ 0 <= tso_max_frames nic <= 0xffff
  /\ 0 <= tso_max_payload_len nic <= GSO_MAX_SIZE.

(** The number of dwords that hold [total_len] bytes. *)
Definition dwords_of (total_len : Z) : nat := Z.to_nat ((total_len + 3) / 4).

End TlvRun.

(** ** Event-queue set-up and the MCDI look-ahead *)

Module EvqScan.
Import Evq.

(** [clear_bit(nr, addr)] *)
Definition clear_bit (nr bitmap : Z) : Z := Z.ldiff bitmap (Z.shiftl 1 nr).

(** [ef100_ev_init]: the phase bit of the channel is cleared, and the
    result is that of [efx_mcdi_ev_init], which is outside the verified
    source and given here by its return code. *)
Definition ef100_ev_init (efx : efx_nic) (c : efx_channel)
    (efx_mcdi_ev_init_rc : Z) : Z * efx_nic :=
  (efx_mcdi_ev_init_rc,
   mk_efx_nic (clear_bit (channel c) (evq_phases efx)) (busy_poll efx)).

(** The [for (;;)] loop of [ef100_ev_mcdi_pending]; [None] means the fuel
    ran out.  The expected phase is read once before the loop and is not
    changed in it. *)
Fixpoint ev_mcdi_pending_loop (fuel : nat) (c : efx_channel)
    (evq_phase : bool) (read_ptr : Z) : option bool :=
  match fuel with
  | O => None
  | S fuel' =>
      let ev := efx_event c read_ptr in
      if negb (Bool.eqb (ev_phase ev) evq_phase) then Some false
      else
        match ev_type ev with
        | ESE_GZ_EF100_EV_MCDI => Some true
        | _ => ev_mcdi_pending_loop fuel' c evq_phase (u32 (read_ptr + 1))
        end
  end.

(** [ef100_ev_mcdi_pending] *)
Definition ef100_ev_mcdi_pending (fuel : nat) (efx : efx_nic)
    (c : efx_channel) : option bool :=
  if negb (enabled c) then Some false
  else ev_mcdi_pending_loop fuel c
         (test_bit (channel c) (evq_phases efx)) (eventq_read_ptr c).

(** An entry the look-ahead passes over: it has the phase looked for and
    is not an MCDI event. *)
Definition passed_over (ph : bool) (ev : efx_qword_t) : Prop :=
  ev_phase ev = ph /\ ev_type ev <> ESE_GZ_EF100_EV_MCDI.

End EvqScan.

(** ** MCDI buffer slots *)

Module McdiBuf.

(** [#define EF100_NUM_MCDI_BUFFERS 1] *)
Definition EF100_NUM_MCDI_BUFFERS : Z := 1.

(** The kernel's [ffz]: the index of the first zero bit of an
    [unsigned long], looked for through [n] bits from bit [i] on.  The
    kernel leaves the result undefined for a word without a zero bit; here
    it is 64. *)
Fixpoint ffz_from (n : nat) (i : Z) (word : Z) : Z :=
  match n with
  | O => i
  | S k => if Z.testbit word i then ffz_from k (i + 1) word else i
  end.

Definition ffz (word : Z) : Z := ffz_from 64 0 word.

Definition set_bit (nr bitmap : Z) : Z := Z.lor bitmap (Z.shiftl 1 nr).
Definition clear_bit (nr bitmap : Z) : Z := Z.ldiff bitmap (Z.shiftl 1 nr).

(** [ef100_mcdi_get_buf]: whether a buffer was handed out, the value left
    in [*bufid] (a [u8]) and the new [mcdi_buf_use]. *)
Definition ef100_mcdi_get_buf (mcdi_buf_use : Z) : bool * Z * Z :=
  let bufid := u8 (ffz mcdi_buf_use) in
  if bufid <? EF100_NUM_MCDI_BUFFERS
  then (true, bufid, set_bit bufid mcdi_buf_use)
  else (false, bufid, mcdi_buf_use).

(** [ef100_mcdi_put_buf]; the two paranoid warnings do not change the
    state. *)
Definition ef100_mcdi_put_buf (mcdi_buf_use bufid : Z) : Z :=
  clear_bit bufid mcdi_buf_use.

(** A user of the buffers: it asks for a buffer, or gives back one it
    holds. *)
Inductive buf_request : Type :=
  | acquire
  | release (bufid : Z).

(** The bitmap and the buffers held after a sequence of requests; [None]
    when a buffer is given back that is not held. *)
Fixpoint buf_run (mcdi_buf_use : Z) (held : list Z)
    (requests : list buf_request) : option (Z * list Z) :=
  match requests with
  | [] => Some (mcdi_buf_use, held)
  | acquire :: rest =>
      match ef100_mcdi_get_buf mcdi_buf_use with
      | (true, bufid, use') => buf_run use' (bufid :: held) rest
      | (false, _, _) => buf_run mcdi_buf_use held rest
      end
  | release bufid :: rest =>
      if existsb (Z.eqb bufid) held
      then buf_run (ef100_mcdi_put_buf mcdi_buf_use bufid)
             (remove Z.eq_dec bufid held) rest
      else None
  end.

End McdiBuf.

(** ** Mapping reset requests *)

Module ResetMap.
Import ResetSeq.

Definition EINVAL : Z := 22.

(** [ef100_map_reset_reason] *)
Definition ef100_map_reset_reason (reason : reset_type) : reset_type :=
  if reset_type_eqb reason RESET_TYPE_TX_WATCHDOG then reason
  else RESET_TYPE_DISABLE.

(** [ef100_map_reset_flags].  [EF100_RESET_PORT] is built from constants of
    the kernel's [ethtool.h], where [ETH_RESET_MGMT] is defined as well;
    that header is not part of the verified source, so the two masks are
    parameters.  The result is the reset type or the negative errno, with
    the flags word as the function leaves it. *)
Section Flags.
Variables EF100_RESET_PORT ETH_RESET_MGMT : Z.

Definition ef100_map_reset_flags (flags : Z) : (reset_type + Z) * Z :=
  if negb (Z.land flags EF100_RESET_PORT =? 0) then
    (inl RESET_TYPE_ALL, u32 (Z.land flags (Z.lnot EF100_RESET_PORT)))
  else if negb (Z.land flags ETH_RESET_MGMT =? 0) then
    (inl RESET_TYPE_DISABLE, u32 (Z.land flags (Z.lnot ETH_RESET_MGMT)))
  else (inr (- EINVAL), flags).

End Flags.

(** The calls [ef100_filter_table_up] makes when the table is down. *)
Definition filter_up_calls (env : environment) : list call :=
  efx_mcdi_filter_add_vlan EFX_FILTER_VID_UNSPEC
  :: (if add_vlan_rc env EFX_FILTER_VID_UNSPEC =? 0
      then efx_mcdi_filter_add_vlan (VID 0)
           :: (if add_vlan_rc env (VID 0) =? 0 then []
               else [ efx_mcdi_filter_del_vlan EFX_FILTER_VID_UNSPEC;
                      efx_mcdi_filter_table_down ])
      else [efx_mcdi_filter_table_down]).

(** The calls [ef100_filter_table_down] makes when the table is up. *)
Definition filter_down_calls : list call :=
  [ efx_mcdi_filter_del_vlan (VID 0);
    efx_mcdi_filter_del_vlan EFX_FILTER_VID_UNSPEC;
    efx_mcdi_filter_table_down ].

(** A call to the filter table or to the firmware. *)
Definition filter_or_firmware_call (c : call) : bool :=
  match c with
  | efx_mcdi_reset _ | efx_mcdi_filter_add_vlan _
  | efx_mcdi_filter_del_vlan _ | efx_mcdi_filter_table_down
  | down_write_filter_sem | up_write_filter_sem => true
  | _ => false
  end.

End ResetMap.

(** ** Firmware version comparison *)

Module Version.

(** [compare_versions].  Each argument is what
    [sscanf(s, "%d.%d.%d.%d", ...)] makes of the version string: the four
    integers when all four fields were matched, [None] when fewer were.
    The differences are taken in [int]. *)
Definition compare_versions (a b : option (Z * Z * Z * Z)) : Z :=
  match a, b with
  | Some _, None => 1
  | None, Some _ => -1
  | None, None => 0
  | Some (a_major, a_minor, a_point, a_patch),
    Some (b_major, b_minor, b_point, b_patch) =>
      if negb (a_major =? b_major) then s32 (a_major - b_major)
      else if negb (a_minor =? b_minor) then s32 (a_minor - b_minor)
      else if negb (a_point =? b_point) then s32 (a_point - b_point)
      else s32 (a_patch - b_patch)
  end.

(** Versions in dictionary order. *)
Definition version_lt (a b : Z * Z * Z * Z) : Prop :=
  match a, b with
  | (a1, a2, a3, a4), (b1, b2, b3, b4) =>
      a1 < b1
      \/ (a1 = b1
          /\ (a2 < b2 \/ (a2 = b2 /\ (a3 < b3 \/ (a3 = b3 /\ a4 < b4)))))
  end.

(** A version whose four numbers are non-negative [int]s. *)
Definition version_nonneg (a : Z * Z * Z * Z) : Prop :=
  match a with
  | (a1, a2, a3, a4) =>
      0 <= a1 < 2 ^ 31 /\ 0 <= a2 < 2 ^ 31
      /\ 0 <= a3 < 2 ^ 31 /\ 0 <= a4 < 2 ^ 31
  end.

(** The check [ef100_probe_main] makes of the firmware version:
    [compare_versions(fw_version, "1.1.0.1000") < 0] means the firmware
    is refused. *)
Definition firmware_too_old (fw_version : option (Z * Z * Z * Z)) : bool :=
  compare_versions fw_version (Some (1, 1, 0, 1000)) <? 0.

End Version.

(** ** The list of UDP tunnel ports *)

Module UdpTunnel.

(** [enum efx_encap_type], as far as the list functions tell the values
    apart. *)
Inductive efx_encap_type : Type :=
  | EFX_ENCAP_TYPE_NONE
  | EFX_ENCAP_TYPE_OTHER (code : Z).

Definition encap_type_eqb (a b : efx_encap_type) : bool :=
  match a, b with
  | EFX_ENCAP_TYPE_NONE, EFX_ENCAP_TYPE_NONE => true
  | EFX_ENCAP_TYPE_OTHER n, EFX_ENCAP_TYPE_OTHER m => n =? m
  | _, _ => false
  end.

(** [struct ef100_udp_tunnel] without its list head; the list
    [nic_data->udp_tunnels] is the list of its entries in order. *)
Record ef100_udp_tunnel : Type := mk_tunnel {
  type : efx_encap_type;
  port : Z
}.

(** [__efx_ef100_udp_tnl_find_port] *)
Fixpoint __efx_ef100_udp_tnl_find_port (udp_tunnels : list ef100_udp_tunnel)
    (p : Z) : option ef100_udp_tunnel :=
  match udp_tunnels with
  | [] => None
  | tnl :: rest =>
      if p =? port tnl then Some tnl
      else __efx_ef100_udp_tnl_find_port rest p
  end.

(** [efx_ef100_udp_tnl_add_port]; [kmalloc_ok] tells whether the
    allocation of the new entry succeeds. *)
Definition efx_ef100_udp_tnl_add_port (kmalloc_ok : bool)
    (udp_tunnels : list ef100_udp_tunnel) (tnl : ef100_udp_tunnel)
  : list ef100_udp_tunnel :=
  match __efx_ef100_udp_tnl_find_port udp_tunnels (port tnl) with
  | Some _ => udp_tunnels
  | None => if kmalloc_ok then udp_tunnels ++ [tnl] else udp_tunnels
  end.

(** [efx_ef100_udp_tnl_lookup_port] *)
Definition efx_ef100_udp_tnl_lookup_port
    (udp_tunnels : list ef100_udp_tunnel) (p : Z) : efx_encap_type :=
  match __efx_ef100_udp_tnl_find_port udp_tunnels p with
  | Some entry => type entry
  | None => EFX_ENCAP_TYPE_NONE
  end.

(** [list_del] of the entry that [__efx_ef100_udp_tnl_find_port] finds
    for port [p]: the first entry with that port. *)
Fixpoint list_del_found (udp_tunnels : list ef100_udp_tunnel) (p : Z)
  : list ef100_udp_tunnel :=
  match udp_tunnels with
  | [] => []
  | tnl :: rest =>
      if p =? port tnl then rest else tnl :: list_del_found rest p
  end.

(** [efx_ef100_udp_tnl_del_port] *)
Definition efx_ef100_udp_tnl_del_port
    (udp_tunnels : list ef100_udp_tunnel) (tnl : ef100_udp_tunnel)
  : list ef100_udp_tunnel :=
  match __efx_ef100_udp_tnl_find_port udp_tunnels (port tnl) with
  | Some entry =>
      if encap_type_eqb (type entry) (type tnl)
      then list_del_found udp_tunnels (port tnl)
      else udp_tunnels
  | None => udp_tunnels
  end.

(** The requests made of the list. *)
Inductive tunnel_request : Type :=
  | add_port (kmalloc_ok : bool) (tnl : ef100_udp_tunnel)
  | del_port (tnl : ef100_udp_tunnel).

Definition tunnel_step (udp_tunnels : list ef100_udp_tunnel)
    (rq : tunnel_request) : list ef100_udp_tunnel :=
  match rq with
  | add_port ok tnl => efx_ef100_udp_tnl_add_port ok udp_tunnels tnl
  | del_port tnl => efx_ef100_udp_tnl_del_port udp_tunnels tnl
  end.

End UdpTunnel.

(** ** MCDI request buffers *)

Module McdiPdu.

(** The kernel's [ALIGN(x, a)] for a power of two [a]. *)
Definition ALIGN (x a : Z) : Z := Z.land (x + (a - 1)) (Z.lnot (a - 1)).

(** The two doorbell registers. *)
Inductive doorbell_reg : Type :=
  | ER_GZ_MC_DB_LWRD
  | ER_GZ_MC_DB_HWRD.

(** The MCDI buffer memory [nic_data->mcdi_buf]: its bytes by offset from
    [mcdi_buf.addr], its DMA address, and the doorbell writes made so
    far. *)
Record mcdi_hw : Type := mk_mcdi_hw {
  buf_mem      : Z -> Z;
  buf_dma_addr : Z;
  writes       : list (doorbell_reg * Z)
}.

(** [memcpy(dst, src, n)] into the buffer memory. *)
Definition memcpy (mem : Z -> Z) (dst : Z) (src : list Z) (n : Z)
  : Z -> Z :=
  fun i => if (dst <=? i) && (i <? dst + n)
           then nth (Z.to_nat (i - dst)) src 0 else mem i.

Section Buf.
(** [MCDI_BUF_LEN] is [8 + MCDI_CTL_SDU_LEN_MAX]; the latter comes from
    [mcdi.h], which is not part of the verified source. *)
Variable MCDI_BUF_LEN : Z.

(** [ef100_mcdi_buf]: the offset of buffer [bufid] from [mcdi_buf.addr]
    and its DMA address. *)
Definition ef100_mcdi_buf (hw : mcdi_hw) (bufid : Z) : Z * Z :=
  (bufid * ALIGN MCDI_BUF_LEN 256,
   u64 (buf_dma_addr hw + bufid * ALIGN MCDI_BUF_LEN 256)).

(** [ef100_mcdi_request] *)
Definition ef100_mcdi_request (hw : mcdi_hw) (bufid : Z)
    (hdr : list Z) (hdr_len : Z) (sdu : list Z) (sdu_len : Z) : mcdi_hw :=
  let (pdu, dma_addr) := ef100_mcdi_buf hw bufid in
  let mem1 := memcpy (buf_mem hw) pdu hdr hdr_len in
  let mem2 := memcpy mem1 (pdu + hdr_len) sdu sdu_len in
  mk_mcdi_hw mem2 (buf_dma_addr hw)
    (writes hw ++ [ (ER_GZ_MC_DB_LWRD, u32 (Z.shiftr dma_addr 32));
                    (ER_GZ_MC_DB_HWRD, u32 dma_addr) ]).

(** [ef100_mcdi_read_response]: the bytes copied to [outbuf]. *)
Definition ef100_mcdi_read_response (hw : mcdi_hw) (bufid : Z)
    (offset outlen : Z) : list Z :=
  let pdu := fst (ef100_mcdi_buf hw bufid) in
  map (fun i => buf_mem hw (pdu + offset + Z.of_nat i))
    (seq 0 (Z.to_nat outlen)).

End Buf.

End McdiPdu.

(** ** Probing the device *)

Module Probe.

Definition EINVAL : Z := 22.

(** What the device and the functions outside [ef100_nic.c] answer during
    [ef100_probe_main]: the size of the memory BAR, whether the
    allocation of [nic_data] succeeds, the design-parameter window and its
    declared length, the results of the buffer allocation, of
    [efx_probe_common] and of [efx_get_pf_index], the result of
    [efx_mcdi_port_get_number], the successive values read from
    [ER_GZ_MC_SFT_STATUS], what [sscanf] makes of the firmware version
    string, and the result of [device_create_file]. *)
Record probe_env : Type := mk_probe_env {
  bar_size           : Z;
  kzalloc_ok         : bool;
  params_tlv         : Z -> Z;
  params_tlv_len     : Z;
  alloc_buffer_rc    : Z;
  sft_status         : nat -> Z;
  probe_common_rc    : Z;
  get_pf_index_rc    : Z;
  port_get_number_rc : Z;
  fw_version         : option (Z * Z * Z * Z);
  create_file_rc     : Z
}.

(** The calls that leave [ef100_nic.c], in the order they are made. *)
Inductive probe_call : Type :=
  | efx_nic_alloc_buffer
  | efx_readd_sft_status
  | ssleep
  | efx_writed_doorbell (value : Z)
  | efx_probe_common
  | efx_get_pf_index
  | efx_mcdi_port_get_number
  | efx_mcdi_print_fwver
  | device_create_file.

(** The state [ef100_probe_main] builds up. *)
Record probe_state : Type := mk_probe_state {
  nic      : Tlv.design_params;
  efx      : Mcdi.efx_nic;
  port_num : Z;
  calls    : list probe_call
}.

(** The loop that reads the warm boot count:
    [for (;;) { rc = ef100_get_warm_boot_count(efx); if (rc >= 0) break;
    if (++i == 5) goto fail; ssleep(1); }].  [reads] is the number of
    status reads made before; the result is the last return code, whether
    the loop was left by [break], and the state.  [None] means the fuel
    ran out. *)
Fixpoint warm_boot_loop (fuel : nat) (env : probe_env) (i : Z)
    (reads : nat) (st : probe_state) : option (Z * bool * probe_state) :=
  match fuel with
  | O => None
  | S fuel' =>
      let (rc, efx1) :=
        Mcdi.ef100_get_warm_boot_count (efx st) (sft_status env reads) in
      let st1 := mk_probe_state (nic st) efx1 (port_num st)
                   (calls st ++ [efx_readd_sft_status]) in
      if 0 <=? rc then Some (rc, true, st1)
      else
        let i' := s32 (i + 1) in
        if i' =? 5 then Some (rc, false, st1)
        else warm_boot_loop fuel' env i' (S reads)
               (mk_probe_state (nic st1) (efx st1) (port_num st1)
                  (calls st1 ++ [ssleep]))
  end.

Section ProbeMain.
Context `{regs : Tlv.ef100_regs}.

(** The defaults of the design parameters, from [ef100_regs.h]. *)
Variables ESE_EF100_DP_GZ_TSO_MAX_HDR_LEN_DEFAULT
          ESE_EF100_DP_GZ_TSO_MAX_NUM_FRAMES_DEFAULT
          ESE_EF100_DP_GZ_TSO_MAX_PAYLOAD_NUM_SEGS_DEFAULT
          ESE_EF100_DP_GZ_TSO_MAX_PAYLOAD_LEN_DEFAULT : Z.


End ProbeMain.

(** A status dword that is valid: not all-ones and with the magic pattern
    in its upper half. *)
Definition status_valid (reg : Z) : bool :=
  negb (u32 reg =? 0xffffffff) && (Mcdi.EFX_WORD_1 reg =? 0xb007).

(** The state after [n] status reads, from read number [from] on, none of
    which was the last: each is followed by a sleep. *)
Fixpoint failed_reads (env : probe_env) (st : probe_state) (from n : nat)
  : probe_state :=
  match n with
  | O => st
  | S n' =>
      failed_reads env
        (mk_probe_state (nic st)
           (snd (Mcdi.ef100_get_warm_boot_count (efx st)
                   (sft_status env from)))
           (port_num st)
           (calls st ++ [efx_readd_sft_status; ssleep]))
        (S from) n'
  end.



End Probe.

(** * Properties *)

(** ** Machine integers *)

Lemma u8_small x : 0 <= x < 256 -> u8 x = x.
Proof. intros H. unfold u8. apply Z.mod_small. simpl. lia. Qed.

Lemma u16_small x : 0 <= x < 65536 -> u16 x = x.
Proof. intros H. unfold u16. apply Z.mod_small. simpl. lia. Qed.

Lemma u32_small x : 0 <= x < 4294967296 -> u32 x = x.
Proof. intros H. unfold u32. apply Z.mod_small. simpl. lia. Qed.

Lemma s32_small x : - 2147483648 <= x < 2147483648 -> s32 x = x.
Proof.
  intros H. unfold s32.
  change (2 ^ 31) with 2147483648. change (2 ^ 32) with 4294967296.
  rewrite Z.mod_small; lia.
Qed.

(** Bit-level reasoning: reduce an equation between bit expressions to a
    boolean equation on the [i]-th bits. *)
Ltac bitwise i Hi :=
  apply Z.bits_inj'; intros i Hi;
  repeat first
    [ rewrite Z.lor_spec | rewrite Z.land_spec
    | rewrite Z.shiftl_spec by lia | rewrite Z.shiftr_spec by lia
    | rewrite Z.testbit_ones_nonneg by lia ].

(** ** The TLV reader *)

Module TlvFacts.
Import Tlv.

Lemma testbit_255 i : Z.testbit 255 i = (0 <=? i) && (i <? 8).
Proof.
  change 255 with (Z.ones 8).
  destruct (Z.leb_spec 0 i).
  - rewrite Z.testbit_ones_nonneg by lia. reflexivity.
  - rewrite Z.testbit_neg_r by lia. reflexivity.
Qed.

(** Accumulating byte number [off] of [v] extends the low [8 * off] bits
    of [v] to its low [8 * off + 8] bits. *)
Lemma value_accumulate v off :
  0 <= off <= 7 ->
  Z.lor (Z.land v (Z.ones (8 * off)))
        (Z.land (Z.shiftl (Z.land (Z.shiftr v (8 * off)) 255) (8 * off))
                (Z.ones 64))
  = Z.land v (Z.ones (8 * off + 8)).
Proof.
  intros Hoff. bitwise i Hi.
  rewrite testbit_255.
  destruct (Z.ltb_spec i (8 * off)).
  - rewrite (Z.testbit_neg_r _ (i - 8 * off)) by lia.
    destruct (Z.ltb_spec i (8 * off + 8)); try lia.
    destruct (Z.testbit v i); reflexivity.
  - rewrite Z.shiftr_spec by lia.
    replace (i - 8 * off + 8 * off) with i by lia.
    destruct (Z.leb_spec 0 (i - 8 * off)); try lia.
    destruct (Z.ltb_spec (i - 8 * off) 8), (Z.ltb_spec i (8 * off + 8)),
             (Z.ltb_spec i 64); try lia;
    destruct (Z.testbit v i); reflexivity.
Qed.

Lemma testbit_127 i : Z.testbit 127 i = (0 <=? i) && (i <? 7).
Proof.
  change 127 with (Z.ones 7).
  destruct (Z.leb_spec 0 i).
  - rewrite Z.testbit_ones_nonneg by lia. reflexivity.
  - rewrite Z.testbit_neg_r by lia. reflexivity.
Qed.

Lemma testbit_128 i : Z.testbit 128 i = (i =? 7).
Proof.
  change 128 with (2 ^ 7). rewrite Z.pow2_bits_eqb by lia.
  rewrite Z.eqb_sym. reflexivity.
Qed.

Lemma land_127_small t : 0 <= t < 128 -> Z.land t 127 = t.
Proof.
  intros H. change 127 with (Z.ones 7). rewrite Z.land_ones by lia.
  apply Z.mod_small. simpl. lia.
Qed.

Lemma land_127_range t : 0 <= Z.land t 127 < 128.
Proof.
  change 127 with (Z.ones 7). rewrite Z.land_ones by lia.
  change (2 ^ 7) with 128. apply Z.mod_pos_bound. lia.
Qed.

Lemma land_128_small t : 0 <= t < 128 -> Z.land t 128 = 0.
Proof.
  intros H. rewrite <- (land_127_small t H).
  bitwise i Hi. rewrite testbit_127, testbit_128, Z.bits_0.
  destruct (Z.eqb_spec i 7); [subst; cbn|];
    rewrite ?andb_false_r; reflexivity.
Qed.

Lemma cont_byte_flag t : Z.land (Z.lor 128 (Z.land t 127)) 128 = 128.
Proof.
  bitwise i Hi. rewrite testbit_127, testbit_128.
  destruct (Z.eqb_spec i 7); [subst; cbn|];
    rewrite ?andb_false_r; reflexivity.
Qed.

Lemma cont_byte_low t :
  Z.land (Z.lor 128 (Z.land t 127)) 127 = Z.land t 127.
Proof.
  bitwise i Hi. rewrite testbit_127, testbit_128.
  destruct (Z.eqb_spec i 7); [subst; cbn; rewrite ?andb_false_r|cbn];
    try reflexivity.
  rewrite <- andb_assoc, andb_diag. reflexivity.
Qed.

Lemma type_reassemble t :
  Z.lor (Z.land t 127) (Z.shiftl (Z.shiftr t 7) 7) = t.
Proof.
  bitwise i Hi. rewrite testbit_127.
  destruct (Z.leb_spec 0 i); [|lia].
  destruct (Z.ltb_spec i 7).
  - rewrite (Z.testbit_neg_r _ (i - 7)) by lia. cbn.
    rewrite andb_true_r, orb_false_r. reflexivity.
  - rewrite Z.shiftr_spec by lia. replace (i - 7 + 7) with i by lia.
    cbn. rewrite andb_false_r. reflexivity.
Qed.

Section ScanFacts.
Context {A : Type}.
Variable process : A -> ef100_tlv_state -> Z * A.

Lemma tlv_scan_app : forall a b reader s,
  tlv_scan process reader s (a ++ b)
  = match tlv_scan process reader s a with
    | (rc, reader', s') =>
        if rc =? 0 then tlv_scan process reader' s' b else (rc, reader', s')
    end.
Proof.
  induction a as [|x a IH]; intros b reader s; cbn [app tlv_scan].
  - reflexivity.
  - destruct (tlv_step process reader s x) as [[rc reader'] s'].
    destruct (Z.eqb_spec rc 0) as [->|Hrc].
    + apply IH.
    + destruct (Z.eqb_spec rc 0); [contradiction|reflexivity].
Qed.

Lemma scan_value_bytes k : forall off st s v rest,
  state st = EF100_TLV_VALUE ->
  value_offset st = off -> 0 <= off ->
  len st = off + Z.of_nat (S k) -> len st <= 8 ->
  value st = Z.land v (Z.ones (8 * off)) ->
  tlv_scan process st s (le_bytes (S k) (Z.shiftr v (8 * off)) ++ rest)
  = after_triple process
      (mk_tlv_state EF100_TLV_TYPE (Z.land v (Z.ones (8 * len st))) (len st)
         (type st) (len st)) s rest.
Proof.
  induction k as [|k IH]; intros off st s v rest Hst Hoff Hoff0 Hlen Hlen8 Hval;
    destruct st as [m val vo ty ln];
    cbn [state value value_offset type len] in Hst, Hoff, Hlen, Hlen8, Hval;
    subst m vo val.
  - (* last value byte *)
    cbn [le_bytes app tlv_scan]. unfold tlv_step, ef100_tlv_feed.
    cbn [state value value_offset type len].
    rewrite (u32_small (off + 1)) by lia.
    rewrite (u32_small (off * 8)) by lia.
    destruct (Z.leb_spec ln (off + 1)); [|lia].
    cbn [Z.eqb andb is_TYPE].
    unfold u64. rewrite <- Z.land_ones by lia.
    replace (off * 8) with (8 * off) by lia.
    change 0xff with 255.
    rewrite value_accumulate by lia.
    replace (8 * off + 8) with (8 * ln) by lia.
    replace (off + 1) with ln by lia.
    unfold after_triple. cbn [state value value_offset type len].
    destruct (process s _) as [rc s']. reflexivity.
  - (* an inner value byte *)
    remember (S k) as k1 eqn:Hk1.
    cbn [le_bytes app tlv_scan]. unfold tlv_step, ef100_tlv_feed.
    cbn [state value value_offset type len].
    rewrite (u32_small (off + 1)) by lia.
    rewrite (u32_small (off * 8)) by lia.
    destruct (Z.leb_spec ln (off + 1)); [lia|].
    cbn [Z.eqb andb is_TYPE].
    unfold u64. rewrite <- Z.land_ones by lia.
    replace (off * 8) with (8 * off) by lia.
    change 0xff with 255.
    rewrite value_accumulate by lia.
    rewrite Z.shiftr_shiftr by lia.
    replace (8 * off + 8) with (8 * (off + 1)) by lia.
    subst k1.
    rewrite (IH (off + 1)); cbn [state value value_offset type len];
      try reflexivity; lia.
Qed.

(** One whole triple: whatever the interpreter, the scan consumes the
    encoding of [x] and reaches the completion point with the reader
    holding the type and value of [x]. *)
Lemma scan_triple x st s rest :
  state st = EF100_TLV_TYPE -> triple_wf x ->
  tlv_scan process st s (encode_triple x ++ rest)
  = after_triple process (completed x) s rest.
Proof.
  intros Hst (Hty & Hnarrow & Hlen & Hval).
  destruct x as [t wide l v]; cbn [tlv_type tlv_wide tlv_len tlv_value] in *.
  destruct st as [m val vo ty ln]; cbn [state] in Hst; subst m.
  change (2 ^ 15) with 32768 in Hty.
  (* the type byte or bytes leave the reader in the LENGTH state *)
  assert (Htype :
    tlv_scan process (mk_tlv_state EF100_TLV_TYPE val vo ty ln) s
      ((encode_type t wide ++ l :: le_bytes (Z.to_nat l) v) ++ rest)
    = tlv_scan process (mk_tlv_state EF100_TLV_LENGTH 0 0 t ln) s
        ((l :: le_bytes (Z.to_nat l) v) ++ rest)).
  { destruct wide; unfold encode_type.
    - cbn [app tlv_scan]. unfold tlv_step at 1, ef100_tlv_feed at 1.
      cbn [state value value_offset type len].
      change 0x80 with 128. change 0x7f with 127.
      rewrite cont_byte_flag, cont_byte_low. cbn [Z.eqb andb is_TYPE].
      unfold tlv_step at 1, ef100_tlv_feed at 1.
      cbn [state value value_offset type len Z.eqb andb is_TYPE].
      rewrite (u16_small (Z.land t 127)) by (pose proof (land_127_range t); lia).
      rewrite type_reassemble, u16_small by lia. reflexivity.
    - specialize (Hnarrow eq_refl).
      cbn [app tlv_scan]. unfold tlv_step at 1, ef100_tlv_feed at 1.
      cbn [state value value_offset type len].
      change 0x80 with 128. change 0x7f with 127.
      rewrite land_128_small, land_127_small, u16_small by lia.
      reflexivity. }
  unfold encode_triple. cbn [tlv_type tlv_wide tlv_len tlv_value].
  rewrite Htype. clear Htype.
  cbn [app tlv_scan]. unfold tlv_step at 1, ef100_tlv_feed at 1.
  cbn [state value value_offset type len].
  rewrite (u8_small l) by lia.
  destruct (Z.ltb_spec 8 l); [lia|].
  destruct (Z.eqb_spec l 0) as [Hl0|Hl0].
  - (* zero length: complete at once, value 0 *)
    subst l. change (2 ^ (8 * 0)) with 1 in Hval.
    assert (v = 0) by lia. subst v.
    cbn [Z.eqb andb is_TYPE state Z.to_nat le_bytes app].
    unfold after_triple, completed.
    cbn [tlv_type tlv_wide tlv_len tlv_value].
    destruct (process s _) as [rc s']. reflexivity.
  - cbn [Z.eqb andb is_TYPE state].
    pose proof (scan_value_bytes (Z.to_nat (l - 1)) 0
                  (mk_tlv_state EF100_TLV_VALUE 0 0 t l) s v rest) as Hv.
    cbn [state value value_offset type len] in Hv.
    replace (S (Z.to_nat (l - 1))) with (Z.to_nat l) in Hv by lia.
    change (8 * 0) with 0 in Hv. rewrite Z.shiftr_0_r in Hv.
    rewrite Hv; try lia; try reflexivity;
      [|change (Z.ones 0) with 0; rewrite Z.land_0_r; reflexivity].
    unfold completed. cbn [tlv_type tlv_wide tlv_len tlv_value].
    rewrite Z.land_ones, Z.mod_small by lia. reflexivity.
Qed.

End ScanFacts.

(** A run of triples through the recording scan. *)
Lemma emitted_triples : forall xs st log,
  state st = EF100_TLV_TYPE -> Forall triple_wf xs ->
  exists st',
    tlv_scan record_triple st log (encode_triples xs)
      = (0, st', log ++ map triple_pair xs)
    /\ state st' = EF100_TLV_TYPE.
Proof.
  induction xs as [|x xs IH]; intros st log Hst Hwf.
  - exists st. cbn. rewrite app_nil_r. auto.
  - inversion Hwf as [|? ? Hx Hxs]; subst.
    unfold encode_triples. cbn [flat_map].
    rewrite scan_triple by assumption.
    unfold after_triple, record_triple at 1. cbn [Z.eqb].
    destruct (IH (completed x) (log ++ [(type (completed x),
                                          value (completed x))]))
      as (st' & Hrun & Hst'); [reflexivity|assumption|].
    exists st'. split; [|assumption].
    unfold encode_triples in Hrun. rewrite Hrun.
    rewrite <- app_assoc. reflexivity.
Qed.

(** C1: a byte sequence that encodes well-formed triples (declared length
    at most 8), fed one byte at a time to [ef100_tlv_feed] from the TYPE
    state, makes the reader emit exactly the encoded (type, value) pairs,
    in order; a zero-length triple is emitted with value 0.  The bytes
    05 02 34 12 emit the single pair (5, 0x1234); the bytes 85 01 00 emit
    the single pair (0x85, 0), and none of the three bytes is consumed in
    the VALUE state. *)
Theorem tlv_feed_emits_encoded_triples :
  (forall st xs,
      state st = EF100_TLV_TYPE -> Forall triple_wf xs ->
      exists st',
        tlv_emitted st (encode_triples xs) = (0, st', map triple_pair xs)
        /\ state st' = EF100_TLV_TYPE)
  /\ (forall st t wide,
        state st = EF100_TLV_TYPE ->
        0 <= t < 2 ^ 15 -> (wide = false -> t < 128) ->
        tlv_emitted st (encode_type t wide ++ [0])
        = (0, mk_tlv_state EF100_TLV_TYPE 0 0 t 0, [(t, 0)]))
  /\ tlv_emitted reader0 [0x05; 0x02; 0x34; 0x12]
     = (0, mk_tlv_state EF100_TLV_TYPE 0x1234 2 5 2, [(5, 0x1234)])
  /\ tlv_emitted reader0 [0x85; 0x01; 0x00]
     = (0, mk_tlv_state EF100_TLV_TYPE 0 0 0x85 0, [(0x85, 0)])
  /\ tlv_consumed_in reader0 [0x85; 0x01; 0x00]
     = [EF100_TLV_TYPE; EF100_TLV_TYPE_CONT; EF100_TLV_LENGTH].
Proof.
  split; [|split; [|repeat split; reflexivity]].
  - intros st xs Hst Hwf. unfold tlv_emitted.
    destruct (emitted_triples xs st [] Hst Hwf) as (st' & Hrun & Hst').
    exists st'. auto.
  - intros st t wide Hst Ht Hnarrow. unfold tlv_emitted.
    pose proof (scan_triple record_triple (mk_triple t wide 0 0) st [] []
                  Hst) as Hrun.
    unfold encode_triple in Hrun.
    cbn [tlv_type tlv_wide tlv_len tlv_value Z.to_nat le_bytes] in Hrun.
    rewrite app_nil_r in Hrun. rewrite Hrun.
    + reflexivity.
    + unfold triple_wf. cbn [tlv_type tlv_wide tlv_len tlv_value].
      change (2 ^ (8 * 0)) with 1. repeat split; try assumption; lia.
Qed.

Lemma tlv_feed_emits_encoded_triples_witness :
  exists st',
    tlv_emitted reader0
      (encode_triples [ mk_triple 5 false 2 0x1234;
                        mk_triple 0x85 true 0 0;
                        mk_triple 300 true 8 0x1122334455667788 ])
    = (0, st', [ (5, 0x1234); (0x85, 0); (300, 0x1122334455667788) ])
    /\ state st' = EF100_TLV_TYPE.
Proof.
  apply (proj1 tlv_feed_emits_encoded_triples reader0
           [ mk_triple 5 false 2 0x1234;
             mk_triple 0x85 true 0 0;
             mk_triple 300 true 8 0x1122334455667788 ]).
  - reflexivity.
  - repeat apply Forall_cons; try apply Forall_nil;
      unfold triple_wf; cbn; repeat split; try discriminate; lia.
Defined.

(** C6: in the LENGTH state a byte greater than 8 makes [ef100_tlv_feed]
    return -EOPNOTSUPP, whatever the rest of the reader holds (so whatever
    type bytes were consumed before, and in particular in every state
    reached from the initial one); the reader stays in the LENGTH state. *)
Theorem tlv_feed_length_over_8 st byte :
  state st = EF100_TLV_LENGTH -> 8 < byte < 256 ->
  fst (ef100_tlv_feed st byte) = - EOPNOTSUPP
  /\ state (snd (ef100_tlv_feed st byte)) = EF100_TLV_LENGTH.
Proof.
  intros Hst Hb. unfold ef100_tlv_feed. rewrite Hst.
  rewrite u8_small by lia.
  destruct (Z.ltb_spec 8 byte); [|lia].
  split; reflexivity.
Qed.

Lemma tlv_feed_length_over_8_witness :
  fst (ef100_tlv_feed (snd (ef100_tlv_feed
                              (snd (ef100_tlv_feed reader0 0x85)) 0x01)) 9)
    = - EOPNOTSUPP
  /\ state (snd (ef100_tlv_feed (snd (ef100_tlv_feed
                              (snd (ef100_tlv_feed reader0 0x85)) 0x01)) 9))
    = EF100_TLV_LENGTH.
Proof.
  apply (tlv_feed_length_over_8
           (snd (ef100_tlv_feed (snd (ef100_tlv_feed reader0 0x85)) 0x01))
           9).
  - reflexivity.
  - lia.
Defined.

(** *** The parameter interpreter *)

(** Turn [NoDup] of an explicit list into the pairwise disequalities of
    its elements. *)
Ltac split_notin H :=
  cbn [In] in H;
  repeat (apply Decidable.not_or in H;
          let H1 := fresh "Hneq" in destruct H as [H1 H]);
  clear H.

Ltac nodup_neqs H :=
  repeat match type of H with
         | NoDup (_ :: _) =>
             let Hin := fresh "Hin" in
             let Hnd := fresh "Hnd" in
             inversion H as [|? ? Hin Hnd]; subst; clear H; rename Hnd into H;
             split_notin Hin
         end;
  clear H.

(** Walk the comparison chain of the interpreter. *)
Ltac walk_chain :=
  repeat (match goal with
          | |- context [Z.eqb ?a ?b] => destruct (Z.eqb_spec a b)
          | |- context [Z.ltb ?a ?b] => destruct (Z.ltb_spec a b)
          end; cbn [orb andb negb fst snd]).

Section Interpreter.
Context `{regs : ef100_regs}.

Lemma granularity_test v :
  0 < EFX_MIN_DMAQ_SIZE < 2 ^ 32 -> 0 <= v ->
  ((v =? 0) || (EFX_MIN_DMAQ_SIZE <? v)
   || negb (EFX_MIN_DMAQ_SIZE mod (u32 v) =? 0) = true
   <-> granularity_unsafe v).
Proof.
  intros HM Hv. unfold granularity_unsafe.
  destruct (Z.eqb_spec v 0) as [->|Hv0]; [cbn; tauto|].
  destruct (Z.ltb_spec EFX_MIN_DMAQ_SIZE v); [cbn; tauto|].
  cbn [orb]. rewrite u32_small by (change (2 ^ 32) with 4294967296 in HM; lia).
  destruct (Z.eqb_spec (EFX_MIN_DMAQ_SIZE mod v) 0) as [Hm|Hm]; cbn [negb].
  - apply Z.mod_divide in Hm; [|assumption].
    split; [discriminate|]. intros [?|[?|Hnd]]; try lia. contradiction.
  - split; [|reflexivity]. intros _. right. right. intros Hd.
    apply Hm. apply Z.mod_divide; assumption.
Qed.

Lemma process_rc_cases nic reader :
  fst (ef100_process_design_param nic reader) = 0
  \/ fst (ef100_process_design_param nic reader) = - EOPNOTSUPP.
Proof.
  unfold ef100_process_design_param.
  repeat match goal with
         | |- context [if ?c then _ else _] => destruct c
         end; cbn [fst]; auto.
Qed.

(** C7: [ef100_process_design_param] returns -EOPNOTSUPP exactly for a
    hard incompatibility: a COMPAT triple with a non-zero value, a
    TSO_MAX_HDR_NUM_SEGS triple with value 0, or an RXQ/TXQ size
    granularity that is zero, exceeds the minimum queue size or does not
    divide it.  Every other triple returns 0, and a triple of a type
    outside the recognised set returns 0 and changes nothing. *)
Theorem process_design_param_unsupported_iff nic reader :
  regs_ok -> 0 <= value reader < 2 ^ 64 ->
  (fst (ef100_process_design_param nic reader) = - EOPNOTSUPP
   <-> hard_incompatibility (type reader) (value reader))
  /\ (fst (ef100_process_design_param nic reader) = 0
      \/ fst (ef100_process_design_param nic reader) = - EOPNOTSUPP)
  /\ (~ In (type reader) dp_case_labels ->
      ef100_process_design_param nic reader = (0, nic)).
Proof.
  intros [Hnd HM] Hv. split; [|split].
  - unfold dp_case_labels in Hnd. nodup_neqs Hnd.
    pose proof (granularity_test (value reader) HM (proj1 Hv)) as Hg.
    unfold ef100_process_design_param, hard_incompatibility.
    destruct ((value reader =? 0) || (EFX_MIN_DMAQ_SIZE <? value reader)
              || negb (EFX_MIN_DMAQ_SIZE mod u32 (value reader) =? 0)).
    + assert (Hu : granularity_unsafe (value reader)) by (apply Hg; reflexivity).
      clear Hg.
      repeat (match goal with
              | |- context [Z.eqb (type reader) ?b] =>
                  destruct (Z.eqb_spec (type reader) b)
              end; cbn [orb fst]);
      try (destruct (Z.eqb_spec (value reader) 0));
      cbn [fst]; (split; [intros Hrc; try discriminate Hrc; tauto|]);
      intros [[Ht Hv0]|[[Ht Hv0]|[[Ht|Ht] Hgu]]];
      try reflexivity; try congruence.
    + assert (Hu : ~ granularity_unsafe (value reader))
        by (intros Hu; apply Hg in Hu; discriminate Hu).
      clear Hg.
      repeat (match goal with
              | |- context [Z.eqb (type reader) ?b] =>
                  destruct (Z.eqb_spec (type reader) b)
              end; cbn [orb fst]);
      try (destruct (Z.eqb_spec (value reader) 0));
      cbn [fst]; (split; [intros Hrc; try discriminate Hrc; tauto|]);
      intros [[Ht Hv0]|[[Ht Hv0]|[[Ht|Ht] Hgu]]];
      try reflexivity; try congruence.
  - apply process_rc_cases.
  - intros Hout. unfold dp_case_labels in Hout. cbn [In] in Hout.
    unfold ef100_process_design_param.
    repeat (match goal with
            | |- context [Z.eqb (type reader) ?b] =>
                destruct (Z.eqb_spec (type reader) b)
            end; cbn [orb fst]);
    try reflexivity; exfalso; apply Hout; auto 20.
Qed.

(** *** The register-window scan *)

Lemma u8_land x : u8 x = Z.land x 0xff.
Proof.
  unfold u8. change 0xff with (Z.ones 8). rewrite Z.land_ones by lia.
  reflexivity.
Qed.

(** The inner loop is the byte scan over the bytes of the dword; it ends
    with return code 0 exactly when it has consumed all of them. *)
Lemma dword_loop_scan : forall n data off reader nic,
  0 <= off -> off + Z.of_nat n < 2 ^ 32 ->
  tlv_scan ef100_process_design_param reader nic (le_bytes n data)
  = (scan_rc (dword_loop n data off reader nic),
     scan_reader (dword_loop n data off reader nic),
     scan_nic (dword_loop n data off reader nic))
  /\ (scan_rc (dword_loop n data off reader nic) = 0 ->
      scan_offset (dword_loop n data off reader nic) = off + Z.of_nat n)
  /\ (scan_rc (dword_loop n data off reader nic) <> 0 ->
      scan_offset (dword_loop n data off reader nic) < off + Z.of_nat n).
Proof.
  induction n as [|n IH]; intros data off reader nic Hoff Hlim.
  - cbn. split; [reflexivity|split; [intros _; lia|intros Hne; lia]].
  - cbn [le_bytes tlv_scan dword_loop]. rewrite u8_land.
    destruct (tlv_step ef100_process_design_param reader nic
                (Z.land data 0xff)) as [[rc rd] nic'].
    destruct (Z.eqb_spec rc 0) as [->|Hrc].
    + change (2 ^ 32) with 4294967296 in Hlim.
      rewrite u32_small by lia.
      destruct (IH (Z.shiftr data 8) (off + 1) rd nic')
        as (Hscan & Hend & Hcut);
        [lia|change (2 ^ 32) with 4294967296; lia|].
      split; [exact Hscan|split].
      * intros H0. rewrite Hend by exact H0. lia.
      * intros Hne. specialize (Hcut Hne). lia.
    + cbn [scan_rc scan_reader scan_nic scan_offset].
      split; [reflexivity|split; [contradiction|intros _; lia]].
Qed.

(** The outer loop over [n] dwords is the byte scan over the bytes the
    window presents, and [n + 1] units of fuel are enough for it.  It ends
    with return code 0 exactly when every declared byte was consumed. *)
Lemma params_loop_scan : forall n params_tlv total_len off reader nic,
  0 <= off -> total_len = off + 4 * Z.of_nat n -> total_len < 2 ^ 32 ->
  exists r,
    (forall fuel, (n < fuel)%nat ->
       params_loop fuel params_tlv total_len 0 off reader nic = Some r)
    /\ tlv_scan ef100_process_design_param reader nic
         (window_bytes params_tlv off n)
       = (scan_rc r, scan_reader r, scan_nic r)
    /\ (scan_rc r = 0 -> scan_offset r = total_len)
    /\ (scan_rc r <> 0 -> scan_offset r < total_len).
Proof.
  induction n as [|n IH]; intros params_tlv total_len off reader nic
                                 Hoff Htot Hlim.
  - exists (mk_scan_result 0 off reader nic). split; [|split; [|split]].
    + intros [|fuel] Hf; [lia|]. cbn [params_loop].
      destruct (Z.ltb_spec off total_len); [lia|reflexivity].
    + reflexivity.
    + intros _. cbn. lia.
    + cbn. intros Hne. lia.
  - pose (d := dword_loop 4 (u32 (params_tlv off)) off reader nic).
    destruct (dword_loop_scan 4 (u32 (params_tlv off)) off reader nic)
      as (Hscan & Hend & Hcut); [lia|lia|]. fold d in Hscan, Hend, Hcut.
    destruct (Z.eqb_spec (scan_rc d) 0) as [Hrc|Hrc].
    + destruct (IH params_tlv total_len (off + 4) (scan_reader d)
                  (scan_nic d)) as (r & Hfuel & Hrun & Hoffs & Hcuts);
        try lia.
      exists r. split; [|split; [|split]].
      * intros [|fuel] Hf; [lia|]. cbn [params_loop]. fold d.
        destruct (Z.ltb_spec off total_len); [|lia].
        destruct (Z.eqb_spec (scan_rc d) 0); [|contradiction].
        rewrite Hrc, (Hend Hrc). apply Hfuel. lia.
      * cbn [window_bytes]. rewrite tlv_scan_app, Hscan, Hrc.
        cbn [Z.eqb]. exact Hrun.
      * exact Hoffs.
      * exact Hcuts.
    + exists d. split; [|split; [|split]].
      * intros [|fuel] Hf; [lia|]. cbn [params_loop]. fold d.
        destruct (Z.ltb_spec off total_len); [|lia].
        destruct (Z.eqb_spec (scan_rc d) 0); [contradiction|reflexivity].
      * cbn [window_bytes]. rewrite tlv_scan_app, Hscan.
        destruct (Z.eqb_spec (scan_rc d) 0); [contradiction|reflexivity].
      * contradiction.
      * intros _. specialize (Hcut Hrc). lia.
Qed.

(** The verdict of the interpreter depends only on the type and value of
    the reader, and not on the parameters collected so far. *)
Lemma process_reader_of_pair nic reader :
  ef100_process_design_param nic reader
  = ef100_process_design_param nic (reader_of_pair (type reader, value reader)).
Proof. reflexivity. Qed.

Lemma process_rc_any_nic nic nic' reader :
  fst (ef100_process_design_param nic reader)
  = fst (ef100_process_design_param nic' reader).
Proof.
  unfold ef100_process_design_param.
  repeat match goal with
         | |- context [if ?c then _ else _] => destruct c
         end; reflexivity.
Qed.

(** The log of the recording scan is an accumulator. *)
Lemma tlv_scan_record_log : forall bytes reader log,
  tlv_scan record_triple reader log bytes
  = match tlv_scan record_triple reader [] bytes with
    | (rc, rd, pairs) => (rc, rd, log ++ pairs)
    end.
Proof.
  induction bytes as [|b bytes IH]; intros reader log; cbn [tlv_scan].
  - rewrite app_nil_r. reflexivity.
  - unfold tlv_step.
    destruct (ef100_tlv_feed reader b) as [rc rd].
    destruct ((rc =? 0) && is_TYPE (state rd)).
    + unfold record_triple. cbn [Z.eqb app].
      rewrite (IH rd (log ++ _)), (IH rd [_]).
      destruct (tlv_scan record_triple rd [] bytes) as [[rc' rd'] ps].
      rewrite <- app_assoc. reflexivity.
    + destruct (rc =? 0).
      * apply IH.
      * rewrite app_nil_r. reflexivity.
Qed.

(** If the decoder alone gets through a byte sequence and every pair it
    emits is acceptable, the scan with the interpreter gets through as
    well, ends with the same reader, and has applied exactly the emitted
    pairs. *)
Lemma scan_accepted : forall bytes reader nic rd pairs,
  tlv_scan record_triple reader [] bytes = (0, rd, pairs) ->
  Forall accepted pairs ->
  tlv_scan ef100_process_design_param reader nic bytes
  = (0, rd, fold_left apply_param pairs nic).
Proof.
  induction bytes as [|b bytes IH]; intros reader nic rd pairs Hrec Hacc;
    cbn [tlv_scan] in *.
  - inversion Hrec; subst. reflexivity.
  - unfold tlv_step in *.
    destruct (ef100_tlv_feed reader b) as [rc rd1].
    destruct ((rc =? 0) && is_TYPE (state rd1)) eqn:Hdone.
    + unfold record_triple in Hrec. cbn [Z.eqb app] in Hrec.
      rewrite tlv_scan_record_log in Hrec.
      destruct (tlv_scan record_triple rd1 [] bytes) as [[rc' rd'] ps] eqn:Hrun.
      inversion Hrec; subst rc' rd' pairs. clear Hrec.
      cbn [app] in Hacc. inversion Hacc as [|? ? Hp Hps]; subst.
      unfold accepted in Hp.
      rewrite <- process_reader_of_pair in Hp.
      rewrite (process_rc_any_nic _ nic) in Hp.
      destruct (ef100_process_design_param nic rd1) as [rc1 nic1] eqn:Hproc.
      cbn [fst] in Hp. subst rc1. cbn [Z.eqb].
      rewrite (IH rd1 nic1 rd ps Hrun Hps).
      cbn [fold_left]. unfold apply_param.
      rewrite <- process_reader_of_pair, Hproc. reflexivity.
    + destruct (Z.eqb_spec rc 0) as [->|Hrc].
      * cbn [Z.eqb]. apply IH; assumption.
      * destruct (Z.eqb_spec rc 0); [contradiction|].
        inversion Hrec; subst. contradiction.
Qed.

(** If the decoder alone gets through a byte sequence but one of the pairs
    it emits is not acceptable, the scan with the interpreter stops with
    -EOPNOTSUPP. *)
Lemma scan_rejected : forall bytes reader nic rd pairs,
  tlv_scan record_triple reader [] bytes = (0, rd, pairs) ->
  ~ Forall accepted pairs ->
  fst (fst (tlv_scan ef100_process_design_param reader nic bytes))
  = - EOPNOTSUPP.
Proof.
  induction bytes as [|b bytes IH]; intros reader nic rd pairs Hrec Hrej;
    cbn [tlv_scan] in *.
  - inversion Hrec; subst. exfalso. apply Hrej. constructor.
  - unfold tlv_step in *.
    destruct (ef100_tlv_feed reader b) as [rc rd1].
    destruct ((rc =? 0) && is_TYPE (state rd1)) eqn:Hdone.
    + unfold record_triple in Hrec. cbn [Z.eqb app] in Hrec.
      rewrite tlv_scan_record_log in Hrec.
      destruct (tlv_scan record_triple rd1 [] bytes) as [[rc' rd'] ps] eqn:Hrun.
      inversion Hrec; subst rc' rd' pairs. clear Hrec.
      cbn [app] in Hrej.
      pose proof (process_rc_cases nic rd1) as Hcases.
      destruct (ef100_process_design_param nic rd1) as [rc1 nic1] eqn:Hproc.
      cbn [fst] in Hcases.
      destruct (Z.eqb_spec rc1 0) as [->|Hne].
      * apply (IH rd1 nic1 rd ps Hrun). intros Hps. apply Hrej.
        constructor; [|exact Hps].
        unfold accepted. rewrite <- process_reader_of_pair.
        rewrite (process_rc_any_nic _ nic), Hproc. reflexivity.
      * cbn [fst]. destruct Hcases as [H0|H95]; [contradiction|exact H95].
    + destruct (Z.eqb_spec rc 0) as [->|Hrc].
      * cbn [Z.eqb]. apply (IH rd1 nic rd pairs); assumption.
      * destruct (Z.eqb_spec rc 0); [contradiction|].
        inversion Hrec; subst. contradiction.
Qed.

(** C10, as the code has it: take a register window whose declared length
    is a multiple of 4 and whose declared bytes the decoder alone gets
    through, ending in the middle of a triple (not in the TYPE state).
    [ef100_check_design_params] returns (one unit of fuel per dword, plus
    one, is enough).  If every triple completed before the truncation is
    acceptable to the interpreter, it returns 0 with every declared byte
    fed, the reader left in the middle of the triple, and the parameters
    of the completed triples alone applied: the truncation is not
    reported and the incomplete trailing triple is dropped.  If one of
    the completed triples is not acceptable, it returns -EOPNOTSUPP and
    stops before the last declared byte: the truncated stream is not
    accepted. *)
Theorem check_design_params_accepts_truncated nic params_tlv total_len
    rd pairs :
  0 <= total_len < 2 ^ 32 -> total_len mod 4 = 0 ->
  tlv_emitted reader0 (window_bytes params_tlv 0 (Z.to_nat (total_len / 4)))
  = (0, rd, pairs) ->
  state rd <> EF100_TLV_TYPE ->
  exists r,
    (forall fuel, (Z.to_nat (total_len / 4) < fuel)%nat ->
       ef100_check_design_params fuel params_tlv total_len nic = Some r)
    /\ (Forall accepted pairs ->
        scan_rc r = 0
        /\ scan_offset r = total_len
        /\ scan_reader r = rd
        /\ state (scan_reader r) <> EF100_TLV_TYPE
        /\ scan_nic r = fold_left apply_param pairs nic)
    /\ (~ Forall accepted pairs ->
        scan_rc r = - EOPNOTSUPP /\ scan_offset r < total_len).
Proof.
  intros Hlen Hmod Hdec Hmid.
  change (2 ^ 32) with 4294967296 in Hlen.
  assert (Htot : total_len = 0 + 4 * Z.of_nat (Z.to_nat (total_len / 4))).
  { rewrite Z2Nat.id by (apply Z.div_pos; lia).
    pose proof (Z.div_mod total_len 4). lia. }
  destruct (params_loop_scan (Z.to_nat (total_len / 4)) params_tlv total_len
              0 reader0 nic) as (r & Hfuel & Hrun & Hoff & Hcut);
    [lia|exact Htot|change (2 ^ 32) with 4294967296; lia|].
  unfold tlv_emitted in Hdec.
  exists r. split; [|split].
  - intros fuel Hf. unfold ef100_check_design_params.
    rewrite u32_small by lia. apply Hfuel. exact Hf.
  - intros Hacc.
    rewrite (scan_accepted _ _ nic _ _ Hdec Hacc) in Hrun.
    injection Hrun as Hrc Hrd Hnic.
    split; [congruence|split; [apply Hoff; congruence|]].
    split; [congruence|split; [|congruence]].
    intros E. apply Hmid. congruence.
  - intros Hrej.
    pose proof (scan_rejected _ _ nic _ _ Hdec Hrej) as Hrc.
    rewrite Hrun in Hrc. cbn [fst] in Hrc.
    split; [exact Hrc|]. apply Hcut. rewrite Hrc. discriminate.
Qed.

End Interpreter.

Lemma example_regs_ok : @regs_ok example_regs.
Proof.
  split.
  - unfold dp_case_labels. cbn.
    repeat (constructor; [cbn; intuition discriminate|]). constructor.
  - cbn. lia.
Qed.

Lemma process_design_param_unsupported_iff_witness :
  (fst (@ef100_process_design_param example_regs design_params0
          (mk_tlv_state EF100_TLV_TYPE 1 1 12 1)) = - EOPNOTSUPP
   <-> @hard_incompatibility example_regs 12 1)
  /\ (fst (@ef100_process_design_param example_regs design_params0
             (mk_tlv_state EF100_TLV_TYPE 1 1 12 1)) = 0
      \/ fst (@ef100_process_design_param example_regs design_params0
                (mk_tlv_state EF100_TLV_TYPE 1 1 12 1)) = - EOPNOTSUPP)
  /\ (~ In 12 (@dp_case_labels example_regs) ->
      @ef100_process_design_param example_regs design_params0
        (mk_tlv_state EF100_TLV_TYPE 1 1 12 1) = (0, design_params0)).
Proof.
  apply (@process_design_param_unsupported_iff example_regs design_params0
           (mk_tlv_state EF100_TLV_TYPE 1 1 12 1)).
  - exact example_regs_ok.
  - cbn. lia.
Defined.

Lemma check_design_params_accepts_truncated_witness :
  exists r,
    (forall fuel, (Z.to_nat (8 / 4) < fuel)%nat ->
       @ef100_check_design_params example_regs fuel
         (window_of_bytes [0x05; 0x02; 0x34; 0x12; 0x09; 0x04; 0xaa; 0xbb])
         8 design_params0 = Some r)
    /\ (Forall (@accepted example_regs) [(5, 0x1234)] ->
        scan_rc r = 0
        /\ scan_offset r = 8
        /\ scan_reader r = mk_tlv_state EF100_TLV_VALUE 0xbbaa 2 9 4
        /\ state (scan_reader r) <> EF100_TLV_TYPE
        /\ scan_nic r
           = fold_left (@apply_param example_regs) [(5, 0x1234)]
               design_params0)
    /\ (~ Forall (@accepted example_regs) [(5, 0x1234)] ->
        scan_rc r = - EOPNOTSUPP /\ scan_offset r < 8).
Proof.
  apply (@check_design_params_accepts_truncated example_regs design_params0
           (window_of_bytes [0x05; 0x02; 0x34; 0x12; 0x09; 0x04; 0xaa; 0xbb])
           8 (mk_tlv_state EF100_TLV_VALUE 0xbbaa 2 9 4) [(5, 0x1234)]).
  - cbn. lia.
  - reflexivity.
  - vm_compute. reflexivity.
  - cbn. discriminate.
Defined.

(** The stream of the example above ends inside its second triple; the
    scan returns 0 and only the first triple has been applied. *)
Example truncated_stream_run :
  @ef100_check_design_params example_regs 3
    (window_of_bytes [0x05; 0x02; 0x34; 0x12; 0x09; 0x04; 0xaa; 0xbb])
    8 design_params0
  = Some (mk_scan_result 0 8 (mk_tlv_state EF100_TLV_VALUE 0xbbaa 2 9 4)
            (mk_design_params 0x1234 0 0 0 0 0)).
Proof. vm_compute. reflexivity. Qed.

(** The four declared bytes 12 1 1 5 hold a complete COMPAT triple with
    value 1 followed by the first byte of another triple.  The decoder
    alone gets through them and is left in the LENGTH state, yet the scan
    stops at the COMPAT triple with -EOPNOTSUPP: a stream that ends
    inside a triple is not accepted whatever it holds. *)
Lemma check_design_params_truncated_counterexample :
  ~ @truncation_always_accepted example_regs
      (window_of_bytes [12; 1; 1; 5]) 4 design_params0.
Proof.
  unfold truncation_always_accepted. intros Hclaim.
  destruct Hclaim as (fuel & r & Hrun & Hrc).
  - reflexivity.
  - exists (mk_tlv_state EF100_TLV_LENGTH 0 0 5 1), [(12, 1)].
    split; [vm_compute; reflexivity|cbn; discriminate].
  - destruct fuel as [|fuel]; [discriminate Hrun|].
    vm_compute in Hrun. injection Hrun as <-.
    cbn in Hrc. discriminate Hrc.
Qed.

End TlvFacts.

(** ** MCDI reboot detection *)

Module McdiFacts.
Import Mcdi.

(** A status dword with the magic pattern in its upper half is not the
    all-ones pattern of an unavailable device. *)
Lemma magic_not_all_ones reg :
  0 <= reg < 2 ^ 32 -> EFX_WORD_1 reg = 0xb007 -> u32 reg <> 0xffffffff.
Proof.
  intros Hreg Hmagic Hones.
  change (2 ^ 32) with 4294967296 in Hreg.
  rewrite u32_small in Hones by lia. subst reg.
  vm_compute in Hmagic. discriminate Hmagic.
Qed.

Lemma word_0_range reg : 0 <= EFX_WORD_0 reg < 65536.
Proof.
  unfold EFX_WORD_0. change 0xffff with (Z.ones 16).
  rewrite Z.land_ones by lia. change (2 ^ 16) with 65536.
  apply Z.mod_pos_bound. lia.
Qed.

Lemma get_warm_boot_count_valid efx reg :
  0 <= reg < 2 ^ 32 -> EFX_WORD_1 reg = 0xb007 ->
  ef100_get_warm_boot_count efx reg = (EFX_WORD_0 reg, efx).
Proof.
  intros Hreg Hmagic. unfold ef100_get_warm_boot_count.
  destruct (Z.eqb_spec (u32 reg) 0xffffffff) as [Hones|_].
  - exfalso. exact (magic_not_all_ones reg Hreg Hmagic Hones).
  - rewrite Hmagic. reflexivity.
Qed.

(** C4: with a valid magic pattern, [ef100_mcdi_poll_reboot] returns 0
    (no change) and changes nothing when the boot counter read equals the
    stored [warm_boot_count]; when the counter differs it returns -EIO
    (rebooted) and stores the counter read, so that the next call that
    reads the same counter returns 0 again: each change of the counter is
    reported once. *)
Theorem poll_reboot_reports_change_once efx reg :
  0 <= reg < 2 ^ 32 -> EFX_WORD_1 reg = 0xb007 ->
  (EFX_WORD_0 reg = warm_boot_count efx ->
   ef100_mcdi_poll_reboot efx reg = (NoChange, efx))
  /\ (EFX_WORD_0 reg <> warm_boot_count efx ->
      fst (ef100_mcdi_poll_reboot efx reg) = Rebooted
      /\ warm_boot_count (snd (ef100_mcdi_poll_reboot efx reg))
         = EFX_WORD_0 reg
      /\ state (snd (ef100_mcdi_poll_reboot efx reg)) = state efx
      /\ forall reg',
           0 <= reg' < 2 ^ 32 -> EFX_WORD_1 reg' = 0xb007 ->
           EFX_WORD_0 reg' = EFX_WORD_0 reg ->
           ef100_mcdi_poll_reboot (snd (ef100_mcdi_poll_reboot efx reg)) reg'
           = (NoChange, snd (ef100_mcdi_poll_reboot efx reg))).
Proof.
  intros Hreg Hmagic.
  assert (Hpoll : forall e r, 0 <= r < 2 ^ 32 -> EFX_WORD_1 r = 0xb007 ->
            ef100_mcdi_poll_reboot e r
            = if EFX_WORD_0 r =? warm_boot_count e then (0, e)
              else (- EIO, {| state := state e;
                              warm_boot_count := EFX_WORD_0 r |})).
  { intros e r Hr Hm. unfold ef100_mcdi_poll_reboot.
    rewrite (get_warm_boot_count_valid e r Hr Hm).
    pose proof (word_0_range r).
    destruct (Z.ltb_spec (EFX_WORD_0 r) 0); [lia|reflexivity]. }
  split.
  - intros Hsame. rewrite Hpoll by assumption.
    rewrite Hsame, Z.eqb_refl. reflexivity.
  - intros Hdiff. rewrite Hpoll by assumption.
    destruct (Z.eqb_spec (EFX_WORD_0 reg) (warm_boot_count efx));
      [contradiction|].
    cbn [fst snd state warm_boot_count]. repeat split.
    intros reg' Hreg' Hmagic' Hsame.
    rewrite Hpoll by assumption. cbn [warm_boot_count].
    rewrite Hsame, Z.eqb_refl. reflexivity.
Qed.

Lemma poll_reboot_reports_change_once_witness :
  (EFX_WORD_0 0xb0070008 = warm_boot_count (mk_efx_nic STATE_NET_UP 7) ->
   ef100_mcdi_poll_reboot (mk_efx_nic STATE_NET_UP 7) 0xb0070008
   = (NoChange, mk_efx_nic STATE_NET_UP 7))
  /\ (EFX_WORD_0 0xb0070008 <> warm_boot_count (mk_efx_nic STATE_NET_UP 7) ->
      fst (ef100_mcdi_poll_reboot (mk_efx_nic STATE_NET_UP 7) 0xb0070008)
      = Rebooted
      /\ warm_boot_count
           (snd (ef100_mcdi_poll_reboot (mk_efx_nic STATE_NET_UP 7)
                   0xb0070008))
         = EFX_WORD_0 0xb0070008
      /\ state (snd (ef100_mcdi_poll_reboot (mk_efx_nic STATE_NET_UP 7)
                       0xb0070008))
         = state (mk_efx_nic STATE_NET_UP 7)
      /\ forall reg',
           0 <= reg' < 2 ^ 32 -> EFX_WORD_1 reg' = 0xb007 ->
           EFX_WORD_0 reg' = EFX_WORD_0 0xb0070008 ->
           ef100_mcdi_poll_reboot
             (snd (ef100_mcdi_poll_reboot (mk_efx_nic STATE_NET_UP 7)
                     0xb0070008)) reg'
           = (NoChange,
              snd (ef100_mcdi_poll_reboot (mk_efx_nic STATE_NET_UP 7)
                     0xb0070008))).
Proof.
  apply (poll_reboot_reports_change_once (mk_efx_nic STATE_NET_UP 7)
           0xb0070008).
  - cbn. lia.
  - reflexivity.
Defined.

(** C5, as the code has it: when the status dword is not all-ones and its
    upper half is not the magic pattern, [ef100_get_warm_boot_count]
    returns -EIO, and [ef100_mcdi_poll_reboot] treats that like every
    negative result: it returns 0 (no change) and leaves the stored
    counter and the device state as they were. *)
Theorem poll_reboot_bad_magic_no_change efx reg :
  u32 reg <> 0xffffffff -> EFX_WORD_1 reg <> 0xb007 ->
  ef100_get_warm_boot_count efx reg = (- EIO, efx)
  /\ ef100_mcdi_poll_reboot efx reg = (NoChange, efx).
Proof.
  intros Hones Hmagic.
  assert (Hget : ef100_get_warm_boot_count efx reg = (- EIO, efx)).
  { unfold ef100_get_warm_boot_count.
    destruct (Z.eqb_spec (u32 reg) 0xffffffff); [contradiction|].
    destruct (Z.eqb_spec (EFX_WORD_1 reg) 0xb007); [contradiction|].
    reflexivity. }
  split; [exact Hget|].
  unfold ef100_mcdi_poll_reboot. rewrite Hget. reflexivity.
Qed.

Lemma poll_reboot_bad_magic_no_change_witness :
  ef100_get_warm_boot_count (mk_efx_nic STATE_NET_UP 7) 0x12340008
  = (- EIO, mk_efx_nic STATE_NET_UP 7)
  /\ ef100_mcdi_poll_reboot (mk_efx_nic STATE_NET_UP 7) 0x12340008
     = (NoChange, mk_efx_nic STATE_NET_UP 7).
Proof.
  apply (poll_reboot_bad_magic_no_change (mk_efx_nic STATE_NET_UP 7)
           0x12340008).
  - vm_compute. discriminate.
  - vm_compute. discriminate.
Defined.

(** The status dword 0x12340008 is not all-ones and has no magic pattern,
    yet the reboot detector answers "no change". *)
Lemma poll_reboot_bad_magic_counterexample :
  ~ bad_magic_is_reported (mk_efx_nic STATE_NET_UP 7) 0x12340008.
Proof.
  unfold bad_magic_is_reported. intros Hclaim.
  destruct Hclaim as [Hnc _].
  - vm_compute. discriminate.
  - vm_compute. discriminate.
  - apply Hnc. reflexivity.
Qed.

End McdiFacts.

(** ** The event queue *)

Module EvqFacts.
Import Evq.

Lemma land_mask_mod x k : 0 <= k -> Z.land x (2 ^ k - 1) = x mod 2 ^ k.
Proof.
  intros Hk. replace (2 ^ k - 1) with (Z.ones k)
    by (rewrite Z.ones_equiv; lia).
  apply Z.land_ones. exact Hk.
Qed.

Lemma u32_mod_pow x k : 0 <= k <= 32 -> u32 x mod 2 ^ k = x mod 2 ^ k.
Proof.
  intros Hk. unfold u32. apply Z.mod_mod_divide.
  exists (2 ^ (32 - k)). rewrite <- Z.pow_add_r by lia.
  f_equal. lia.
Qed.

Lemma u32_succ x : u32 (u32 x + 1) = u32 (x + 1).
Proof. unfold u32. apply Z.add_mod_idemp_l. discriminate. Qed.

Lemma div_succ a n :
  0 < n ->
  (a + 1) / n = a / n + (if (a + 1) mod n =? 0 then 1 else 0).
Proof.
  intros Hn.
  pose proof (Z.div_mod a n ltac:(lia)) as Ha.
  pose proof (Z.div_mod (a + 1) n ltac:(lia)) as Ha1.
  pose proof (Z.mod_pos_bound a n Hn) as Hra.
  pose proof (Z.mod_pos_bound (a + 1) n Hn) as Hra1.
  destruct (Z.eqb_spec ((a + 1) mod n) 0); nia.
Qed.

Lemma sum_units_app t d :
  sum_units (t ++ [d]) = sum_units t + units d.
Proof.
  unfold sum_units. induction t as [|x t IH]; cbn [app fold_right].
  - lia.
  - rewrite IH. lia.
Qed.

Lemma wraps_app mask t t' :
  wraps mask (t ++ t') = (wraps mask t + wraps mask t')%nat.
Proof. unfold wraps. rewrite filter_app, length_app. reflexivity. Qed.

Lemma wraps_one mask d :
  wraps mask [d]
  = if Z.land (u32 (at_ptr d + 1)) mask =? 0 then 1%nat else 0%nat.
Proof.
  unfold wraps. cbn [filter].
  destruct (Z.land (u32 (at_ptr d + 1)) mask =? 0); reflexivity.
Qed.

Lemma test_bit_change_bit nr bitmap :
  0 <= nr -> test_bit nr (change_bit nr bitmap) = negb (test_bit nr bitmap).
Proof.
  intros Hnr. unfold test_bit, change_bit.
  rewrite Z.lxor_spec, Z.shiftl_spec by exact Hnr.
  rewrite Z.sub_diag. cbn. apply xorb_true_r.
Qed.

Section PhaseFacts.
Context {World : Type} `{E : evq_externals World}.
Variables (polled : bool) (c : efx_channel) (quota k : Z).
Variables (ph0 : bool) (rp0 : Z).
Hypothesis Hk : 0 <= k <= 32.
Hypothesis Hmask : eventq_mask c = 2 ^ k - 1.
Hypothesis Hrp0 : 0 <= rp0 < 2 ^ 32.

Lemma ring_size_pos : 0 < 2 ^ k.
Proof. apply Z.pow_pos_nonneg; lia. Qed.

Lemma masked_ptr j :
  Z.land (u32 (rp0 + j)) (eventq_mask c)
  = (Z.land rp0 (eventq_mask c) + j) mod 2 ^ k.
Proof.
  rewrite Hmask, !land_mask_mod by lia.
  rewrite u32_mod_pow by lia.
  rewrite Z.add_mod_idemp_l by (pose proof ring_size_pos; lia).
  reflexivity.
Qed.

Lemma masked_start_range : 0 <= Z.land rp0 (eventq_mask c) < 2 ^ k.
Proof.
  rewrite Hmask, land_mask_mod by lia.
  apply Z.mod_pos_bound. exact ring_size_pos.
Qed.

Lemma inv_init (w : World) :
  loop_inv c ph0 rp0 (mk_loop_state 0 rp0 ph0 w []).
Proof.
  pose proof ring_size_pos as HN. pose proof masked_start_range as Hs0.
  unfold loop_inv. cbn [spent read_ptr evq_phase trace length map seq].
  change (wraps (eventq_mask c) []) with 0%nat.
  change (2 ^ 32) with 4294967296 in Hrp0.
  cbn [Z.of_nat]. rewrite !Z.add_0_r.
  repeat split; try reflexivity; try lia.
  - constructor.
  - rewrite u32_small by lia. reflexivity.
  - cbn. destruct ph0; reflexivity.
  - rewrite Hmask.
    replace (2 ^ k - 1 + 1) with (2 ^ k) by lia.
    rewrite Z.div_small by (rewrite Hmask in Hs0; lia). reflexivity.
Qed.

(** After a full lap the entry under the read pointer is the first entry
    handled, which carries the phase of the previous lap: the loop cannot
    go on. *)
Lemma full_lap_mismatch (st : @loop_state World) :
  loop_inv c ph0 rp0 st ->
  Z.of_nat (length (trace st)) = 2 ^ k ->
  ev_phase (efx_event c (read_ptr st)) <> evq_phase st.
Proof.
  intros (Hok & Hptrs & Hrp & Hph & Hlen & Hwr & Hfirst) HjN.
  pose proof ring_size_pos as HN. pose proof masked_start_range as Hs0.
  unfold efx_event. rewrite Hrp, masked_ptr, HjN.
  rewrite HjN, Hmask in Hwr. rewrite Hmask in Hfirst, Hs0.
  replace (2 ^ k - 1 + 1) with (2 ^ k) in Hwr by lia.
  rewrite Hmask.
  set (s0 := Z.land rp0 (2 ^ k - 1)) in *.
  assert (Hm : (s0 + 2 ^ k) mod 2 ^ k = s0)
    by (symmetry; apply (Z.mod_unique _ _ 1); [left; lia|lia]).
  assert (Hd : (s0 + 2 ^ k) / 2 ^ k = 1)
    by (symmetry; apply (Z.div_unique _ _ 1 s0); [left; lia|lia]).
  rewrite Hm, Hfirst by lia. rewrite Hd in Hwr.
  rewrite Hmask in Hph.
  replace (wraps (2 ^ k - 1) (trace st)) with 1%nat in Hph by lia.
  rewrite Hph. cbn. destruct ph0; discriminate.
Qed.

(** One turn of the loop keeps the invariant and handles one more
    entry. *)
Lemma inv_step (st : @loop_state World) :
  loop_inv c ph0 rp0 st ->
  ev_phase (efx_event c (read_ptr st)) = evq_phase st ->
  loop_inv c ph0 rp0 (ev_body polled c quota st)
  /\ length (trace (ev_body polled c quota st)) = S (length (trace st)).
Proof.
  intros Hinv Hmatch.
  pose proof ring_size_pos as HN. pose proof masked_start_range as Hs0.
  assert (Hj : Z.of_nat (length (trace st)) < 2 ^ k).
  { destruct (Z.eq_dec (Z.of_nat (length (trace st))) (2 ^ k)) as [HjN|HjN].
    - exfalso. exact (full_lap_mismatch st Hinv HjN Hmatch).
    - destruct Hinv as (_ & _ & _ & _ & Hlen & _).
      rewrite Hmask in Hlen. lia. }
  destruct Hinv as (Hok & Hptrs & Hrp & Hph & Hlen & Hwr & Hfirst).
  unfold ev_body.
  destruct (dispatch c quota st (efx_event c (read_ptr st))) as [n w1].
  unfold loop_inv. cbn [spent read_ptr evq_phase world trace].
  rewrite length_app. cbn [length]. rewrite Nat.add_1_r.
  split; [|reflexivity].
  rewrite wraps_app, wraps_one. cbn [at_ptr].
  assert (Hnext : Z.land (u32 (read_ptr st + 1)) (eventq_mask c)
                  = (Z.land rp0 (eventq_mask c)
                     + Z.of_nat (length (trace st)) + 1) mod 2 ^ k).
  { rewrite Hrp, u32_succ, <- Z.add_assoc, masked_ptr.
    f_equal. lia. }
  split; [|split; [|split; [|split; [|split; [|split]]]]].
  - apply Forall_app. split; [exact Hok|].
    constructor; [|constructor].
    unfold handled_ok. cbn [entry at_ptr expected].
    split; [reflexivity|exact Hmatch].
  - rewrite map_app, seq_S, map_app, Hptrs. cbn [map at_ptr Nat.add].
    rewrite Hrp. reflexivity.
  - rewrite Hrp, u32_succ. f_equal. lia.
  - destruct (Z.land (u32 (read_ptr st + 1)) (eventq_mask c) =? 0).
    + rewrite Nat.add_1_r, Nat.odd_succ, <- Nat.negb_odd, Hph.
      destruct ph0, (Nat.odd (wraps (eventq_mask c) (trace st)));
        reflexivity.
    + rewrite Nat.add_0_r. exact Hph.
  - rewrite Hmask. lia.
  - rewrite Hnext, Nat2Z.inj_add, Hwr, Hmask.
    replace (2 ^ k - 1 + 1) with (2 ^ k) by lia.
    rewrite Nat2Z.inj_succ.
    replace (Z.land rp0 (2 ^ k - 1) + Z.succ (Z.of_nat (length (trace st))))
      with (Z.land rp0 (2 ^ k - 1) + Z.of_nat (length (trace st)) + 1)
      by lia.
    rewrite (div_succ _ (2 ^ k)) by lia.
    destruct ((Z.land rp0 (2 ^ k - 1) + Z.of_nat (length (trace st)) + 1)
                mod 2 ^ k =? 0); reflexivity.
  - intros _. destruct (length (trace st)) eqn:Hlen0.
    + unfold efx_event in Hmatch.
      rewrite Hrp, masked_ptr in Hmatch. cbn [Z.of_nat] in Hmatch, Hwr.
      rewrite Z.add_0_r in Hmatch, Hwr.
      rewrite Z.mod_small in Hmatch by lia.
      rewrite Hmask in Hwr.
      replace (2 ^ k - 1 + 1) with (2 ^ k) in Hwr by lia.
      rewrite Z.div_small in Hwr by (rewrite Hmask in Hs0; lia).
      rewrite Hmask in Hph.
      replace (wraps (2 ^ k - 1) (trace st)) with 0%nat in Hph by lia.
      rewrite Hmatch, Hph. destruct ph0; reflexivity.
    + apply Hfirst. lia.
Qed.

(** The loop stops within one lap: with the ring holding [2 ^ k] entries,
    [m] of which may still be handled, [m + 1] units of fuel are enough.
    The final state satisfies the invariant, and any further property [Q]
    that the loop body preserves, and the loop has stopped there. *)
Lemma ev_loop_total (Q : @loop_state World -> Prop) :
  (forall st, Q st -> spent st < quota ->
              ev_phase (efx_event c (read_ptr st)) = evq_phase st ->
              Q (ev_body polled c quota st)) ->
  forall m st,
  loop_inv c ph0 rp0 st -> Q st ->
  Z.of_nat (length (trace st)) + Z.of_nat m = 2 ^ k ->
  exists st',
    (forall fuel, (m < fuel)%nat ->
       ev_loop fuel polled c quota st = Some st')
    /\ loop_inv c ph0 rp0 st'
    /\ Q st'
    /\ stopped c quota st'.
Proof.
  intros HQ. induction m as [|m IH]; intros st Hinv HQst Hleft.
  - exists st. split; [|split; [exact Hinv|split; [exact HQst|]]].
    + intros [|fuel] Hf; [lia|]. cbn [ev_loop].
      destruct (spent st <? quota); [|reflexivity].
      pose proof (full_lap_mismatch st Hinv ltac:(lia)) as Hmis.
      destruct (Bool.eqb_spec (ev_phase (efx_event c (read_ptr st)))
                  (evq_phase st)); [contradiction|reflexivity].
    + right. apply (full_lap_mismatch st Hinv). lia.
  - destruct (Z.ltb_spec (spent st) quota) as [Hlt|Hge].
    + destruct (Bool.eqb_spec (ev_phase (efx_event c (read_ptr st)))
                  (evq_phase st)) as [Hmatch|Hmis].
      * destruct (inv_step st Hinv Hmatch) as [Hinv' Hlen'].
        destruct (IH (ev_body polled c quota st) Hinv'
                    (HQ st HQst Hlt Hmatch))
          as (st' & Hfuel & Hinv'' & HQ' & Hstop); [rewrite Hlen'; lia|].
        exists st'. split; [|split; [|split]]; try assumption.
        intros [|fuel] Hf; [lia|]. cbn [ev_loop].
        destruct (Z.ltb_spec (spent st) quota); [|lia].
        destruct (Bool.eqb_spec (ev_phase (efx_event c (read_ptr st)))
                    (evq_phase st)); [|contradiction].
        cbn [negb]. apply Hfuel. lia.
      * exists st.
        split; [|split; [exact Hinv|split; [exact HQst|right; exact Hmis]]].
        intros [|fuel] Hf; [lia|]. cbn [ev_loop].
        destruct (Z.ltb_spec (spent st) quota); [|lia].
        destruct (Bool.eqb_spec (ev_phase (efx_event c (read_ptr st)))
                    (evq_phase st)); [contradiction|reflexivity].
    + exists st.
      split; [|split; [exact Hinv|split; [exact HQst|left; exact Hge]]].
      intros [|fuel] Hf; [lia|]. cbn [ev_loop].
      destruct (Z.ltb_spec (spent st) quota); [lia|reflexivity].
Qed.

End PhaseFacts.

Section QuotaFacts.
Context {World : Type} `{E : evq_externals World}.
Variables (polled : bool) (c : efx_channel) (quota : Z).
Hypothesis Hbudget : port_within_budget.
Hypothesis Hquota : - 2 ^ 31 <= quota < 2 ^ 31.

(** The work counted for one entry stays within what is left of the
    quota, and is counted by the type of the entry. *)
Lemma dispatch_units (st : @loop_state World) ev :
  0 <= spent st < quota ->
  0 <= fst (dispatch c quota st ev) <= quota - spent st
  /\ units_ok (mk_dispatched (read_ptr st) (evq_phase st) ev
                 (fst (dispatch c quota st ev))).
Proof.
  intros Hs. change (2 ^ 31) with 2147483648 in Hquota.
  unfold units_ok. cbn [entry units].
  unfold dispatch. destruct (ev_type ev); cbn [fst];
    try (split; [lia|reflexivity]).
  cut (0 <= fst (ef100_ev_mcdi (world st) c ev (s32 (quota - spent st)))
       <= quota - spent st); [intros Hc; split; [exact Hc|lia]|].
  unfold ef100_ev_mcdi.
  destruct (efx_mcdi_process_event (world st) (channel c) ev)
    as [claimed w1].
  rewrite (s32_small (quota - spent st)) by lia.
  destruct claimed.
  - cbn. lia.
  - pose proof (Hbudget w1 (channel c) ev (quota - spent st) ltac:(lia))
      as Hb.
    destruct (efx_mcdi_port_process_event_common w1 (channel c) ev
                (quota - spent st)) as [[h rc] w2].
    cbn [fst snd] in Hb |- *. rewrite !Z.add_0_l.
    destruct (Z.ltb_spec 0 rc).
    + rewrite s32_small by lia. lia.
    + destruct (Z.ltb_spec rc 0).
      * rewrite s32_small by lia. lia.
      * lia.
Qed.

Lemma quota_init (rp : Z) (ph : bool) (w : World) :
  quota_inv quota (mk_loop_state 0 rp ph w []).
Proof.
  unfold quota_inv. cbn [spent trace]. repeat split; try lia.
  constructor.
Qed.

Lemma quota_step (st : @loop_state World) :
  quota_inv quota st -> spent st < quota ->
  quota_inv quota (ev_body polled c quota st).
Proof.
  intros (Hsum & Hsp & Hun) Hlt.
  pose proof (dispatch_units st (efx_event c (read_ptr st))
                (conj (proj1 Hsp) Hlt)) as [Hu Hty].
  change (2 ^ 31) with 2147483648 in Hquota.
  unfold ev_body.
  destruct (dispatch c quota st (efx_event c (read_ptr st))) as [n w1].
  cbn [fst] in Hu, Hty.
  unfold quota_inv. cbn [spent trace].
  rewrite (s32_small (spent st + n)) by lia.
  rewrite sum_units_app, Hsum. cbn [units].
  split; [reflexivity|split; [lia|]].
  apply Forall_app. split; [exact Hun|].
  constructor; [exact Hty|constructor].
Qed.

End QuotaFacts.

Section ProcessFacts.
Context {World : Type} `{E : evq_externals World}.
Variables (efx : efx_nic) (w : World) (c : efx_channel) (quota k : Z).
Hypothesis Hk : 0 <= k <= 32.
Hypothesis Hmask : eventq_mask c = 2 ^ k - 1.
Hypothesis Hrp : 0 <= eventq_read_ptr c < 2 ^ 32.
Hypothesis Hch : 0 <= channel c.

(** An invocation on a disabled channel returns at once; on an enabled
    channel the loop stops within one lap of the ring. *)
Lemma ev_process_cases (Q : @loop_state World -> Prop) :
  (forall st, Q st -> spent st < quota ->
              ev_phase (efx_event c (read_ptr st)) = evq_phase st ->
              Q (ev_body (busy_poll efx) c quota st)) ->
  Q (mk_loop_state 0 (eventq_read_ptr c)
       (test_bit (channel c) (evq_phases efx)) w []) ->
  (enabled c = false
   /\ forall fuel,
        ef100_ev_process fuel efx w c quota
        = Some (mk_ev_result 0 efx c w []))
  \/ (enabled c = true
      /\ exists st,
           (forall fuel, (Z.to_nat (2 ^ k) < fuel)%nat ->
              ef100_ev_process fuel efx w c quota
              = Some (ev_finish efx c quota st))
           /\ loop_inv c (test_bit (channel c) (evq_phases efx))
                (eventq_read_ptr c) st
           /\ Q st
           /\ stopped c quota st).
Proof.
  intros HQ HQ0. unfold ef100_ev_process.
  destruct (enabled c); [right|left]; (split; [reflexivity|]);
    [|intros; reflexivity].
  destruct (ev_loop_total (busy_poll efx) c quota k
              (test_bit (channel c) (evq_phases efx)) (eventq_read_ptr c)
              Hk Hmask Q HQ (Z.to_nat (2 ^ k))
              (mk_loop_state 0 (eventq_read_ptr c)
                 (test_bit (channel c) (evq_phases efx)) w []))
    as (st & Hfuel & Hinv & HQst & Hstop).
  - apply inv_init with (k := k); assumption.
  - exact HQ0.
  - cbn [trace length Z.of_nat]. pose proof (ring_size_pos k Hk). lia.
  - exists st. split; [|split; [exact Hinv|split; [exact HQst|exact Hstop]]].
    intros fuel Hf. cbn [negb]. rewrite (Hfuel fuel Hf). reflexivity.
Qed.

(** The stored phase bit after the loop is the local phase the loop ended
    with. *)
Lemma ev_finish_phase (st : @loop_state World) :
  test_bit (channel c) (evq_phases (ev_nic (ev_finish efx c quota st)))
  = evq_phase st.
Proof.
  unfold ev_finish. cbn [ev_nic].
  destruct (Bool.eqb_spec (evq_phase st)
              (test_bit (channel c) (evq_phases efx))) as [Heq|Hne].
  - symmetry. exact Heq.
  - cbn [evq_phases]. rewrite test_bit_change_bit by exact Hch.
    destruct (evq_phase st), (test_bit (channel c) (evq_phases efx));
      try reflexivity; exfalso; apply Hne; reflexivity.
Qed.

Lemma ev_process_phase_post :
  exists r,
    (forall fuel, (Z.to_nat (2 ^ k) < fuel)%nat ->
       ef100_ev_process fuel efx w c quota = Some r)
    /\ phase_post efx c r.
Proof.
  destruct (ev_process_cases (fun _ => True)) as [[Hen Hrun]|[Hen Hrun]];
    try (intros; exact I).
  - exists (mk_ev_result 0 efx c w []). split; [intros; apply Hrun|].
    pose proof (ring_size_pos k Hk) as HN.
    pose proof (masked_start_range c k (eventq_read_ptr c) Hk Hmask) as Hs0.
    change (2 ^ 32) with 4294967296 in Hrp.
    unfold phase_post.
    cbn [ev_trace ev_channel ev_nic length Z.of_nat].
    change (wraps (eventq_mask c) []) with 0%nat.
    rewrite !Z.add_0_r, u32_small by lia.
    repeat split.
    + cbn. destruct (test_bit (channel c) (evq_phases efx)); reflexivity.
    + rewrite Hmask. replace (2 ^ k - 1 + 1) with (2 ^ k) by lia.
      rewrite Z.div_small by (rewrite Hmask in Hs0; lia). reflexivity.
  - destruct Hrun as (st & Hfuel & Hinv & _ & _).
    exists (ev_finish efx c quota st). split; [exact Hfuel|].
    destruct Hinv as (Hok & Hptrs & Hrdp & Hph & Hlen & Hwr & Hfirst).
    unfold phase_post. rewrite ev_finish_phase.
    unfold ev_finish at 1 2 3 5 6 7.
    cbn [ev_trace ev_channel channel enabled eventq_mask eventq_read_ptr].
    repeat split; try assumption.
    unfold ev_finish. cbn [ev_nic].
    destruct (Bool.eqb (evq_phase st)
                (test_bit (channel c) (evq_phases efx))); reflexivity.
Qed.

End ProcessFacts.

Lemma div_add_split a b n :
  0 < n -> (a + b) / n = a / n + (a mod n + b) / n.
Proof.
  intros Hn. rewrite (Z.div_mod a n) at 1 by lia.
  rewrite <- Z.add_assoc, (Z.mul_comm n), Z.div_add_l by lia.
  reflexivity.
Qed.

Section RunFacts.
Context {World : Type} `{E : evq_externals World}.
Variable k : Z.
Hypothesis Hk : 0 <= k <= 32.

Lemma phase_post_nil efx (w : World) c :
  eventq_mask c = 2 ^ k - 1 -> 0 <= eventq_read_ptr c < 2 ^ 32 ->
  phase_post efx c (mk_ev_result 0 efx c w []).
Proof.
  intros Hmask Hrp.
  pose proof (ring_size_pos k Hk) as HN.
  pose proof (masked_start_range c k (eventq_read_ptr c) Hk Hmask) as Hs0.
  change (2 ^ 32) with 4294967296 in Hrp.
  unfold phase_post.
  cbn [ev_trace ev_channel ev_nic length Z.of_nat].
  change (wraps (eventq_mask c) []) with 0%nat.
  rewrite !Z.add_0_r, u32_small by lia.
  repeat split.
  - cbn. destruct (test_bit (channel c) (evq_phases efx)); reflexivity.
  - rewrite Hmask. replace (2 ^ k - 1 + 1) with (2 ^ k) by lia.
    rewrite Z.div_small by (rewrite Hmask in Hs0; lia). reflexivity.
Qed.

(** The effect of two stretches of handled entries is the effect of their
    concatenation. *)
Lemma phase_post_compose efx c (r1 r2 : @ev_result World) :
  eventq_mask c = 2 ^ k - 1 ->
  phase_post efx c r1 ->
  phase_post (ev_nic r1) (ev_channel r1) r2 ->
  phase_post efx c
    (mk_ev_result (ev_ret r2) (ev_nic r2) (ev_channel r2) (ev_world r2)
       (ev_trace r1 ++ ev_trace r2)).
Proof.
  intros Hmask (Hc1 & He1 & Hm1 & Hb1 & Hp1 & Ht1 & Hw1)
               (Hc2 & He2 & Hm2 & Hb2 & Hp2 & Ht2 & Hw2).
  pose proof (ring_size_pos k Hk) as HN.
  unfold phase_post. cbn [ev_trace ev_channel ev_nic].
  rewrite Hc1, Hm1 in *.
  rewrite length_app, wraps_app, Nat2Z.inj_add, Nat.odd_add.
  repeat split; try congruence.
  - rewrite Hp2, Hp1. unfold u32.
    rewrite Z.add_mod_idemp_l by discriminate. f_equal. lia.
  - rewrite Ht2, Ht1.
    destruct (test_bit (channel c) (evq_phases efx)),
             (Nat.odd (wraps (eventq_mask c) (ev_trace r1))),
             (Nat.odd (wraps (eventq_mask c) (ev_trace r2))); reflexivity.
  - rewrite Nat2Z.inj_add, Hw1, Hw2, Hp1.
    rewrite (masked_ptr c k (eventq_read_ptr c) Hk Hmask).
    rewrite Hmask. replace (2 ^ k - 1 + 1) with (2 ^ k) by lia.
    rewrite Z.add_assoc. symmetry. apply div_add_split. exact HN.
Qed.

Lemma ev_process_run_phase_post : forall invocations efx (w : World) c,
  eventq_mask c = 2 ^ k - 1 -> 0 <= eventq_read_ptr c < 2 ^ 32 ->
  0 <= channel c ->
  exists r,
    (forall fuel, (Z.to_nat (2 ^ k) < fuel)%nat ->
       ev_process_run fuel efx w c invocations = Some r)
    /\ phase_post efx c r.
Proof.
  induction invocations as [|[ring quota] rest IH];
    intros efx w c Hmask Hrp Hch.
  - exists (mk_ev_result 0 efx c w []). split.
    + intros fuel _. reflexivity.
    + apply phase_post_nil; assumption.
  - destruct (ev_process_phase_post efx w
                (mk_channel (channel c) (enabled c) (eventq_mask c)
                   (eventq_read_ptr c) ring) quota k Hk Hmask Hrp Hch)
      as (r1 & Hrun1 & Hpost1).
    assert (Hpost1' : phase_post efx c r1) by exact Hpost1.
    destruct Hpost1 as (Hc1 & He1 & Hm1 & Hb1 & Hp1 & Ht1 & Hw1).
    cbn [channel enabled eventq_mask eventq_read_ptr] in Hc1, Hm1, Hp1.
    destruct (IH (ev_nic r1) (ev_world r1) (ev_channel r1))
      as (r2 & Hrun2 & Hpost2).
    + rewrite Hm1. exact Hmask.
    + rewrite Hp1. unfold u32. apply Z.mod_pos_bound. reflexivity.
    + rewrite Hc1. exact Hch.
    + exists (mk_ev_result (ev_ret r2) (ev_nic r2) (ev_channel r2)
                (ev_world r2) (ev_trace r1 ++ ev_trace r2)).
      split.
      * intros fuel Hf. cbn [ev_process_run].
        rewrite (Hrun1 fuel Hf), (Hrun2 fuel Hf). reflexivity.
      * apply phase_post_compose; assumption.
Qed.

End RunFacts.

(** Parity of a count read as an integer. *)
Lemma parity_of_nat n :
  Z.even (Z.of_nat n) = Nat.even n /\ Z.odd (Z.of_nat n) = Nat.odd n.
Proof.
  induction n as [|n [IHe IHo]].
  - split; reflexivity.
  - rewrite Nat2Z.inj_succ, Z.even_succ, Z.odd_succ, Nat.even_succ,
      Nat.odd_succ.
    split; assumption.
Qed.

Section HandledFacts.
Context {World : Type} `{E : evq_externals World}.
Variables (efx : efx_nic) (w : World) (c : efx_channel) (quota k : Z).
Hypothesis Hquota : - 2 ^ 31 <= quota < 2 ^ 31.
Hypothesis Hk : 0 <= k <= 32.
Hypothesis Hmask : eventq_mask c = 2 ^ k - 1.

(** The phase the loop holds locally is the phase expected of the next
    entry. *)
Lemma loop_phase_expected (st : @loop_state World) :
  loop_inv c (test_bit (channel c) (evq_phases efx)) (eventq_read_ptr c) st ->
  evq_phase st = expected_phase efx c (length (trace st)).
Proof.
  intros (_ & _ & _ & Hph & _ & Hwr & _).
  unfold expected_phase. rewrite <- Hwr, (proj2 (parity_of_nat _)).
  exact Hph.
Qed.

(** The work the loop body counts for an entry is the work of
    [counted_work]. *)
Lemma dispatch_counted (st : @loop_state World) ev :
  0 <= spent st < quota ->
  fst (dispatch c quota st ev)
  = counted_work (world st) c ev (quota - spent st).
Proof.
  intros Hs. change (2 ^ 31) with 2147483648 in Hquota.
  unfold dispatch, counted_work.
  destruct (ev_type ev); try reflexivity.
  rewrite s32_small by lia. reflexivity.
Qed.

Lemma phase_init :
  phase_inv efx c
    (mk_loop_state 0 (eventq_read_ptr c)
       (test_bit (channel c) (evq_phases efx)) w []).
Proof. cbn [trace length]. intros i Hi. inversion Hi. Qed.

Lemma phase_step (st : @loop_state World) :
  loop_inv c (test_bit (channel c) (evq_phases efx)) (eventq_read_ptr c) st ->
  phase_inv efx c st ->
  ev_phase (efx_event c (read_ptr st)) = evq_phase st ->
  phase_inv efx c (ev_body (busy_poll efx) c quota st).
Proof.
  intros Hinv Hhist Hmatch.
  pose proof (loop_phase_expected st Hinv) as Hexp.
  destruct Hinv as (_ & _ & Hrp & _).
  unfold phase_inv, ev_body.
  destruct (dispatch c quota st (efx_event c (read_ptr st))) as [n w1].
  cbn [trace]. rewrite length_app. cbn [length]. intros i Hi.
  destruct (Nat.eq_dec i (length (trace st))) as [->|Hne].
  - rewrite <- Hrp, <- Hexp. split; [exact Hmatch|].
    exists n. rewrite nth_error_app2, Nat.sub_diag by apply Nat.le_refl.
    reflexivity.
  - assert (Hlt : (i < length (trace st))%nat)
      by (clear - Hi Hne; rewrite Nat.add_1_r in Hi; lia).
    destruct (Hhist i Hlt) as (Hp & m & Hm).
    split; [exact Hp|]. exists m. rewrite nth_error_app1 by exact Hlt.
    exact Hm.
Qed.

Lemma handled_init :
  handled_inv efx w c quota
    (mk_loop_state 0 (eventq_read_ptr c)
       (test_bit (channel c) (evq_phases efx)) w []).
Proof.
  split; [reflexivity|]. cbn [trace length]. intros i Hi. inversion Hi.
Qed.

Lemma handled_step (st : @loop_state World) :
  quota_inv quota st ->
  loop_inv c (test_bit (channel c) (evq_phases efx)) (eventq_read_ptr c) st ->
  handled_inv efx w c quota st ->
  spent st < quota ->
  ev_phase (efx_event c (read_ptr st)) = evq_phase st ->
  handled_inv efx w c quota (ev_body (busy_poll efx) c quota st).
Proof.
  intros (Hsum & Hsp & _) Hinv (Hst & Hhist) Hlt Hmatch.
  pose proof (loop_phase_expected st Hinv) as Hexp.
  destruct Hinv as (_ & _ & Hrp & _).
  pose proof (dispatch_counted st (efx_event c (read_ptr st))
                (conj (proj1 Hsp) Hlt)) as Hwork.
  assert (Hbody : trace (ev_body (busy_poll efx) c quota st)
                  = trace st
                    ++ [handled_record efx w c quota (trace st)
                          (length (trace st))]).
  { unfold ev_body.
    destruct (dispatch c quota st (efx_event c (read_ptr st))) as [n w1].
    cbn [trace fst] in *. f_equal. f_equal.
    unfold handled_record. rewrite firstn_all, <- Hsum, <- Hrp, <- Hexp.
    rewrite Hwork. do 3 f_equal. exact Hst. }
  unfold handled_inv. rewrite Hbody, length_app. cbn [length].
  rewrite Nat.add_1_r. split.
  - change (ev_state_after efx w c quota (S (length (trace st))))
      with (ev_body (busy_poll efx) c quota
              (ev_state_after efx w c quota (length (trace st)))).
    rewrite <- Hst. reflexivity.
  - intros i Hi.
    assert (Hfirst : forall d j, (j <= length (trace st))%nat ->
                       firstn j (trace st ++ [d]) = firstn j (trace st)).
    { intros d j Hj. rewrite firstn_app.
      replace (j - length (trace st))%nat with 0%nat by lia.
      cbn [firstn]. apply app_nil_r. }
    unfold handled_record. rewrite Hfirst by lia.
    destruct (Nat.eq_dec i (length (trace st))) as [->|Hne].
    + rewrite firstn_all, <- Hsum, <- Hrp, <- Hexp.
      split; [exact Hmatch|split; [exact Hlt|]].
      rewrite nth_error_app2, Nat.sub_diag by lia. cbn [nth_error].
      reflexivity.
    + destruct (Hhist i ltac:(lia)) as (Hp & Hq & Hn).
      split; [exact Hp|split; [exact Hq|]].
      rewrite nth_error_app1 by lia. exact Hn.
Qed.

End HandledFacts.

(** C2, as the code has it: on a channel whose ring has a power-of-two
    number of entries [ef100_ev_process] returns (a ring's worth of fuel
    is enough), and whatever the handlers do it never dispatches an entry
    whose phase bit differs from the expected phase: the [i]-th entry it
    handled is the ring entry [i] places after the starting read pointer,
    and its phase bit is the phase bit stored for the channel, flipped
    once for each time the masked pointer came back to zero before it.
    The read pointer and the stored phase bit end as the pointer and the
    expected phase of the first entry not handled, and outside busy-poll
    mode the loop ended because the value returned reached the quota or
    because that entry does not have the expected phase.

    The work counted is at most the quota provided the MCDI port handler
    reports no more work than the budget it is handed; the dispatcher
    adds its report as it is.  Then the value returned is at most the
    quota, the work counted before each handled entry was below the
    quota, and the entry is counted with 1 unit for an RX event, with the
    report of [ef100_ev_mcdi] - called in the world the handlers before it
    left, with the budget left of the quota - for an MCDI event, and with
    0 for TX-completion, driver and unknown events. *)
Theorem ev_process_respects_quota_and_phase
    {World : Type} `{E : evq_externals World}
    (efx : efx_nic) (w : World) (c : efx_channel) (quota k : Z) :
  0 <= k <= 32 -> eventq_mask c = 2 ^ k - 1 ->
  0 <= eventq_read_ptr c < 2 ^ 32 -> 0 <= channel c ->
  exists r,
    (forall fuel, (Z.to_nat (2 ^ k) < fuel)%nat ->
       ef100_ev_process fuel efx w c quota = Some r)
    /\ (forall i, (i < length (ev_trace r))%nat ->
          ev_phase (efx_event c (u32 (eventq_read_ptr c + Z.of_nat i)))
          = expected_phase efx c i
          /\ exists n,
               nth_error (ev_trace r) i
               = Some (mk_dispatched
                         (u32 (eventq_read_ptr c + Z.of_nat i))
                         (expected_phase efx c i)
                         (efx_event c
                            (u32 (eventq_read_ptr c + Z.of_nat i))) n))
    /\ Forall (handled_ok c) (ev_trace r)
    /\ map at_ptr (ev_trace r)
       = map (fun i => u32 (eventq_read_ptr c + Z.of_nat i))
           (seq 0 (length (ev_trace r)))
    /\ eventq_read_ptr (ev_channel r)
       = u32 (eventq_read_ptr c + Z.of_nat (length (ev_trace r)))
    /\ test_bit (channel c) (evq_phases (ev_nic r))
       = expected_phase efx c (length (ev_trace r))
    /\ (enabled c = true -> busy_poll efx = false ->
        quota <= ev_ret r
        \/ ev_phase
             (efx_event c
                (u32 (eventq_read_ptr c + Z.of_nat (length (ev_trace r)))))
           <> expected_phase efx c (length (ev_trace r)))
    /\ (port_within_budget -> - 2 ^ 31 <= quota < 2 ^ 31 ->
        (0 <= quota -> ev_ret r <= quota)
        /\ 0 <= sum_units (ev_trace r) <= Z.max 0 quota
        /\ (busy_poll efx = false -> ev_ret r = sum_units (ev_trace r))
        /\ (forall i, (i < length (ev_trace r))%nat ->
              sum_units (firstn i (ev_trace r)) < quota
              /\ nth_error (ev_trace r) i
                 = Some (handled_record efx w c quota (ev_trace r) i))
        /\ Forall units_ok (ev_trace r)
        /\ (enabled c = true ->
            ev_world r
            = world (ev_state_after efx w c quota (length (ev_trace r))))
        /\ (enabled c = true ->
            quota <= sum_units (ev_trace r)
            \/ ev_phase
                 (efx_event c
                    (u32 (eventq_read_ptr c
                          + Z.of_nat (length (ev_trace r)))))
               <> expected_phase efx c (length (ev_trace r)))).
Proof.
  intros Hk Hmask Hrp Hch.
  destruct (ev_process_cases efx w c quota k Hk Hmask Hrp
              (fun st =>
                 loop_inv c (test_bit (channel c) (evq_phases efx))
                   (eventq_read_ptr c) st
                 /\ phase_inv efx c st
                 /\ (port_within_budget -> - 2 ^ 31 <= quota < 2 ^ 31 ->
                     quota_inv quota st /\ handled_inv efx w c quota st)))
    as [[Hen Hrun]|[Hen (st & Hfuel & Hinv & HQ & Hstop)]].
  - intros st (Hl & Hp & Hq) Hlt Hmatch.
    split; [|split].
    + exact (proj1 (inv_step (busy_poll efx) c quota k _ _ Hk Hmask st Hl
                      Hmatch)).
    + apply phase_step; assumption.
    + intros Hbudget Hquota. destruct (Hq Hbudget Hquota) as [Hqi Hh].
      split; [apply quota_step; assumption|].
      apply (handled_step efx w c quota k Hquota Hk); assumption.
  - split; [|split].
    + apply inv_init with (k := k); assumption.
    + apply phase_init.
    + intros _ _. split; [apply quota_init|apply handled_init].
  - exists (mk_ev_result 0 efx c w []).
    cbn [ev_ret ev_trace ev_channel ev_nic length seq map Z.of_nat].
    change (sum_units []) with 0.
    pose proof (ring_size_pos k Hk) as HN.
    pose proof (masked_start_range c k (eventq_read_ptr c) Hk Hmask) as Hs0.
    change (2 ^ 32) with 4294967296 in Hrp.
    split; [intros; apply Hrun|].
    split; [intros i Hi; inversion Hi|].
    split; [constructor|split; [reflexivity|]].
    split; [rewrite Z.add_0_r, u32_small by lia; reflexivity|].
    split.
    { unfold expected_phase. rewrite Z.add_0_r, Hmask.
      replace (2 ^ k - 1 + 1) with (2 ^ k) by lia.
      rewrite Z.div_small by (rewrite Hmask in Hs0; lia).
      cbn. destruct (test_bit (channel c) (evq_phases efx)); reflexivity. }
    split; [rewrite Hen; discriminate|].
    intros _ _.
    split; [lia|split; [lia|split; [reflexivity|]]].
    split; [intros i Hi; inversion Hi|].
    split; [constructor|].
    split; rewrite Hen; discriminate.
  - exists (ev_finish efx c quota st). split; [exact Hfuel|].
    destruct HQ as (_ & Hphase & Hq).
    pose proof (loop_phase_expected efx c st Hinv) as Hexp.
    destruct Hinv as (Hok & Hptrs & Hrdp & _).
    rewrite (ev_finish_phase efx c quota Hch st).
    unfold ev_finish.
    cbn [ev_ret ev_trace ev_channel ev_world eventq_read_ptr].
    split; [exact Hphase|].
    split; [exact Hok|split; [exact Hptrs|split; [exact Hrdp|]]].
    split; [exact Hexp|].
    split.
    { intros _ Hbp. rewrite Hbp, <- Hrdp, <- Hexp. exact Hstop. }
    intros Hbudget Hquota.
    destruct (Hq Hbudget Hquota) as ((Hsum & Hsp & Hun) & (Hst & Hhist)).
    rewrite <- Hsum.
    split; [|split; [|split; [|split; [|split; [|split]]]]];
      try assumption.
    + intros H0. destruct (busy_poll efx); lia.
    + intros Hbp. rewrite Hbp. reflexivity.
    + intros i Hi. destruct (Hhist i Hi) as (_ & Hlt & Hn).
      split; assumption.
    + intros _. rewrite Hst at 1. reflexivity.
    + intros _. rewrite <- Hrdp, <- Hexp. exact Hstop.
Qed.

Lemma metered_within_budget : @port_within_budget nat metered_externals.
Proof. intros w ch ev budget Hb. cbn. lia. Qed.

Lemma ev_process_respects_quota_and_phase_witness :
  let efx := mk_efx_nic 0 false in
  let c := mk_channel 0 true 3 0
             (ring_of [ mk_event false ESE_GZ_EF100_EV_RX_PKTS 0;
                        mk_event false ESE_GZ_EF100_EV_MCDI 0;
                        mk_event false ESE_GZ_EF100_EV_TX_COMPLETION 0;
                        mk_event true ESE_GZ_EF100_EV_RX_PKTS 0 ]) in
  @port_within_budget nat metered_externals
  /\ exists r,
    (forall fuel, (Z.to_nat (2 ^ 2) < fuel)%nat ->
       @ef100_ev_process nat metered_externals fuel efx 0%nat c 10 = Some r)
    /\ (forall i, (i < length (ev_trace r))%nat ->
          ev_phase (efx_event c (u32 (eventq_read_ptr c + Z.of_nat i)))
          = expected_phase efx c i
          /\ exists n,
               nth_error (ev_trace r) i
               = Some (mk_dispatched
                         (u32 (eventq_read_ptr c + Z.of_nat i))
                         (expected_phase efx c i)
                         (efx_event c
                            (u32 (eventq_read_ptr c + Z.of_nat i))) n))
    /\ Forall (handled_ok c) (ev_trace r)
    /\ map at_ptr (ev_trace r)
       = map (fun i => u32 (eventq_read_ptr c + Z.of_nat i))
           (seq 0 (length (ev_trace r)))
    /\ eventq_read_ptr (ev_channel r)
       = u32 (eventq_read_ptr c + Z.of_nat (length (ev_trace r)))
    /\ test_bit (channel c) (evq_phases (ev_nic r))
       = expected_phase efx c (length (ev_trace r))
    /\ (enabled c = true -> busy_poll efx = false ->
        10 <= ev_ret r
        \/ ev_phase
             (efx_event c
                (u32 (eventq_read_ptr c + Z.of_nat (length (ev_trace r)))))
           <> expected_phase efx c (length (ev_trace r)))
    /\ (@port_within_budget nat metered_externals ->
        - 2 ^ 31 <= 10 < 2 ^ 31 ->
        (0 <= 10 -> ev_ret r <= 10)
        /\ 0 <= sum_units (ev_trace r) <= Z.max 0 10
        /\ (busy_poll efx = false -> ev_ret r = sum_units (ev_trace r))
        /\ (forall i, (i < length (ev_trace r))%nat ->
              sum_units (firstn i (ev_trace r)) < 10
              /\ nth_error (ev_trace r) i
                 = Some (@handled_record nat metered_externals efx 0%nat c
                           10 (ev_trace r) i))
        /\ Forall units_ok (ev_trace r)
        /\ (enabled c = true ->
            ev_world r
            = world (@ev_state_after nat metered_externals efx 0%nat c 10
                       (length (ev_trace r))))
        /\ (enabled c = true ->
            10 <= sum_units (ev_trace r)
            \/ ev_phase
                 (efx_event c
                    (u32 (eventq_read_ptr c
                          + Z.of_nat (length (ev_trace r)))))
               <> expected_phase efx c (length (ev_trace r)))).
Proof.
  intros efx c. split; [exact metered_within_budget|].
  apply (@ev_process_respects_quota_and_phase nat metered_externals
           efx 0%nat c 10 2).
  - lia.
  - reflexivity.
  - cbn. lia.
  - cbn. lia.
Defined.

(** The invocation of the example above handles the RX entry (1 unit),
    the MCDI entry (the 2 units the port handler reports for the budget of
    9 left) and the TX-completion entry (0 units), and stops at the fourth
    entry, whose phase is not the expected one. *)
Example metered_run :
  option_map (fun r => (ev_ret r, map units (ev_trace r),
                        eventq_read_ptr (ev_channel r)))
    (@ef100_ev_process nat metered_externals 5 (mk_efx_nic 0 false) 0%nat
       (mk_channel 0 true 3 0
          (ring_of [ mk_event false ESE_GZ_EF100_EV_RX_PKTS 0;
                     mk_event false ESE_GZ_EF100_EV_MCDI 0;
                     mk_event false ESE_GZ_EF100_EV_TX_COMPLETION 0;
                     mk_event true ESE_GZ_EF100_EV_RX_PKTS 0 ])) 10)
  = Some (3, [1; 2; 0], 3).
Proof. vm_compute. reflexivity. Qed.

(** With a port handler that reports 1000 units of work whatever budget it
    is handed, an invocation with quota 1 on a ring whose first entry is a
    ready MCDI event counts 1000 units and returns 1000: the dispatcher
    adds the report of the handler as it is. *)
Lemma ev_process_quota_counterexample :
  ~ @work_never_exceeds_quota nat greedy_externals (mk_efx_nic 0 false)
      0%nat
      (mk_channel 0 true 3 0
         (ring_of [ mk_event false ESE_GZ_EF100_EV_MCDI 0;
                    mk_event true ESE_GZ_EF100_EV_RX_PKTS 0;
                    mk_event true ESE_GZ_EF100_EV_RX_PKTS 0;
                    mk_event true ESE_GZ_EF100_EV_RX_PKTS 0 ]))
      1.
Proof.
  unfold work_never_exceeds_quota. intros Hclaim.
  pose proof (Hclaim eq_refl 5%nat) as H5.
  vm_compute in H5.
  destruct (H5 _ eq_refl) as [Hs _].
  apply Hs. reflexivity.
Qed.

(** C3: over any run of invocations of [ef100_ev_process] on a channel
    whose ring has [2 ^ k] entries, the stored phase bit of the channel
    ends as its starting value toggled once for each time the masked read
    pointer came back to zero, and the number of those wraps is
    [(masked starting pointer + entries handled) / ring size].  So after
    exactly one wrap - in particular after handling exactly one ring's
    worth of entries - the bit has toggled once, and after exactly two
    wraps - two rings' worth - it has its starting value.  With mask 3,
    phase 0, read pointer 0 and four ready RX entries, an invocation with
    quota 10 (outside busy-poll mode, whatever the handlers do) returns 4,
    leaves the read pointer at 4 and the phase bit at 1. *)
Theorem ev_process_phase_toggles_per_wrap :
  (forall (World : Type) (E : evq_externals World)
          (efx : efx_nic) (w : World) (c : efx_channel) (k : Z)
          (invocations : list ((Z -> efx_qword_t) * Z)),
     0 <= k <= 32 -> eventq_mask c = 2 ^ k - 1 ->
     0 <= eventq_read_ptr c < 2 ^ 32 -> 0 <= channel c ->
     exists r,
       (forall fuel, (Z.to_nat (2 ^ k) < fuel)%nat ->
          ev_process_run fuel efx w c invocations = Some r)
       /\ phase_post efx c r
       /\ (wraps (eventq_mask c) (ev_trace r) = 1%nat ->
           test_bit (channel c) (evq_phases (ev_nic r))
           = negb (test_bit (channel c) (evq_phases efx)))
       /\ (wraps (eventq_mask c) (ev_trace r) = 2%nat ->
           test_bit (channel c) (evq_phases (ev_nic r))
           = test_bit (channel c) (evq_phases efx))
       /\ (Z.of_nat (length (ev_trace r)) = 2 ^ k ->
           test_bit (channel c) (evq_phases (ev_nic r))
           = negb (test_bit (channel c) (evq_phases efx)))
       /\ (Z.of_nat (length (ev_trace r)) = 2 * 2 ^ k ->
           test_bit (channel c) (evq_phases (ev_nic r))
           = test_bit (channel c) (evq_phases efx)))
  /\ (forall (World : Type) (E : evq_externals World) (w : World)
             (payload : Z),
        let rx := mk_event false ESE_GZ_EF100_EV_RX_PKTS payload in
        let c := mk_channel 0 true 3 0 (ring_of [rx; rx; rx; rx]) in
        exists r,
          ef100_ev_process 5 (mk_efx_nic 0 false) w c 10 = Some r
          /\ test_bit 0 0 = false
          /\ ev_ret r = 4
          /\ eventq_read_ptr (ev_channel r) = eventq_read_ptr c + 4
          /\ length (ev_trace r) = 4%nat
          /\ wraps 3 (ev_trace r) = 1%nat
          /\ test_bit 0 (evq_phases (ev_nic r)) = true).
Proof.
  split.
  - intros World E efx w c k invocations Hk Hmask Hrp Hch.
    destruct (ev_process_run_phase_post k Hk invocations efx w c
                Hmask Hrp Hch) as (r & Hrun & Hpost).
    exists r. split; [exact Hrun|split; [exact Hpost|]].
    destruct Hpost as (_ & _ & _ & _ & _ & Hbit & Hwr).
    pose proof (ring_size_pos k Hk) as HN.
    pose proof (masked_start_range c k (eventq_read_ptr c) Hk Hmask) as Hs0.
    rewrite Hmask in Hwr, Hs0.
    replace (2 ^ k - 1 + 1) with (2 ^ k) in Hwr by lia.
    assert (Hone : forall b : bool, xorb b (Nat.odd 1) = negb b)
      by (intros []; reflexivity).
    assert (Htwo : forall b : bool, xorb b (Nat.odd 2) = b)
      by (intros []; reflexivity).
    repeat split.
    + intros H1. rewrite Hbit, H1. apply Hone.
    + intros H2. rewrite Hbit, H2. apply Htwo.
    + intros Hlen. rewrite Hlen in Hwr.
      assert (Hd : (Z.land (eventq_read_ptr c) (2 ^ k - 1) + 2 ^ k) / 2 ^ k
                   = 1)
        by (symmetry;
            apply (Z.div_unique _ _ 1 (Z.land (eventq_read_ptr c)
                                         (2 ^ k - 1))); [left; lia|lia]).
      rewrite Hd, <- Hmask in Hwr.
      replace (wraps (eventq_mask c) (ev_trace r)) with 1%nat in Hbit
        by lia.
      rewrite Hbit. apply Hone.
    + intros Hlen. rewrite Hlen in Hwr.
      assert (Hd : (Z.land (eventq_read_ptr c) (2 ^ k - 1) + 2 * 2 ^ k)
                   / 2 ^ k = 2)
        by (symmetry;
            apply (Z.div_unique _ _ 2 (Z.land (eventq_read_ptr c)
                                         (2 ^ k - 1))); [left; lia|lia]).
      rewrite Hd, <- Hmask in Hwr.
      replace (wraps (eventq_mask c) (ev_trace r)) with 2%nat in Hbit
        by lia.
      rewrite Hbit. apply Htwo.
  - intros World E w payload rx c. eexists. split; [reflexivity|].
    repeat split.
Qed.

Lemma ev_process_phase_toggles_per_wrap_witness :
  exists r,
    (forall fuel, (Z.to_nat (2 ^ 1) < fuel)%nat ->
       @ev_process_run nat counting_externals fuel (mk_efx_nic 0 false)
         0%nat
         (mk_channel 0 true 1 0 (ring_of []))
         [ (ring_of [ mk_event false ESE_GZ_EF100_EV_RX_PKTS 0;
                      mk_event false ESE_GZ_EF100_EV_TX_COMPLETION 0 ], 8);
           (ring_of [ mk_event true ESE_GZ_EF100_EV_RX_PKTS 0;
                      mk_event true ESE_GZ_EF100_EV_MCDI 0 ], 8) ]
       = Some r)
    /\ phase_post (mk_efx_nic 0 false) (mk_channel 0 true 1 0 (ring_of [])) r
    /\ (wraps 1 (ev_trace r) = 1%nat ->
        test_bit 0 (evq_phases (ev_nic r)) = negb (test_bit 0 0))
    /\ (wraps 1 (ev_trace r) = 2%nat ->
        test_bit 0 (evq_phases (ev_nic r)) = test_bit 0 0)
    /\ (Z.of_nat (length (ev_trace r)) = 2 ^ 1 ->
        test_bit 0 (evq_phases (ev_nic r)) = negb (test_bit 0 0))
    /\ (Z.of_nat (length (ev_trace r)) = 2 * 2 ^ 1 ->
        test_bit 0 (evq_phases (ev_nic r)) = test_bit 0 0).
Proof.
  apply (proj1 ev_process_phase_toggles_per_wrap nat counting_externals
           (mk_efx_nic 0 false) 0%nat
           (mk_channel 0 true 1 0 (ring_of []))
           1
           [ (ring_of [ mk_event false ESE_GZ_EF100_EV_RX_PKTS 0;
                        mk_event false ESE_GZ_EF100_EV_TX_COMPLETION 0 ], 8);
             (ring_of [ mk_event true ESE_GZ_EF100_EV_RX_PKTS 0;
                        mk_event true ESE_GZ_EF100_EV_MCDI 0 ], 8) ]).
  - lia.
  - reflexivity.
  - cbn. lia.
  - cbn. lia.
Defined.

End EvqFacts.

(** ** The datapath capability query *)

Module CapsFacts.
Import Caps.

(** C8: when the response to the capability query is shorter than
    [MC_CMD_GET_CAPABILITIES_V4_OUT_LEN], [efx_ef100_init_datapath_caps]
    fails and the capability state - both flag words, the stride, the
    feature words and the number of MAC statistics - is what it was:
    nothing is applied on this path.  The error is -EIO when the query
    itself succeeded, and the error of the query otherwise. *)
Theorem init_datapath_caps_short_response `{mcdi_pcol}
    (window_mode_to_stride : efx_nic -> Z -> Z * efx_nic)
    (efx : efx_nic) (rpc : rpc_result) :
  outlen rpc < MC_CMD_GET_CAPABILITIES_V4_OUT_LEN ->
  snd (efx_ef100_init_datapath_caps window_mode_to_stride efx rpc) = efx
  /\ fst (efx_ef100_init_datapath_caps window_mode_to_stride efx rpc) <> 0
  /\ (rpc_rc rpc = 0 ->
      efx_ef100_init_datapath_caps window_mode_to_stride efx rpc
      = (- EIO, efx))
  /\ (rpc_rc rpc <> 0 ->
      efx_ef100_init_datapath_caps window_mode_to_stride efx rpc
      = (rpc_rc rpc, efx)).
Proof.
  intros Hlen. unfold efx_ef100_init_datapath_caps.
  destruct (Z.ltb_spec (outlen rpc) MC_CMD_GET_CAPABILITIES_V4_OUT_LEN);
    [|lia].
  destruct (Z.eqb_spec (rpc_rc rpc) 0) as [Hrc|Hrc]; cbn [negb fst snd].
  - repeat split; try reflexivity; try discriminate. contradiction.
  - repeat split; try reflexivity; try assumption. contradiction.
Qed.

Lemma init_datapath_caps_short_response_witness :
  snd (@efx_ef100_init_datapath_caps example_pcol example_stride
         (mk_efx_nic 1 2 3 4 5 6) (mk_rpc_result 0 (repeat 255 77) 77))
  = mk_efx_nic 1 2 3 4 5 6
  /\ fst (@efx_ef100_init_datapath_caps example_pcol example_stride
            (mk_efx_nic 1 2 3 4 5 6) (mk_rpc_result 0 (repeat 255 77) 77))
     <> 0
  /\ (0 = 0 ->
      @efx_ef100_init_datapath_caps example_pcol example_stride
        (mk_efx_nic 1 2 3 4 5 6) (mk_rpc_result 0 (repeat 255 77) 77)
      = (- EIO, mk_efx_nic 1 2 3 4 5 6))
  /\ (0 <> 0 ->
      @efx_ef100_init_datapath_caps example_pcol example_stride
        (mk_efx_nic 1 2 3 4 5 6) (mk_rpc_result 0 (repeat 255 77) 77)
      = (0, mk_efx_nic 1 2 3 4 5 6)).
Proof.
  apply (@init_datapath_caps_short_response example_pcol example_stride
           (mk_efx_nic 1 2 3 4 5 6) (mk_rpc_result 0 (repeat 255 77) 77)).
  cbn. lia.
Defined.

(** A response of full length is applied: the same call with 78 bytes sets
    the flag words, the stride, the TSO features and the statistics
    count. *)
Example full_response_is_applied :
  @efx_ef100_init_datapath_caps example_pcol example_stride
    (mk_efx_nic 1 2 3 4 5 6) (mk_rpc_result 0 (repeat 255 78) 78)
  = (0, mk_efx_nic 0xffffffff 0xffffffff (8192 * 2 ^ 255)
          (Z.lor 4 (Z.lor (2 ^ 16) (2 ^ 20))) (Z.lor 5 (2 ^ 16)) 0xffff).
Proof. reflexivity. Qed.

End CapsFacts.

(** ** The reset sequence *)

Module ResetFacts.
Import ResetSeq.

(** The calls and the result of a full reset, in closed form. *)
Lemma reset_all_run env e :
  ef100_reset env RESET_TYPE_ALL (mk_machine e [])
  = if negb (mcdi_reset_rc env =? 0) then
      (mcdi_reset_rc env,
       mk_machine
         (mk_efx_nic (state e) false (reset_pending e) (last_reset e)
            (has_attach_reps e))
         ([dev_close] ++ teardown_calls (filters_up e) ++ reset_calls))
    else
      (if negb (rebuild_rc env =? 0) then rebuild_rc env
       else dev_open_rc env,
       mk_machine
         (mk_efx_nic (state e) (rebuild_rc env =? 0) (reset_pending e)
            (jiffies env) (has_attach_reps e))
         ([dev_close] ++ teardown_calls (filters_up e) ++ reset_calls
          ++ reattach_calls (has_attach_reps e)
          ++ rebuild_calls env
          ++ (if rebuild_rc env =? 0 then reopen_calls else []))).
Proof.
  destruct e as [st up pend lr reps].
  unfold ef100_reset, ef100_filter_table_down, ef100_filter_table_up,
    reattach, rebuild_calls, rebuild_rc, teardown_calls, reattach_calls,
    reset_calls, reopen_calls.
  cbn [state filters_up reset_pending last_reset has_attach_reps].
  destruct up, reps, (mcdi_reset_rc env =? 0),
    (add_vlan_rc env EFX_FILTER_VID_UNSPEC =? 0) eqn:Hu,
    (add_vlan_rc env (VID 0) =? 0) eqn:H0;
    cbn; rewrite ?Hu, ?H0; cbn; rewrite ?Hu, ?H0; reflexivity.
Qed.

(** C9: a full reset whose firmware-level reset command fails returns the
    error of that command; the filter table is down, the reset timestamp
    is untouched, and the calls made are those of closing the device, of
    the tear-down and of the reset command - no re-attach, no filter
    rebuild and no reopen.  In general the calls of a full reset are those
    of tear-down, reset, re-attach, rebuild and reopen in this order, cut
    off after the first step that fails, and the result is the return code
    of that step (or of the reopen). *)
Theorem reset_all_aborts_on_failure env e :
  (mcdi_reset_rc env <> 0 ->
   fst (ef100_reset env RESET_TYPE_ALL (mk_machine e []))
   = mcdi_reset_rc env
   /\ filters_up (efx (snd (ef100_reset env RESET_TYPE_ALL
                              (mk_machine e [])))) = false
   /\ last_reset (efx (snd (ef100_reset env RESET_TYPE_ALL
                              (mk_machine e [])))) = last_reset e
   /\ calls (snd (ef100_reset env RESET_TYPE_ALL (mk_machine e [])))
      = [dev_close] ++ teardown_calls (filters_up e) ++ reset_calls
   /\ existsb recovery_call
        (calls (snd (ef100_reset env RESET_TYPE_ALL (mk_machine e []))))
      = false)
  /\ calls (snd (ef100_reset env RESET_TYPE_ALL (mk_machine e [])))
     = [dev_close] ++ teardown_calls (filters_up e) ++ reset_calls
       ++ (if mcdi_reset_rc env =? 0
           then reattach_calls (has_attach_reps e)
                ++ rebuild_calls env
                ++ (if rebuild_rc env =? 0 then reopen_calls else [])
           else [])
  /\ fst (ef100_reset env RESET_TYPE_ALL (mk_machine e []))
     = (if negb (mcdi_reset_rc env =? 0) then mcdi_reset_rc env
        else if negb (rebuild_rc env =? 0) then rebuild_rc env
        else dev_open_rc env).
Proof.
  rewrite reset_all_run.
  destruct (Z.eqb_spec (mcdi_reset_rc env) 0) as [Hrc|Hrc]; cbn [negb].
  - split; [intros Hne; contradiction|].
    cbn [fst snd calls]. split; reflexivity.
  - split; [intros _|].
    + cbn [fst snd calls efx filters_up last_reset].
      repeat split; try reflexivity.
      unfold teardown_calls, reset_calls.
      destruct (filters_up e); reflexivity.
    + cbn [fst snd calls]. rewrite !app_nil_r. split; reflexivity.
Qed.

Lemma reset_all_aborts_on_failure_witness :
  fst (ef100_reset
         (mk_environment (- EIO) (fun _ => 0) 0 1000) RESET_TYPE_ALL
         (mk_machine (mk_efx_nic STATE_NET_UP true (fun _ => true) 7 true)
            []))
  = - EIO
  /\ filters_up
       (efx (snd (ef100_reset
                    (mk_environment (- EIO) (fun _ => 0) 0 1000)
                    RESET_TYPE_ALL
                    (mk_machine
                       (mk_efx_nic STATE_NET_UP true (fun _ => true) 7 true)
                       [])))) = false
  /\ last_reset
       (efx (snd (ef100_reset
                    (mk_environment (- EIO) (fun _ => 0) 0 1000)
                    RESET_TYPE_ALL
                    (mk_machine
                       (mk_efx_nic STATE_NET_UP true (fun _ => true) 7 true)
                       [])))) = 7
  /\ calls (snd (ef100_reset
                   (mk_environment (- EIO) (fun _ => 0) 0 1000)
                   RESET_TYPE_ALL
                   (mk_machine
                      (mk_efx_nic STATE_NET_UP true (fun _ => true) 7 true)
                      [])))
     = [dev_close] ++ teardown_calls true ++ reset_calls
  /\ existsb recovery_call
       (calls (snd (ef100_reset
                      (mk_environment (- EIO) (fun _ => 0) 0 1000)
                      RESET_TYPE_ALL
                      (mk_machine
                         (mk_efx_nic STATE_NET_UP true (fun _ => true) 7
                            true) []))))
     = false.
Proof.
  apply (proj1 (reset_all_aborts_on_failure
                  (mk_environment (- EIO) (fun _ => 0) 0 1000)
                  (mk_efx_nic STATE_NET_UP true (fun _ => true) 7 true))).
  cbn. discriminate.
Defined.

End ResetFacts.

(** ** The design-parameter scan as a whole *)

Module TlvRunFacts.
Import Tlv TlvFacts TlvRun.

Lemma feed_rc_cases st byte :
  fst (ef100_tlv_feed st byte) = 0
  \/ fst (ef100_tlv_feed st byte) = - EOPNOTSUPP.
Proof.
  unfold ef100_tlv_feed. destruct (state st); cbn [fst]; auto.
  destruct (8 <? u8 byte); cbn [fst]; auto.
Qed.

Lemma lor_below a b n :
  0 <= n -> 0 <= a < 2 ^ n -> 0 <= b < 2 ^ n -> 0 <= Z.lor a b < 2 ^ n.
Proof.
  intros Hn Ha Hb. split; [apply Z.lor_nonneg; lia|].
  destruct (Z.eq_dec (Z.lor a b) 0) as [->|Hne].
  - apply Z.pow_pos_nonneg; lia.
  - assert (0 <= Z.lor a b) by (apply Z.lor_nonneg; lia).
    assert (0 < Z.lor a b) by lia.
    assert (Hn0 : 0 < n).
    { destruct (Z.eq_dec n 0) as [->|]; [|lia].
      change (2 ^ 0) with 1 in Ha, Hb.
      exfalso. apply Hne. replace a with 0 by lia. replace b with 0 by lia.
      reflexivity. }
    apply Z.log2_lt_pow2; [assumption|].
    rewrite Z.log2_lor by lia.
    apply Z.max_lub_lt.
    + destruct (Z.eq_dec a 0) as [->|]; [cbn; lia|].
      apply Z.log2_lt_pow2; lia.
    + destruct (Z.eq_dec b 0) as [->|]; [cbn; lia|].
      apply Z.log2_lt_pow2; lia.
Qed.

(** What holds of every reader the scan can hold. *)
Lemma reachable_inv st :
  reachable st ->
  0 <= type st < 2 ^ 15
  /\ 0 <= len st <= 8
  /\ match state st with
     | EF100_TLV_TYPE => 0 <= value st < 2 ^ (8 * len st)
     | EF100_TLV_TYPE_CONT =>
         type st < 128 /\ value st = 0 /\ value_offset st = 0
     | EF100_TLV_LENGTH => value st = 0 /\ value_offset st = 0
     | EF100_TLV_VALUE =>
         0 <= value_offset st < len st
         /\ 0 <= value st < 2 ^ (8 * value_offset st)
     end.
Proof.
  induction 1 as [|st byte st' Hreach IH Hbyte Hfeed].
  - cbn. lia.
  - destruct IH as (Hty & Hlen & Hst).
    unfold ef100_tlv_feed in Hfeed.
    destruct (state st) eqn:Es.
    + (* TYPE *)
      injection Hfeed as <-. cbn [state type len value value_offset].
      pose proof (land_127_range byte) as Hl.
      change 0x7f with 127.
      rewrite u16_small by lia.
      destruct (Z.land byte 128 =? 0); cbn; lia.
    + (* TYPE_CONT *)
      destruct Hst as (Ht & Hv & Ho).
      assert (Hs : 0 <= Z.shiftl byte 7 < 2 ^ 15).
      { rewrite Z.shiftl_mul_pow2 by lia. change (2 ^ 7) with 128.
        change (2 ^ 15) with 32768. lia. }
      pose proof (lor_below (type st) (Z.shiftl byte 7) 15
                    ltac:(lia) Hty Hs) as Hlor.
      remember (Z.lor (type st) (Z.shiftl byte 7)) as t eqn:Et.
      clear Et. injection Hfeed as <-.
      cbn [state type len value value_offset].
      change (2 ^ 15) with 32768 in Hlor |- *.
      rewrite u16_small by lia. lia.
    + (* LENGTH *)
      rewrite (u8_small byte) in Hfeed by lia.
      destruct (Z.ltb_spec 8 byte); [discriminate Hfeed|].
      injection Hfeed as <-. cbn [state type len value value_offset].
      destruct Hst as (Hv & Ho).
      destruct (Z.eqb_spec byte 0) as [->|Hnz].
      * rewrite Hv. cbn. lia.
      * rewrite Hv, Ho. cbn. lia.
    + (* VALUE *)
      injection Hfeed as <-. cbn [state type len value value_offset].
      destruct Hst as (Ho & Hv).
      rewrite (u32_small (value_offset st + 1)) by lia.
      rewrite (u32_small (value_offset st * 8)) by lia.
      assert (Hsh : 0 <= Z.shiftl byte (value_offset st * 8)
                    < 2 ^ (8 * (value_offset st + 1))).
      { rewrite Z.shiftl_mul_pow2 by lia.
        replace (8 * (value_offset st + 1))
          with (8 + value_offset st * 8) by lia.
        rewrite Z.pow_add_r by lia. change (2 ^ 8) with 256.
        assert (0 < 2 ^ (value_offset st * 8))
          by (apply Z.pow_pos_nonneg; lia).
        nia. }
      assert (Hle : 2 ^ (8 * (value_offset st + 1)) <= 2 ^ 64)
        by (apply Z.pow_le_mono_r; lia).
      unfold u64. rewrite Z.mod_small by lia.
      assert (Hv' : 0 <= value st < 2 ^ (8 * (value_offset st + 1))).
      { split; [lia|]. eapply Z.lt_le_trans; [apply Hv|].
        apply Z.pow_le_mono_r; lia. }
      pose proof (lor_below _ _ (8 * (value_offset st + 1))
                    ltac:(lia) Hv' Hsh) as Hlor.
      split; [lia|split; [lia|]].
      destruct (Z.leb_spec (len st) (value_offset st + 1)).
      * replace (len st) with (value_offset st + 1) by lia. exact Hlor.
      * split; [lia|exact Hlor].
Qed.

(** X1: every reader that [ef100_tlv_feed] can be handed in the scan -
    the initial reader after any number of successful feeds - has a type
    below [2 ^ 15], a length of at most 8 and a value below [2 ^ 64].  In
    the VALUE state the number of value bytes read is below the declared
    length, so the next byte is shifted by at most 56 bits: the decoder
    never shifts by 64 bits or more and never loses a bit of the value.
    When a triple is complete (TYPE state) its value fits the declared
    number of bytes. *)
Theorem tlv_reader_stays_in_range st :
  reachable st ->
  0 <= type st < 2 ^ 15
  /\ 0 <= len st <= 8
  /\ 0 <= value st < 2 ^ 64
  /\ (state st = EF100_TLV_VALUE ->
      0 <= value_offset st < len st /\ value_offset st * 8 <= 56)
  /\ (state st = EF100_TLV_TYPE -> value st < 2 ^ (8 * len st)).
Proof.
  intros Hreach. destruct (reachable_inv st Hreach) as (Hty & Hlen & Hst).
  split; [exact Hty|split; [exact Hlen|]].
  assert (Hpow : forall n, 0 <= n <= 8 -> 2 ^ (8 * n) <= 2 ^ 64)
    by (intros n Hn; apply Z.pow_le_mono_r; lia).
  destruct (state st); split; try (split; intros E; try discriminate E).
  - pose proof (Hpow (len st) Hlen). lia.
  - lia.
  - destruct Hst as (_ & -> & _). cbn. lia.
  - destruct Hst as (-> & _). cbn. lia.
  - destruct Hst as (Ho & Hv). pose proof (Hpow (value_offset st)). lia.
  - lia.
Qed.

Lemma tlv_reader_stays_in_range_witness :
  let st := mk_tlv_state EF100_TLV_VALUE 0x34 1 5 2 in
  reachable st
  /\ 0 <= type st < 2 ^ 15
  /\ 0 <= len st <= 8
  /\ 0 <= value st < 2 ^ 64
  /\ (state st = EF100_TLV_VALUE ->
      0 <= value_offset st < len st /\ value_offset st * 8 <= 56)
  /\ (state st = EF100_TLV_TYPE -> value st < 2 ^ (8 * len st)).
Proof.
  intros st.
  assert (Hr : reachable st).
  { apply (reach_feed (mk_tlv_state EF100_TLV_VALUE 0 0 5 2) 0x34);
      [|lia|reflexivity].
    apply (reach_feed (mk_tlv_state EF100_TLV_LENGTH 0 0 5 0) 2);
      [|lia|reflexivity].
    apply (reach_feed reader0 5); [constructor|lia|reflexivity]. }
  split; [exact Hr|exact (tlv_reader_stays_in_range st Hr)].
Defined.

Section RunFacts.
Context `{regs : ef100_regs}.

Lemma scan_rc_cases : forall bytes reader nic,
  fst (fst (tlv_scan ef100_process_design_param reader nic bytes)) = 0
  \/ fst (fst (tlv_scan ef100_process_design_param reader nic bytes))
     = - EOPNOTSUPP.
Proof.
  induction bytes as [|b bytes IH]; intros reader nic; cbn [tlv_scan].
  - left. reflexivity.
  - unfold tlv_step.
    pose proof (feed_rc_cases reader b) as Hfeed.
    destruct (ef100_tlv_feed reader b) as [rc rd]. cbn [fst] in Hfeed.
    destruct ((rc =? 0) && is_TYPE (state rd)).
    + pose proof (process_rc_cases nic rd) as Hproc.
      destruct (ef100_process_design_param nic rd) as [rc1 nic1].
      cbn [fst] in Hproc.
      destruct (Z.eqb_spec rc1 0); [apply IH|cbn [fst]; lia].
    + destruct (Z.eqb_spec rc 0); [apply IH|cbn [fst]; lia].
Qed.

(** The outer loop works in whole dwords: with [n] dwords needed to hold
    the bytes from [off] up to the declared length, it is the byte scan
    over all the bytes of those dwords. *)
Lemma params_loop_dwords : forall n params_tlv total_len off reader nic,
  0 <= off -> off + 4 * Z.of_nat n < 2 ^ 32 ->
  total_len <= off + 4 * Z.of_nat n ->
  ((0 < n)%nat -> off + 4 * (Z.of_nat n - 1) < total_len) ->
  exists r,
    (forall fuel, (n < fuel)%nat ->
       params_loop fuel params_tlv total_len 0 off reader nic = Some r)
    /\ tlv_scan ef100_process_design_param reader nic
         (window_bytes params_tlv off n)
       = (scan_rc r, scan_reader r, scan_nic r)
    /\ (scan_rc r = 0 -> scan_offset r = off + 4 * Z.of_nat n)
    /\ (scan_rc r <> 0 -> scan_offset r < off + 4 * Z.of_nat n).
Proof.
  induction n as [|n IH]; intros params_tlv total_len off reader nic
                                 Hoff Hlim Hup Hlow.
  - exists (mk_scan_result 0 off reader nic). split; [|split; [|split]].
    + intros [|fuel] Hf; [lia|]. cbn [params_loop].
      destruct (Z.ltb_spec off total_len); [lia|reflexivity].
    + reflexivity.
    + intros _. cbn. lia.
    + cbn. intros Hne. lia.
  - specialize (Hlow ltac:(lia)).
    pose (d := dword_loop 4 (u32 (params_tlv off)) off reader nic).
    destruct (dword_loop_scan 4 (u32 (params_tlv off)) off reader nic)
      as (Hscan & Hend & Hcut); [lia|lia|]. fold d in Hscan, Hend, Hcut.
    destruct (Z.eqb_spec (scan_rc d) 0) as [Hrc|Hrc].
    + destruct (IH params_tlv total_len (off + 4) (scan_reader d)
                  (scan_nic d)) as (r & Hfuel & Hrun & Hoffs & Hcuts);
        try lia.
      exists r. split; [|split; [|split]].
      * intros [|fuel] Hf; [lia|]. cbn [params_loop]. fold d.
        destruct (Z.ltb_spec off total_len); [|lia].
        destruct (Z.eqb_spec (scan_rc d) 0); [|contradiction].
        rewrite Hrc, (Hend Hrc). apply Hfuel. lia.
      * cbn [window_bytes]. rewrite tlv_scan_app, Hscan, Hrc.
        cbn [Z.eqb]. exact Hrun.
      * intros H0. rewrite (Hoffs H0). lia.
      * intros Hne. specialize (Hcuts Hne). lia.
    + exists d. split; [|split; [|split]].
      * intros [|fuel] Hf; [lia|]. cbn [params_loop]. fold d.
        destruct (Z.ltb_spec off total_len); [|lia].
        destruct (Z.eqb_spec (scan_rc d) 0); [contradiction|reflexivity].
      * cbn [window_bytes]. rewrite tlv_scan_app, Hscan.
        destruct (Z.eqb_spec (scan_rc d) 0); [contradiction|reflexivity].
      * contradiction.
      * intros _. specialize (Hcut Hrc). lia.
Qed.

Lemma dwords_of_spec total_len :
  0 <= total_len ->
  total_len <= 4 * Z.of_nat (dwords_of total_len)
  /\ 4 * Z.of_nat (dwords_of total_len) < total_len + 4.
Proof.
  intros H. unfold dwords_of.
  rewrite Z2Nat.id by (apply Z.div_pos; lia).
  pose proof (Z.div_mod (total_len + 3) 4 ltac:(lia)).
  pose proof (Z.mod_pos_bound (total_len + 3) 4 ltac:(lia)). lia.
Qed.

(** The scan of a window: it returns, and it is the byte scan over the
    bytes of the dwords that hold the declared length. *)
Lemma check_design_params_run nic params_tlv total_len :
  0 <= total_len <= 2 ^ 32 - 4 ->
  exists r,
    (forall fuel, (dwords_of total_len < fuel)%nat ->
       ef100_check_design_params fuel params_tlv total_len nic = Some r)
    /\ tlv_scan ef100_process_design_param reader0 nic
         (window_bytes params_tlv 0 (dwords_of total_len))
       = (scan_rc r, scan_reader r, scan_nic r)
    /\ (scan_rc r = 0 -> scan_offset r = 4 * Z.of_nat (dwords_of total_len))
    /\ (scan_rc r <> 0 ->
        scan_offset r < 4 * Z.of_nat (dwords_of total_len)).
Proof.
  intros Hlen. change (2 ^ 32) with 4294967296 in Hlen.
  pose proof (dwords_of_spec total_len ltac:(lia)) as [Hup Hlow].
  destruct (params_loop_dwords (dwords_of total_len) params_tlv total_len 0
              reader0 nic) as (r & Hfuel & Hrun & Hoff & Hcut);
    try (change (2 ^ 32) with 4294967296); try lia.
  exists r. split; [|split; [exact Hrun|split]].
  - intros fuel Hf. unfold ef100_check_design_params.
    rewrite u32_small by lia. apply Hfuel. exact Hf.
  - intros H0. rewrite (Hoff H0). lia.
  - intros Hne. specialize (Hcut Hne). lia.
Qed.

(** X2: for every declared length up to [2 ^ 32 - 4], a multiple of 4 or
    not, [ef100_check_design_params] returns (one unit of fuel per dword,
    plus one, is enough), and its result is 0 or -EOPNOTSUPP.  It works in
    whole dwords: it is the byte scan over all four bytes of each dword
    that holds a declared byte, so up to three bytes past a declared
    length that is not a multiple of 4 are decoded as well; on success
    the offset ends at the declared length rounded up to a multiple of 4,
    and on failure before it. *)
Theorem check_design_params_whole_dwords nic params_tlv total_len :
  0 <= total_len <= 2 ^ 32 - 4 ->
  exists r,
    (forall fuel, (dwords_of total_len < fuel)%nat ->
       ef100_check_design_params fuel params_tlv total_len nic = Some r)
    /\ (scan_rc r = 0 \/ scan_rc r = - EOPNOTSUPP)
    /\ tlv_scan ef100_process_design_param reader0 nic
         (window_bytes params_tlv 0 (dwords_of total_len))
       = (scan_rc r, scan_reader r, scan_nic r)
    /\ (scan_rc r = 0 ->
        scan_offset r = 4 * Z.of_nat (dwords_of total_len)
        /\ total_len <= scan_offset r < total_len + 4)
    /\ (scan_rc r <> 0 ->
        scan_offset r < 4 * Z.of_nat (dwords_of total_len)).
Proof.
  intros Hlen.
  destruct (check_design_params_run nic params_tlv total_len Hlen)
    as (r & Hfuel & Hrun & Hoff & Hcut).
  pose proof (dwords_of_spec total_len ltac:(lia)) as [Hup Hlow].
  exists r. split; [exact Hfuel|split; [|split; [exact Hrun|split]]].
  - pose proof (scan_rc_cases
                  (window_bytes params_tlv 0 (dwords_of total_len))
                  reader0 nic) as Hrc.
    rewrite Hrun in Hrc. exact Hrc.
  - intros H0. rewrite (Hoff H0). lia.
  - exact Hcut.
Qed.

End RunFacts.

Lemma check_design_params_whole_dwords_witness :
  exists r,
    (forall fuel, (dwords_of 5 < fuel)%nat ->
       @ef100_check_design_params example_regs fuel
         (window_of_bytes [0x05; 0x02; 0x34; 0x12; 12; 1; 1; 0])
         5 design_params0 = Some r)
    /\ (scan_rc r = 0 \/ scan_rc r = - EOPNOTSUPP)
    /\ tlv_scan (@ef100_process_design_param example_regs) reader0
         design_params0
         (window_bytes
            (window_of_bytes
               [0x05; 0x02; 0x34; 0x12; 12; 1; 1; 0])
            0 (dwords_of 5))
       = (scan_rc r, scan_reader r, scan_nic r)
    /\ (scan_rc r = 0 ->
        scan_offset r = 4 * Z.of_nat (dwords_of 5)
        /\ 5 <= scan_offset r < 5 + 4)
    /\ (scan_rc r <> 0 -> scan_offset r < 4 * Z.of_nat (dwords_of 5)).
Proof.
  apply (@check_design_params_whole_dwords example_regs design_params0
           (window_of_bytes [0x05; 0x02; 0x34; 0x12; 12; 1; 1; 0])
           5).
  cbn. lia.
Defined.

(** With a declared length of 5 the scan still decodes the three bytes
    that fill up the second dword.  Here they complete a COMPAT triple
    with value 1, and the scan fails at offset 6, past the declared
    length. *)
Example whole_dwords_run :
  @ef100_check_design_params example_regs 3
    (window_of_bytes [0x05; 0x02; 0x34; 0x12; 12; 1; 1; 0])
    5 design_params0
  = Some (mk_scan_result (- EOPNOTSUPP) 6
            (mk_tlv_state EF100_TLV_TYPE 1 1 12 1)
            (mk_design_params 0x1234 0 0 0 0 0)).
Proof. vm_compute. reflexivity. Qed.

Section PrefixFacts.
Context `{regs : ef100_regs}.





(** The interpreter keeps the TSO parameters within their limits. *)
Lemma process_keeps_bounded nic reader :
  0 <= GSO_MAX_SIZE < 2 ^ 64 ->
  params_bounded nic ->
  params_bounded (snd (ef100_process_design_param nic reader)).
Proof.
  intros Hgso (H1 & H2 & H3 & H4).
  assert (Hmin : forall v m, 0 <= m < 2 ^ 64 -> 0 <= min_u64 v m <= m).
  { intros v m Hm. unfold min_u64, u64.
    pose proof (Z.mod_pos_bound v (2 ^ 64) ltac:(lia)).
    rewrite (Z.mod_small m) by lia. lia. }
  pose proof (Hmin (value reader) 0xffff ltac:(lia)) as H16.
  pose proof (Hmin (value reader) GSO_MAX_SIZE Hgso) as Hg.
  unfold ef100_process_design_param.
  repeat match goal with
         | |- context [if ?c then _ else _] => destruct c
         end; cbn [snd]; unfold params_bounded;
    cbn [tso_max_hdr_len tso_max_payload_len tso_max_payload_num_segs
         tso_max_frames]; repeat split; lia.
Qed.

Lemma scan_keeps_bounded : forall bytes reader nic,
  0 <= GSO_MAX_SIZE < 2 ^ 64 ->
  params_bounded nic ->
  params_bounded (snd (tlv_scan ef100_process_design_param reader nic bytes)).
Proof.
  induction bytes as [|b bytes IH]; intros reader nic Hgso Hb;
    cbn [tlv_scan].
  - exact Hb.
  - unfold tlv_step.
    destruct (ef100_tlv_feed reader b) as [rc rd1].
    destruct ((rc =? 0) && is_TYPE (state rd1)).
    + pose proof (process_keeps_bounded nic rd1 Hgso Hb) as Hb1.
      destruct (ef100_process_design_param nic rd1) as [rc1 nic1].
      cbn [snd] in Hb1.
      destruct (rc1 =? 0); [apply IH; assumption|exact Hb1].
    + destruct (rc =? 0); [apply IH; assumption|exact Hb].
Qed.

(** X4: whatever the register window holds, [ef100_check_design_params]
    keeps the TSO parameters within their limits: if the maximum header
    length, the maximum number of payload segments and the maximum number
    of frames were at most 0xffff and the maximum payload length at most
    [GSO_MAX_SIZE] before the scan, they are after it, whether the scan
    succeeds or fails. *)
Theorem check_design_params_keeps_limits nic params_tlv total_len :
  0 <= total_len <= 2 ^ 32 - 4 ->
  0 <= GSO_MAX_SIZE < 2 ^ 64 ->
  params_bounded nic ->
  exists r,
    (forall fuel, (dwords_of total_len < fuel)%nat ->
       ef100_check_design_params fuel params_tlv total_len nic = Some r)
    /\ params_bounded (scan_nic r).
Proof.
  intros Hlen Hgso Hb.
  destruct (check_design_params_run nic params_tlv total_len Hlen)
    as (r & Hfuel & Hrun & _).
  exists r. split; [exact Hfuel|].
  pose proof (scan_keeps_bounded
                (window_bytes params_tlv 0 (dwords_of total_len))
                reader0 nic Hgso Hb) as Hk.
  rewrite Hrun in Hk. exact Hk.
Qed.

End PrefixFacts.


Lemma check_design_params_keeps_limits_witness :
  exists r,
    (forall fuel, (dwords_of 12 < fuel)%nat ->
       @ef100_check_design_params example_regs fuel
         (window_of_bytes
            [0x09; 0x04; 0xff; 0xff; 0xff; 0xff; 0x0b; 0x03; 0xff; 0xff;
             0xff; 0x00])
         12 design_params0 = Some r)
    /\ @params_bounded example_regs (scan_nic r).
Proof.
  apply (@check_design_params_keeps_limits example_regs design_params0
           (window_of_bytes
              [0x09; 0x04; 0xff; 0xff; 0xff; 0xff; 0x0b; 0x03; 0xff; 0xff;
               0xff; 0x00])
           12).
  - cbn. lia.
  - cbn. lia.
  - unfold params_bounded. cbn. lia.
Defined.

(** A window that reports a maximum payload length of 0xffffffff and a
    maximum frame count of 0xffffff: both are stored clamped. *)
Example limits_run :
  option_map (fun r => (scan_rc r, scan_nic r))
    (@ef100_check_design_params example_regs 4
       (window_of_bytes
          [0x09; 0x04; 0xff; 0xff; 0xff; 0xff; 0x0b; 0x03; 0xff; 0xff;
           0xff; 0x00])
       12 design_params0)
  = Some (0, mk_design_params 0 65536 0 65535 65536 0).
Proof. vm_compute. reflexivity. Qed.

End TlvRunFacts.

(** ** Event-queue set-up and the MCDI look-ahead *)

Module EvqScanFacts.
Import Evq EvqFacts EvqScan.

Lemma pending_loop_skip : forall j fuel c ph rp,
  (forall i, (i < j)%nat ->
     passed_over ph (efx_event c (u32 (rp + Z.of_nat i)))) ->
  0 <= rp < 2 ^ 32 ->
  ev_mcdi_pending_loop (j + fuel) c ph rp
  = ev_mcdi_pending_loop fuel c ph (u32 (rp + Z.of_nat j)).
Proof.
  induction j as [|j IH]; intros fuel c ph rp Hpass Hrp.
  - cbn [Nat.add Z.of_nat]. rewrite Z.add_0_r.
    change (2 ^ 32) with 4294967296 in Hrp.
    rewrite u32_small by lia. reflexivity.
  - cbn [Nat.add ev_mcdi_pending_loop].
    destruct (Hpass 0%nat ltac:(lia)) as [Hph Hty].
    cbn [Z.of_nat] in Hph, Hty. rewrite Z.add_0_r in Hph, Hty.
    change (2 ^ 32) with 4294967296 in Hrp.
    rewrite u32_small in Hph, Hty by lia.
    rewrite Hph, Bool.eqb_reflx. cbn [negb].
    assert (Hnext : ev_mcdi_pending_loop (j + fuel) c ph (u32 (rp + 1))
                    = ev_mcdi_pending_loop fuel c ph
                        (u32 (rp + Z.of_nat (S j)))).
    { assert (Hadd : forall i, u32 (u32 (rp + 1) + Z.of_nat i)
                                = u32 (rp + Z.of_nat (S i))).
      { intros i. unfold u32. rewrite Z.add_mod_idemp_l by discriminate.
        f_equal. lia. }
      rewrite IH.
      - rewrite Hadd. reflexivity.
      - intros i Hi. rewrite Hadd. apply Hpass. lia.
      - unfold u32. apply Z.mod_pos_bound. reflexivity. }
    destruct (ev_type (efx_event c rp)); try exact Hnext.
    exfalso. apply Hty. reflexivity.
Qed.

(** X5: [ef100_ev_mcdi_pending] on an enabled channel looks through the
    ring from the read pointer on, past every entry that has the stored
    phase of the channel and is not an MCDI event, and decides at the
    first entry that is not of this kind.  If [j] entries are passed over
    it does not return before it has looked at them, and with more than
    [j] units of fuel it returns false if the next entry does not have
    the stored phase, and true if it has the stored phase and is an MCDI
    event. *)
Theorem ev_mcdi_pending_first efx c (j : nat) :
  enabled c = true -> 0 <= eventq_read_ptr c < 2 ^ 32 ->
  (forall i, (i < j)%nat ->
     passed_over (test_bit (channel c) (evq_phases efx))
       (efx_event c (u32 (eventq_read_ptr c + Z.of_nat i)))) ->
  let ev := efx_event c (u32 (eventq_read_ptr c + Z.of_nat j)) in
  ef100_ev_mcdi_pending j efx c = None
  /\ (ev_phase ev <> test_bit (channel c) (evq_phases efx) ->
      forall fuel, (j < fuel)%nat ->
        ef100_ev_mcdi_pending fuel efx c = Some false)
  /\ (ev_phase ev = test_bit (channel c) (evq_phases efx) ->
      ev_type ev = ESE_GZ_EF100_EV_MCDI ->
      forall fuel, (j < fuel)%nat ->
        ef100_ev_mcdi_pending fuel efx c = Some true).
Proof.
  intros Hen Hrp Hpass ev.
  unfold ef100_ev_mcdi_pending. rewrite Hen. cbn [negb].
  split; [|split].
  - replace j with (j + 0)%nat at 1 by lia.
    rewrite pending_loop_skip by assumption. reflexivity.
  - intros Hmis fuel Hf.
    replace fuel with (j + S (fuel - S j))%nat by lia.
    rewrite pending_loop_skip by assumption.
    cbn [ev_mcdi_pending_loop]. fold ev.
    destruct (Bool.eqb_spec (ev_phase ev)
                (test_bit (channel c) (evq_phases efx)));
      [contradiction|reflexivity].
  - intros Hph Hty fuel Hf.
    replace fuel with (j + S (fuel - S j))%nat by lia.
    rewrite pending_loop_skip by assumption.
    cbn [ev_mcdi_pending_loop]. fold ev.
    rewrite Hph, Bool.eqb_reflx, Hty. reflexivity.
Qed.

Lemma ev_mcdi_pending_first_witness :
  let efx := mk_efx_nic 0 false in
  let c := mk_channel 0 true 3 2
             (ring_of [ mk_event true ESE_GZ_EF100_EV_RX_PKTS 0;
                        mk_event true ESE_GZ_EF100_EV_MCDI 0;
                        mk_event false ESE_GZ_EF100_EV_RX_PKTS 0;
                        mk_event false ESE_GZ_EF100_EV_TX_COMPLETION 0 ]) in
  let ev := efx_event c (u32 (eventq_read_ptr c + Z.of_nat 2)) in
  ef100_ev_mcdi_pending 2 efx c = None
  /\ (ev_phase ev <> test_bit (channel c) (evq_phases efx) ->
      forall fuel, (2 < fuel)%nat ->
        ef100_ev_mcdi_pending fuel efx c = Some false)
  /\ (ev_phase ev = test_bit (channel c) (evq_phases efx) ->
      ev_type ev = ESE_GZ_EF100_EV_MCDI ->
      forall fuel, (2 < fuel)%nat ->
        ef100_ev_mcdi_pending fuel efx c = Some true).
Proof.
  intros efx c.
  apply (ev_mcdi_pending_first efx c 2).
  - reflexivity.
  - cbn. lia.
  - intros [|[|i]] Hi; [| |lia]; split; cbn; try reflexivity; discriminate.
Defined.

(** X6: [ef100_ev_mcdi_pending] reads the expected phase once and does not
    flip it when the pointer wraps, unlike [ef100_ev_process].  On an
    enabled channel whose ring is full of entries that have the stored
    phase and are not MCDI events, it therefore finds no entry to stop at:
    as long as the ring is not written to it does not return, whatever
    the fuel. *)
Theorem ev_mcdi_pending_full_ring efx c k :
  enabled c = true -> 0 <= k -> eventq_mask c = 2 ^ k - 1 ->
  (forall s, 0 <= s < 2 ^ k ->
     passed_over (test_bit (channel c) (evq_phases efx)) (eventq c s)) ->
  forall fuel, ef100_ev_mcdi_pending fuel efx c = None.
Proof.
  intros Hen Hk Hmask Hfull fuel.
  unfold ef100_ev_mcdi_pending. rewrite Hen. cbn [negb].
  generalize (eventq_read_ptr c) as rp.
  induction fuel as [|fuel IH]; intros rp; cbn [ev_mcdi_pending_loop].
  - reflexivity.
  - assert (Hev : passed_over (test_bit (channel c) (evq_phases efx))
                    (efx_event c rp)).
    { unfold efx_event. apply Hfull.
      rewrite Hmask, land_mask_mod by exact Hk.
      apply Z.mod_pos_bound. apply Z.pow_pos_nonneg; lia. }
    destruct Hev as [Hph Hty]. rewrite Hph, Bool.eqb_reflx. cbn [negb].
    destruct (ev_type (efx_event c rp)); try apply IH.
    exfalso. apply Hty. reflexivity.
Qed.

Lemma ev_mcdi_pending_full_ring_witness :
  let efx := mk_efx_nic 0 false in
  let c := mk_channel 0 true 1 1
             (ring_of [ mk_event false ESE_GZ_EF100_EV_RX_PKTS 0;
                        mk_event false ESE_GZ_EF100_EV_TX_COMPLETION 0 ]) in
  enabled c = true
  /\ forall fuel, ef100_ev_mcdi_pending fuel efx c = None.
Proof.
  intros efx c. split; [reflexivity|].
  apply (ev_mcdi_pending_full_ring efx c 1).
  - reflexivity.
  - lia.
  - reflexivity.
  - intros s Hs. change (2 ^ 1) with 2 in Hs.
    assert (Hc : s = 0 \/ s = 1) by lia.
    destruct Hc as [->| ->]; split; cbn; try reflexivity; discriminate.
Defined.

Lemma testbit_one_shifted nr nr' :
  0 <= nr -> Z.testbit (Z.shiftl 1 nr) nr' = (nr =? nr').
Proof.
  intros Hnr. rewrite Z.shiftl_1_l. apply Z.pow2_bits_eqb. exact Hnr.
Qed.

Lemma test_bit_change_bit_other nr nr' bitmap :
  0 <= nr -> nr' <> nr ->
  test_bit nr' (change_bit nr bitmap) = test_bit nr' bitmap.
Proof.
  intros Hnr Hne. unfold test_bit, change_bit.
  rewrite Z.lxor_spec, testbit_one_shifted by exact Hnr.
  destruct (Z.eqb_spec nr nr'); [congruence|]. apply xorb_false_r.
Qed.

Lemma test_bit_clear_bit nr nr' bitmap :
  0 <= nr ->
  test_bit nr' (clear_bit nr bitmap)
  = if nr' =? nr then false else test_bit nr' bitmap.
Proof.
  intros Hnr. unfold test_bit, clear_bit.
  rewrite Z.ldiff_spec, testbit_one_shifted by exact Hnr.
  rewrite (Z.eqb_sym nr nr').
  destruct (nr' =? nr); cbn; [apply andb_false_r|apply andb_true_r].
Qed.

(** X7: the phase bits of the other channels are left alone.  An
    invocation of [ef100_ev_process] on a channel returns with the phase
    bit of every other channel, and the busy-poll setting, as they were;
    [ef100_ev_init] clears the phase bit of its own channel, leaves the
    bits of the others as they were and passes on the result of
    [efx_mcdi_ev_init]. *)
Theorem ev_process_other_channels_untouched
    {World : Type} `{E : evq_externals World}
    (efx : efx_nic) (w : World) (c : efx_channel) (quota k other : Z) :
  0 <= k <= 32 -> eventq_mask c = 2 ^ k - 1 ->
  0 <= eventq_read_ptr c < 2 ^ 32 -> 0 <= channel c ->
  other <> channel c ->
  (exists r,
     (forall fuel, (Z.to_nat (2 ^ k) < fuel)%nat ->
        ef100_ev_process fuel efx w c quota = Some r)
     /\ test_bit other (evq_phases (ev_nic r))
        = test_bit other (evq_phases efx)
     /\ busy_poll (ev_nic r) = busy_poll efx)
  /\ (forall rc,
        fst (ef100_ev_init efx c rc) = rc
        /\ test_bit other (evq_phases (snd (ef100_ev_init efx c rc)))
           = test_bit other (evq_phases efx)
        /\ test_bit (channel c) (evq_phases (snd (ef100_ev_init efx c rc)))
           = false
        /\ busy_poll (snd (ef100_ev_init efx c rc)) = busy_poll efx).
Proof.
  intros Hk Hmask Hrp Hch Hne. split.
  - destruct (ev_process_cases efx w c quota k Hk Hmask Hrp (fun _ => True))
      as [[Hen Hrun]|[Hen (st & Hfuel & _)]]; try (intros; exact I).
    + exists (mk_ev_result 0 efx c w []). split; [intros; apply Hrun|].
      cbn [ev_nic]. split; reflexivity.
    + exists (ev_finish efx c quota st). split; [exact Hfuel|].
      unfold ev_finish. cbn [ev_nic].
      destruct (Bool.eqb (evq_phase st)
                  (test_bit (channel c) (evq_phases efx)));
        cbn [evq_phases busy_poll].
      * split; reflexivity.
      * rewrite test_bit_change_bit_other by assumption.
        split; reflexivity.
  - intros rc. unfold ef100_ev_init. cbn [fst snd evq_phases busy_poll].
    rewrite !test_bit_clear_bit by exact Hch.
    rewrite Z.eqb_refl. destruct (Z.eqb_spec other (channel c));
      [contradiction|]. repeat split.
Qed.

Lemma ev_process_other_channels_untouched_witness :
  let efx := mk_efx_nic 3 false in
  let c := mk_channel 0 true 1 1
             (ring_of [ mk_event true ESE_GZ_EF100_EV_RX_PKTS 0;
                        mk_event true ESE_GZ_EF100_EV_RX_PKTS 0 ]) in
  (exists r,
     (forall fuel, (Z.to_nat (2 ^ 1) < fuel)%nat ->
        @ef100_ev_process nat counting_externals fuel efx 0%nat c 4
        = Some r)
     /\ test_bit 1 (evq_phases (ev_nic r)) = test_bit 1 (evq_phases efx)
     /\ busy_poll (ev_nic r) = busy_poll efx)
  /\ (forall rc,
        fst (ef100_ev_init efx c rc) = rc
        /\ test_bit 1 (evq_phases (snd (ef100_ev_init efx c rc)))
           = test_bit 1 (evq_phases efx)
        /\ test_bit (channel c) (evq_phases (snd (ef100_ev_init efx c rc)))
           = false
        /\ busy_poll (snd (ef100_ev_init efx c rc)) = busy_poll efx).
Proof.
  intros efx c.
  apply (@ev_process_other_channels_untouched nat counting_externals
           efx 0%nat c 4 1 1).
  - lia.
  - reflexivity.
  - cbn. lia.
  - cbn. lia.
  - cbn. lia.
Defined.



(** A ring of two ready TX-completion entries, which count no work: an
    invocation with quota 100 handles both and stops, the entry under the
    read pointer being the first one again with the phase of the lap
    before. *)
Example one_lap_run :
  option_map (fun r => (ev_ret r, length (ev_trace r),
                        eventq_read_ptr (ev_channel r),
                        evq_phases (ev_nic r)))
    (@ef100_ev_process nat counting_externals 3 (mk_efx_nic 0 false) 0%nat
       (mk_channel 0 true 1 0
          (ring_of [ mk_event false ESE_GZ_EF100_EV_TX_COMPLETION 0;
                     mk_event false ESE_GZ_EF100_EV_TX_COMPLETION 0 ]))
       100)
  = Some (0, 2%nat, 2, 1).
Proof. vm_compute. reflexivity. Qed.

(** X9: after [ef100_ev_init], over any run of invocations of
    [ef100_ev_process] on the channel, the stored phase bit of the channel
    is the parity of the number of times the masked read pointer has come
    back to zero: 0 during the first lap of the ring, 1 during the second,
    and so on. *)
Theorem ev_init_then_process_phase
    {World : Type} `{E : evq_externals World}
    (efx : efx_nic) (w : World) (c : efx_channel) (k rc : Z)
    (invocations : list ((Z -> efx_qword_t) * Z)) :
  0 <= k <= 32 -> eventq_mask c = 2 ^ k - 1 ->
  0 <= eventq_read_ptr c < 2 ^ 32 -> 0 <= channel c ->
  exists r,
    (forall fuel, (Z.to_nat (2 ^ k) < fuel)%nat ->
       ev_process_run fuel (snd (ef100_ev_init efx c rc)) w c invocations
       = Some r)
    /\ test_bit (channel c) (evq_phases (ev_nic r))
       = Nat.odd (wraps (eventq_mask c) (ev_trace r))
    /\ Z.of_nat (wraps (eventq_mask c) (ev_trace r))
       = (Z.land (eventq_read_ptr c) (eventq_mask c)
          + Z.of_nat (length (ev_trace r))) / 2 ^ k.
Proof.
  intros Hk Hmask Hrp Hch.
  destruct (ev_process_run_phase_post k Hk invocations
              (snd (ef100_ev_init efx c rc)) w c Hmask Hrp Hch)
    as (r & Hrun & Hpost).
  exists r. split; [exact Hrun|].
  destruct Hpost as (_ & _ & _ & _ & _ & Hph & Hwr).
  split.
  - rewrite Hph. unfold ef100_ev_init. cbn [snd evq_phases].
    rewrite test_bit_clear_bit, Z.eqb_refl by exact Hch. reflexivity.
  - rewrite Hwr, Hmask. f_equal. lia.
Qed.

Lemma ev_init_then_process_phase_witness :
  let c := mk_channel 0 true 1 0 (ring_of []) in
  exists r,
    (forall fuel, (Z.to_nat (2 ^ 1) < fuel)%nat ->
       @ev_process_run nat counting_externals fuel
         (snd (ef100_ev_init (mk_efx_nic 1 false) c 0)) 0%nat c
         [ (ring_of [ mk_event false ESE_GZ_EF100_EV_RX_PKTS 0;
                      mk_event false ESE_GZ_EF100_EV_RX_PKTS 0 ], 8);
           (ring_of [ mk_event true ESE_GZ_EF100_EV_RX_PKTS 0;
                      mk_event false ESE_GZ_EF100_EV_RX_PKTS 0 ], 8) ]
       = Some r)
    /\ test_bit (channel c) (evq_phases (ev_nic r))
       = Nat.odd (wraps (eventq_mask c) (ev_trace r))
    /\ Z.of_nat (wraps (eventq_mask c) (ev_trace r))
       = (Z.land (eventq_read_ptr c) (eventq_mask c)
          + Z.of_nat (length (ev_trace r))) / 2 ^ 1.
Proof.
  intros c.
  apply (@ev_init_then_process_phase nat counting_externals
           (mk_efx_nic 1 false) 0%nat c 1 0).
  - lia.
  - reflexivity.
  - cbn. lia.
  - cbn. lia.
Defined.

End EvqScanFacts.

(** ** MCDI buffer slots *)

Module McdiBufFacts.
Import McdiBuf.

Lemma ffz_from_range : forall n i word,
  i <= ffz_from n i word <= i + Z.of_nat n.
Proof.
  induction n as [|n IH]; intros i word; cbn [ffz_from].
  - lia.
  - destruct (Z.testbit word i); [|lia].
    specialize (IH (i + 1) word). lia.
Qed.

Lemma ffz_from_zero_bit : forall n i word,
  0 <= i -> ffz_from n i word < i + Z.of_nat n ->
  Z.testbit word (ffz_from n i word) = false.
Proof.
  induction n as [|n IH]; intros i word Hi Hlt; cbn [ffz_from] in *.
  - lia.
  - destruct (Z.testbit word i) eqn:Hb; [|exact Hb].
    apply IH; lia.
Qed.

Lemma ffz_from_finds : forall n i word j,
  i <= j < i + Z.of_nat n -> Z.testbit word j = false ->
  ffz_from n i word <= j.
Proof.
  induction n as [|n IH]; intros i word j Hj Hb; cbn [ffz_from].
  - lia.
  - destruct (Z.testbit word i) eqn:Hi; [|lia].
    apply IH; [|exact Hb].
    assert (j <> i) by (intros ->; congruence). lia.
Qed.

(** The outcome of [ef100_mcdi_get_buf] is decided by bit 0 alone. *)
Lemma get_buf_cases mcdi_buf_use :
  (Z.testbit mcdi_buf_use 0 = false ->
   ef100_mcdi_get_buf mcdi_buf_use = (true, 0, set_bit 0 mcdi_buf_use))
  /\ (Z.testbit mcdi_buf_use 0 = true ->
      (exists j, 0 <= j < 64 /\ Z.testbit mcdi_buf_use j = false) ->
      fst (fst (ef100_mcdi_get_buf mcdi_buf_use)) = false
      /\ snd (ef100_mcdi_get_buf mcdi_buf_use) = mcdi_buf_use).
Proof.
  unfold ef100_mcdi_get_buf, ffz. split.
  - intros Hb. change (ffz_from 64 0 mcdi_buf_use)
      with (if Z.testbit mcdi_buf_use 0
            then ffz_from 63 1 mcdi_buf_use else 0).
    rewrite Hb. reflexivity.
  - intros Hb (j & Hj & Hz).
    change (ffz_from 64 0 mcdi_buf_use)
      with (if Z.testbit mcdi_buf_use 0
            then ffz_from 63 1 mcdi_buf_use else 0).
    rewrite Hb.
    pose proof (ffz_from_range 63 1 mcdi_buf_use) as Hr.
    assert (j <> 0) by (intros ->; congruence).
    pose proof (ffz_from_finds 63 1 mcdi_buf_use j ltac:(lia) Hz) as Hf.
    rewrite u8_small by lia.
    unfold EF100_NUM_MCDI_BUFFERS.
    destruct (Z.ltb_spec (ffz_from 63 1 mcdi_buf_use) 1); [lia|].
    split; reflexivity.
Qed.

Lemma set_bit_0_testbit word i :
  Z.testbit (set_bit 0 word) i = (i =? 0) || Z.testbit word i.
Proof.
  unfold set_bit. rewrite Z.lor_spec. change (Z.shiftl 1 0) with 1.
  change 1 with (2 ^ 0) at 1. rewrite Z.pow2_bits_eqb by lia.
  rewrite (Z.eqb_sym 0 i). apply orb_comm.
Qed.

Lemma clear_bit_0_testbit word i :
  Z.testbit (clear_bit 0 word) i = Z.testbit word i && negb (i =? 0).
Proof.
  unfold clear_bit. rewrite Z.ldiff_spec. change (Z.shiftl 1 0) with 1.
  change 1 with (2 ^ 0) at 1. rewrite Z.pow2_bits_eqb by lia.
  rewrite (Z.eqb_sym 0 i). reflexivity.
Qed.

(** X10: on a bitmap with a clear bit above bit 0 (the kernel's [ffz] is
    undefined on a word without a clear bit), [ef100_mcdi_get_buf] hands
    out buffer 0 exactly when bit 0 is clear.  It then sets bit 0 and no
    other bit; a second request while the buffer is out fails and changes
    nothing; and [ef100_mcdi_put_buf] of buffer 0 restores the bitmap.
    When bit 0 is set the request fails and leaves the bitmap as it was,
    and it succeeds once buffer 0 has been put back. *)
Theorem mcdi_get_put_buf mcdi_buf_use :
  (exists j, 1 <= j < 64 /\ Z.testbit mcdi_buf_use j = false) ->
  (Z.testbit mcdi_buf_use 0 = false ->
   exists use',
     ef100_mcdi_get_buf mcdi_buf_use = (true, 0, use')
     /\ Z.testbit use' 0 = true
     /\ (forall i, i <> 0 -> Z.testbit use' i = Z.testbit mcdi_buf_use i)
     /\ fst (fst (ef100_mcdi_get_buf use')) = false
     /\ snd (ef100_mcdi_get_buf use') = use'
     /\ ef100_mcdi_put_buf use' 0 = mcdi_buf_use)
  /\ (Z.testbit mcdi_buf_use 0 = true ->
      fst (fst (ef100_mcdi_get_buf mcdi_buf_use)) = false
      /\ snd (ef100_mcdi_get_buf mcdi_buf_use) = mcdi_buf_use
      /\ fst (fst (ef100_mcdi_get_buf
                     (ef100_mcdi_put_buf mcdi_buf_use 0))) = true).
Proof.
  intros (j & Hj & Hz). split.
  - intros Hb. exists (set_bit 0 mcdi_buf_use).
    destruct (get_buf_cases mcdi_buf_use) as [Hget _].
    destruct (get_buf_cases (set_bit 0 mcdi_buf_use)) as [_ Hfail].
    assert (Hset0 : Z.testbit (set_bit 0 mcdi_buf_use) 0 = true)
      by (rewrite set_bit_0_testbit; reflexivity).
    split; [apply Hget; exact Hb|split; [exact Hset0|split; [|split;
      [|split]]]].
    + intros i Hi. rewrite set_bit_0_testbit.
      destruct (Z.eqb_spec i 0); [contradiction|reflexivity].
    + apply Hfail; [exact Hset0|]. exists j. split; [lia|].
      rewrite set_bit_0_testbit.
      destruct (Z.eqb_spec j 0); [lia|exact Hz].
    + apply Hfail; [exact Hset0|]. exists j. split; [lia|].
      rewrite set_bit_0_testbit.
      destruct (Z.eqb_spec j 0); [lia|exact Hz].
    + unfold ef100_mcdi_put_buf. apply Z.bits_inj'. intros i Hi.
      rewrite clear_bit_0_testbit, set_bit_0_testbit.
      destruct (Z.eqb_spec i 0) as [->|]; cbn [orb negb].
      * rewrite Hb. reflexivity.
      * apply andb_true_r.
  - intros Hb.
    destruct (get_buf_cases mcdi_buf_use) as [_ Hfail].
    destruct (Hfail Hb) as [Hf Hs]; [exists j; split; [lia|exact Hz]|].
    split; [exact Hf|split; [exact Hs|]].
    destruct (get_buf_cases (ef100_mcdi_put_buf mcdi_buf_use 0))
      as [Hget _].
    rewrite Hget; [reflexivity|].
    unfold ef100_mcdi_put_buf. rewrite clear_bit_0_testbit.
    apply andb_false_r.
Qed.

Lemma mcdi_get_put_buf_witness :
  (exists j, 1 <= j < 64 /\ Z.testbit 0 j = false)
  /\ (Z.testbit 0 0 = false ->
      exists use',
        ef100_mcdi_get_buf 0 = (true, 0, use')
        /\ Z.testbit use' 0 = true
        /\ (forall i, i <> 0 -> Z.testbit use' i = Z.testbit 0 i)
        /\ fst (fst (ef100_mcdi_get_buf use')) = false
        /\ snd (ef100_mcdi_get_buf use') = use'
        /\ ef100_mcdi_put_buf use' 0 = 0)
  /\ (Z.testbit 0 0 = true ->
      fst (fst (ef100_mcdi_get_buf 0)) = false
      /\ snd (ef100_mcdi_get_buf 0) = 0
      /\ fst (fst (ef100_mcdi_get_buf (ef100_mcdi_put_buf 0 0))) = true).
Proof.
  assert (H : exists j, 1 <= j < 64 /\ Z.testbit 0 j = false)
    by (exists 1; split; [lia|reflexivity]).
  split; [exact H|exact (mcdi_get_put_buf 0 H)].
Defined.

(** X11: starting from the empty bitmap, after any sequence of requests
    for a buffer and returns of buffers that are held, either no buffer is
    held, the bitmap is 0 and the next request is granted buffer 0, or
    buffer 0 alone is held, the bitmap is 1 and the next request is
    refused: the one MCDI buffer is never handed out twice. *)
Theorem mcdi_buf_exclusive requests mcdi_buf_use held :
  buf_run 0 [] requests = Some (mcdi_buf_use, held) ->
  (held = [] /\ mcdi_buf_use = 0
   /\ ef100_mcdi_get_buf mcdi_buf_use = (true, 0, 1))
  \/ (held = [0] /\ mcdi_buf_use = 1
      /\ fst (fst (ef100_mcdi_get_buf mcdi_buf_use)) = false).
Proof.
  assert (Hgen : forall rqs u h,
            (h = [] /\ u = 0) \/ (h = [0] /\ u = 1) ->
            forall u' h', buf_run u h rqs = Some (u', h') ->
            (h' = [] /\ u' = 0) \/ (h' = [0] /\ u' = 1)).
  { induction rqs as [|rq rqs IH]; intros u h Hinv u' h' Hrun.
    - cbn in Hrun. injection Hrun as <- <-. exact Hinv.
    - destruct rq as [|b]; cbn [buf_run] in Hrun.
      + destruct Hinv as [[-> ->]|[-> ->]].
        * change (ef100_mcdi_get_buf 0) with (true, 0, 1) in Hrun.
          apply (IH 1 [0]); [right; split; reflexivity|exact Hrun].
        * change (ef100_mcdi_get_buf 1) with (false, 1, 1) in Hrun.
          apply (IH 1 [0]); [right; split; reflexivity|exact Hrun].
      + destruct Hinv as [[-> ->]|[-> ->]].
        * cbn in Hrun. discriminate Hrun.
        * cbn [existsb orb] in Hrun.
          destruct (Z.eqb_spec b 0) as [->|Hne].
          -- cbn in Hrun.
             apply (IH 0 []); [left; split; reflexivity|exact Hrun].
          -- cbn in Hrun. discriminate Hrun. }
  intros Hrun.
  destruct (Hgen requests 0 [] (or_introl (conj eq_refl eq_refl)) _ _ Hrun)
    as [[-> ->]|[-> ->]]; [left|right]; repeat split.
Qed.

Lemma mcdi_buf_exclusive_witness :
  buf_run 0 [] [acquire; acquire; release 0; acquire] = Some (1, [0])
  /\ (([0] = [] /\ 1 = 0 /\ ef100_mcdi_get_buf 1 = (true, 0, 1))
      \/ ([0] = [0] /\ 1 = 1
          /\ fst (fst (ef100_mcdi_get_buf 1)) = false)).
Proof.
  split; [reflexivity|].
  apply (mcdi_buf_exclusive [acquire; acquire; release 0; acquire]).
  reflexivity.
Defined.

End McdiBufFacts.

(** ** Mapping reset requests *)

Module ResetMapFacts.
Import ResetSeq ResetMap.

Section FlagsFacts.
Variables port mgmt : Z.

Lemma clear_mask flags mask :
  0 <= flags < 2 ^ 32 ->
  u32 (Z.land flags (Z.lnot mask)) = Z.ldiff flags mask
  /\ 0 <= Z.ldiff flags mask < 2 ^ 32.
Proof.
  intros Hf.
  assert (Hl : Z.land flags (Z.lnot mask) = Z.ldiff flags mask)
    by (symmetry; apply Z.ldiff_land).
  assert (Hr : 0 <= Z.ldiff flags mask < 2 ^ 32).
  { split; [apply Z.ldiff_nonneg; left; lia|].
    assert (H : Z.ldiff flags mask = Z.ldiff flags mask mod 2 ^ 32).
    { rewrite <- Z.land_ones by lia. apply Z.bits_inj'. intros i Hi.
      rewrite Z.land_spec, Z.ldiff_spec, Z.testbit_ones_nonneg by lia.
      destruct (Z.ltb_spec i 32); [rewrite andb_true_r; reflexivity|].
      rewrite <- (Z.mod_small flags (2 ^ 32)) by lia.
      rewrite Z.mod_pow2_bits_high by lia. reflexivity. }
    rewrite H. apply Z.mod_pos_bound. reflexivity. }
  rewrite Hl. change (2 ^ 32) with 4294967296 in *.
  rewrite u32_small by lia. split; [reflexivity|lia].
Qed.

Lemma ldiff_land_mask flags mask : Z.land (Z.ldiff flags mask) mask = 0.
Proof.
  apply Z.bits_inj'. intros i Hi.
  rewrite Z.land_spec, Z.ldiff_spec, Z.bits_0.
  destruct (Z.testbit flags i), (Z.testbit mask i); reflexivity.
Qed.

Lemma ldiff_within f m : Z.land (Z.ldiff f m) f = Z.ldiff f m.
Proof.
  apply Z.bits_inj'. intros i Hi. rewrite Z.land_spec, Z.ldiff_spec.
  destruct (Z.testbit f i), (Z.testbit m i); reflexivity.
Qed.

Lemma ldiff_keeps_clear f m m' :
  Z.land f m' = 0 -> Z.land (Z.ldiff f m) m' = 0.
Proof.
  intros H0. apply Z.bits_inj'. intros i Hi.
  pose proof (f_equal (fun x => Z.testbit x i) H0) as Hb. cbn beta in Hb.
  rewrite Z.land_spec, Z.bits_0 in Hb.
  rewrite Z.land_spec, Z.ldiff_spec, Z.bits_0.
  destruct (Z.testbit f i), (Z.testbit m i), (Z.testbit m' i);
    cbn in *; congruence.
Qed.

(** [ef100_map_reset_flags] in closed form. *)
Lemma map_reset_flags_closed f :
  0 <= f < 2 ^ 32 ->
  ef100_map_reset_flags port mgmt f
  = if Z.land f port =? 0
    then if Z.land f mgmt =? 0
         then (inr (- EINVAL), f)
         else (inl RESET_TYPE_DISABLE, Z.ldiff f mgmt)
    else (inl RESET_TYPE_ALL, Z.ldiff f port).
Proof.
  intros Hr. unfold ef100_map_reset_flags.
  rewrite (proj1 (clear_mask f port Hr)), (proj1 (clear_mask f mgmt Hr)).
  destruct (Z.land f port =? 0), (Z.land f mgmt =? 0); reflexivity.
Qed.

(** Once neither a port bit nor the management bit is set the mapping
    fails and leaves the flags alone. *)
Lemma map_reset_flags_nothing_left f :
  0 <= f < 2 ^ 32 -> Z.land f port = 0 -> Z.land f mgmt = 0 ->
  ef100_map_reset_flags port mgmt f = (inr (- EINVAL), f).
Proof.
  intros Hr Hp Hm. rewrite (map_reset_flags_closed f Hr), Hp, Hm.
  reflexivity.
Qed.

(** X12: [ef100_map_reset_flags] on a 32-bit flags word fails with -EINVAL
    exactly when neither a port bit nor a management bit is set, and then
    leaves the word as it is.  If any port bit is set it answers
    RESET_TYPE_ALL and clears all the port bits, whether or not a
    management bit is set as well; otherwise, with a management bit set,
    it answers RESET_TYPE_DISABLE and clears the management bits.  It
    only ever clears bits, and whatever the word, the third call in a row
    fails: a flags word yields at most two resets. *)
Theorem map_reset_flags_cases flags :
  0 <= flags < 2 ^ 32 ->
  let r1 := ef100_map_reset_flags port mgmt flags in
  let r2 := ef100_map_reset_flags port mgmt (snd r1) in
  let r3 := ef100_map_reset_flags port mgmt (snd r2) in
  (fst r1 = inr (- EINVAL)
   <-> Z.land flags port = 0 /\ Z.land flags mgmt = 0)
  /\ (fst r1 = inr (- EINVAL) -> snd r1 = flags)
  /\ (Z.land flags port <> 0 ->
      r1 = (inl RESET_TYPE_ALL, Z.ldiff flags port)
      /\ Z.land (snd r1) port = 0)
  /\ (Z.land flags port = 0 -> Z.land flags mgmt <> 0 ->
      r1 = (inl RESET_TYPE_DISABLE, Z.ldiff flags mgmt)
      /\ Z.land (snd r1) mgmt = 0)
  /\ Z.land (snd r1) flags = snd r1
  /\ fst r3 = inr (- EINVAL).
Proof.
  intros Hf r1 r2 r3.
  assert (H1 : r1 = if Z.land flags port =? 0
                    then if Z.land flags mgmt =? 0
                         then (inr (- EINVAL), flags)
                         else (inl RESET_TYPE_DISABLE, Z.ldiff flags mgmt)
                    else (inl RESET_TYPE_ALL, Z.ldiff flags port))
    by (apply map_reset_flags_closed; exact Hf).
  assert (Hlast : fst r3 = inr (- EINVAL)).
  { assert (Hdone : forall f, 0 <= f < 2 ^ 32 ->
              Z.land f port = 0 -> Z.land f mgmt = 0 ->
              fst (ef100_map_reset_flags port mgmt
                     (snd (ef100_map_reset_flags port mgmt f)))
              = inr (- EINVAL)).
    { intros f Hr Hp Hm.
      rewrite (map_reset_flags_nothing_left f Hr Hp Hm). cbn [snd].
      rewrite (map_reset_flags_nothing_left f Hr Hp Hm). reflexivity. }
    assert (Hstep : forall f, 0 <= f < 2 ^ 32 -> Z.land f port = 0 ->
              fst (ef100_map_reset_flags port mgmt
                     (snd (ef100_map_reset_flags port mgmt f)))
              = inr (- EINVAL)).
    { intros f Hr Hp.
      destruct (Z.eq_dec (Z.land f mgmt) 0) as [Hm|Hm];
        [apply Hdone; assumption|].
      rewrite (map_reset_flags_closed f Hr), Hp.
      destruct (Z.eqb_spec (Z.land f mgmt) 0); [contradiction|].
      cbn [snd Z.eqb].
      rewrite (map_reset_flags_nothing_left (Z.ldiff f mgmt));
        [reflexivity|apply clear_mask; exact Hr
        |apply ldiff_keeps_clear; exact Hp|apply ldiff_land_mask]. }
    subst r3 r2.
    destruct (Z.eq_dec (Z.land flags port) 0) as [Hp|Hp].
    - destruct (Z.eq_dec (Z.land flags mgmt) 0) as [Hm|Hm].
      + subst r1.
        rewrite (map_reset_flags_nothing_left flags Hf Hp Hm). cbn [snd].
        apply Hdone; assumption.
      + rewrite H1, Hp. destruct (Z.eqb_spec (Z.land flags mgmt) 0);
          [contradiction|]. cbn [snd Z.eqb].
        apply Hdone; [apply clear_mask; exact Hf
                     |apply ldiff_keeps_clear; exact Hp
                     |apply ldiff_land_mask].
    - rewrite H1. destruct (Z.eqb_spec (Z.land flags port) 0);
        [contradiction|]. cbn [snd].
      apply Hstep; [apply clear_mask; exact Hf|apply ldiff_land_mask]. }
  split; [|split; [|split; [|split; [|split; [|exact Hlast]]]]];
    rewrite H1;
    destruct (Z.eqb_spec (Z.land flags port) 0) as [Hp|Hp];
    destruct (Z.eqb_spec (Z.land flags mgmt) 0) as [Hm|Hm];
    cbn [fst snd].
  - split; [intros _; split; assumption|reflexivity].
  - split; [discriminate|intros [_ H0]; contradiction].
  - split; [discriminate|intros [H0 _]; contradiction].
  - split; [discriminate|intros [H0 _]; contradiction].
  - reflexivity.
  - discriminate.
  - discriminate.
  - discriminate.
  - contradiction.
  - contradiction.
  - intros _. split; [reflexivity|apply ldiff_land_mask].
  - intros _. split; [reflexivity|apply ldiff_land_mask].
  - contradiction.
  - intros _ _. split; [reflexivity|apply ldiff_land_mask].
  - contradiction.
  - contradiction.
  - apply Z.land_diag.
  - apply ldiff_within.
  - apply ldiff_within.
  - apply ldiff_within.
Qed.

End FlagsFacts.

Lemma map_reset_flags_cases_witness :
  0 <= 0x200001 < 2 ^ 32
  /\ (let r1 := ef100_map_reset_flags 0x600000 1 0x200001 in
      let r2 := ef100_map_reset_flags 0x600000 1 (snd r1) in
      let r3 := ef100_map_reset_flags 0x600000 1 (snd r2) in
      (fst r1 = inr (- EINVAL)
       <-> Z.land 0x200001 0x600000 = 0 /\ Z.land 0x200001 1 = 0)
      /\ (fst r1 = inr (- EINVAL) -> snd r1 = 0x200001)
      /\ (Z.land 0x200001 0x600000 <> 0 ->
          r1 = (inl RESET_TYPE_ALL, Z.ldiff 0x200001 0x600000)
          /\ Z.land (snd r1) 0x600000 = 0)
      /\ (Z.land 0x200001 0x600000 = 0 -> Z.land 0x200001 1 <> 0 ->
          r1 = (inl RESET_TYPE_DISABLE, Z.ldiff 0x200001 1)
          /\ Z.land (snd r1) 1 = 0)
      /\ Z.land (snd r1) 0x200001 = snd r1
      /\ fst r3 = inr (- EINVAL)).
Proof.
  split; [lia|].
  apply (map_reset_flags_cases 0x600000 1 0x200001). lia.
Defined.

(** A flags word with one of the two port bits and the management bit
    set: the first call answers RESET_TYPE_ALL, the second
    RESET_TYPE_DISABLE, the third fails. *)
Example map_reset_flags_run :
  let r1 := ef100_map_reset_flags 0x600000 1 0x200001 in
  let r2 := ef100_map_reset_flags 0x600000 1 (snd r1) in
  let r3 := ef100_map_reset_flags 0x600000 1 (snd r2) in
  r1 = (inl RESET_TYPE_ALL, 1)
  /\ r2 = (inl RESET_TYPE_DISABLE, 0)
  /\ r3 = (inr (- EINVAL), 0).
Proof. vm_compute. repeat split. Qed.

(** X13: for the reset types [ef100_map_reset_reason] answers with,
    [ef100_reset] neither resets the firmware nor touches the filter
    table, and leaves the reset timestamp alone.  A TX watchdog reason is
    kept: the device is closed, re-attached and reopened, the state
    becomes NET_DOWN, the pending bit of the watchdog reset alone is
    cleared and the result is that of reopening.  Every other reason is
    mapped to RESET_TYPE_DISABLE, for which [ef100_reset] closes the
    device, changes nothing else and returns 1. *)
Theorem reset_mapped_reason env e reason :
  let t := ef100_map_reset_reason reason in
  let r := ef100_reset env t (mk_machine e []) in
  existsb filter_or_firmware_call (calls (snd r)) = false
  /\ filters_up (efx (snd r)) = filters_up e
  /\ last_reset (efx (snd r)) = last_reset e
  /\ (reason = RESET_TYPE_TX_WATCHDOG ->
      t = RESET_TYPE_TX_WATCHDOG
      /\ fst r = dev_open_rc env
      /\ calls (snd r)
         = [dev_close] ++ reattach_calls (has_attach_reps e) ++ [dev_open]
      /\ state (efx (snd r)) = STATE_NET_DOWN
      /\ reset_pending (efx (snd r)) RESET_TYPE_TX_WATCHDOG = false
      /\ forall t', reset_type_eqb t' RESET_TYPE_TX_WATCHDOG = false ->
           reset_pending (efx (snd r)) t' = reset_pending e t')
  /\ (reason <> RESET_TYPE_TX_WATCHDOG ->
      t = RESET_TYPE_DISABLE /\ r = (1, mk_machine e [dev_close])).
Proof.
  intros t r. subst r t. destruct e as [st up pend lr reps].
  destruct reason as [| | |n]; unfold ef100_map_reset_reason;
    cbn [reset_type_eqb].
  - unfold ef100_reset, reattach, reattach_calls.
    destruct reps; cbn.
    + repeat split; try reflexivity; try congruence.
      intros t' Ht. rewrite Ht. reflexivity.
    + repeat split; try reflexivity; try congruence.
      intros t' Ht. rewrite Ht. reflexivity.
  - cbn. repeat split; try reflexivity; discriminate.
  - cbn. repeat split; try reflexivity; discriminate.
  - cbn. repeat split; try reflexivity; discriminate.
Qed.

(** [ef100_filter_table_up] and [ef100_filter_table_down] in closed
    form. *)
Lemma filter_table_up_run env e cs :
  ef100_filter_table_up env (mk_machine e cs)
  = if filters_up e then (0, mk_machine e cs)
    else (rebuild_rc env,
          mk_machine
            (mk_efx_nic (state e) (rebuild_rc env =? 0) (reset_pending e)
               (last_reset e) (has_attach_reps e))
            (cs ++ filter_up_calls env)).
Proof.
  destruct e as [st up pend lr reps].
  unfold ef100_filter_table_up, rebuild_rc, filter_up_calls.
  cbn [state filters_up reset_pending last_reset has_attach_reps].
  destruct up,
    (add_vlan_rc env EFX_FILTER_VID_UNSPEC =? 0) eqn:Hu,
    (add_vlan_rc env (VID 0) =? 0) eqn:H0;
    cbn; rewrite ?Hu, ?H0; cbn; rewrite ?Hu, ?H0, <- ?app_assoc;
    reflexivity.
Qed.

Lemma filter_table_down_run e cs :
  ef100_filter_table_down (mk_machine e cs)
  = (tt,
     if filters_up e
     then mk_machine
            (mk_efx_nic (state e) false (reset_pending e) (last_reset e)
               (has_attach_reps e))
            (cs ++ filter_down_calls)
     else mk_machine e cs).
Proof.
  destruct e as [st up pend lr reps].
  unfold ef100_filter_table_down, filter_down_calls.
  destruct up; cbn; rewrite <- ?app_assoc; reflexivity.
Qed.

(** X14: [ef100_filter_table_up] on a table that is up does nothing and
    returns 0.  On a table that is down it returns the result of the
    first VLAN insertion that fails, or 0, and the table is up afterwards
    exactly when it returned 0; when it fails its last call tears the
    table down, and a default VLAN that had been inserted is removed
    first.  [ef100_filter_table_down] after a successful
    [ef100_filter_table_up] removes the two VLANs in reverse order and
    tears the table down; it always leaves the table down, does nothing
    when called again, and neither function changes anything else of the
    device state. *)
Theorem filter_table_up_down env m :
  let up := ef100_filter_table_up env m in
  let down := ef100_filter_table_down (snd up) in
  (filters_up (efx m) = true -> up = (0, m))
  /\ (filters_up (efx m) = false ->
      fst up = rebuild_rc env
      /\ filters_up (efx (snd up)) = (fst up =? 0)
      /\ calls (snd up) = calls m ++ filter_up_calls env
      /\ (fst up <> 0 ->
          last (filter_up_calls env) dev_close = efx_mcdi_filter_table_down
          /\ (In (efx_mcdi_filter_add_vlan (VID 0)) (filter_up_calls env) ->
              In (efx_mcdi_filter_del_vlan EFX_FILTER_VID_UNSPEC)
                (filter_up_calls env)))
      /\ (fst up = 0 ->
          filter_up_calls env
          = [ efx_mcdi_filter_add_vlan EFX_FILTER_VID_UNSPEC;
              efx_mcdi_filter_add_vlan (VID 0) ]
          /\ calls (snd down) = calls (snd up) ++ filter_down_calls))
  /\ filters_up (efx (snd down)) = false
  /\ ef100_filter_table_down (snd down) = (tt, snd down)
  /\ state (efx (snd down)) = state (efx m)
  /\ reset_pending (efx (snd down)) = reset_pending (efx m)
  /\ last_reset (efx (snd down)) = last_reset (efx m).
Proof.
  intros up down. subst down up.
  destruct m as [e cs]. cbn [efx calls].
  rewrite filter_table_up_run.
  destruct (filters_up e) eqn:Hup.
  - cbn [fst snd]. rewrite filter_table_down_run, Hup. cbn [snd].
    rewrite filter_table_down_run.
    cbn [efx filters_up state reset_pending last_reset].
    repeat split; try reflexivity; discriminate.
  - cbn [fst snd efx calls filters_up].
    rewrite filter_table_down_run.
    cbn [filters_up state reset_pending last_reset has_attach_reps snd].
    split; [discriminate|]. split.
    + intros _.
      split; [reflexivity|split; [reflexivity|split; [reflexivity|]]].
      unfold rebuild_rc, filter_up_calls.
      destruct (Z.eqb_spec (add_vlan_rc env EFX_FILTER_VID_UNSPEC) 0)
        as [Hu|Hu].
      * destruct (Z.eqb_spec (add_vlan_rc env (VID 0)) 0) as [H0|H0].
        -- split; [intros Hne; contradiction|].
           intros _. cbn [calls]. split; reflexivity.
        -- split; [|intros E; contradiction].
           intros _. split; [reflexivity|].
           intros _. right. right. left. reflexivity.
      * split; [|intros E; contradiction].
        intros _. split; [reflexivity|].
        intros [E|[E|[]]]; discriminate E.
    + destruct (rebuild_rc env =? 0);
        cbn [efx filters_up state reset_pending last_reset];
        rewrite filter_table_down_run; cbn [filters_up];
        repeat split.
Qed.

End ResetMapFacts.

(** ** Firmware version comparison *)

Module VersionFacts.
Import Version.

(** X15: for versions whose four numbers are non-negative,
    [compare_versions] orders by major, minor, point and patch number in
    this order: the result is negative, zero or positive exactly when the
    first version comes before, equals or comes after the second.  A
    version that does not parse as four numbers compares below every
    version that does, and equal to another such version.  So the check of
    [ef100_probe_main] refuses a firmware exactly when its version does
    not parse or comes before 1.1.0.1000. *)
Theorem compare_versions_orders a b :
  version_nonneg a -> version_nonneg b ->
  (compare_versions (Some a) (Some b) < 0 <-> version_lt a b)
  /\ (compare_versions (Some a) (Some b) = 0 <-> a = b)
  /\ (0 < compare_versions (Some a) (Some b) <-> version_lt b a)
  /\ compare_versions None (Some b) = -1
  /\ compare_versions (Some a) None = 1
  /\ compare_versions None None = 0
  /\ firmware_too_old None = true
  /\ (firmware_too_old (Some a) = true <-> version_lt a (1, 1, 0, 1000)).
Proof.
  destruct a as [[[a1 a2] a3] a4], b as [[[b1 b2] b3] b4].
  intros (Ha1 & Ha2 & Ha3 & Ha4) (Hb1 & Hb2 & Hb3 & Hb4).
  change (2 ^ 31) with 2147483648 in *.
  assert (Hcmp : forall x1 x2 x3 x4 y1 y2 y3 y4,
            0 <= x1 < 2147483648 -> 0 <= x2 < 2147483648 ->
            0 <= x3 < 2147483648 -> 0 <= x4 < 2147483648 ->
            0 <= y1 < 2147483648 -> 0 <= y2 < 2147483648 ->
            0 <= y3 < 2147483648 -> 0 <= y4 < 2147483648 ->
            (compare_versions (Some (x1, x2, x3, x4))
               (Some (y1, y2, y3, y4)) < 0
             <-> version_lt (x1, x2, x3, x4) (y1, y2, y3, y4))
            /\ (compare_versions (Some (x1, x2, x3, x4))
                  (Some (y1, y2, y3, y4)) = 0
                <-> x1 = y1 /\ x2 = y2 /\ x3 = y3 /\ x4 = y4)
            /\ (0 < compare_versions (Some (x1, x2, x3, x4))
                      (Some (y1, y2, y3, y4))
                <-> version_lt (y1, y2, y3, y4) (x1, x2, x3, x4))).
  { intros x1 x2 x3 x4 y1 y2 y3 y4 ? ? ? ? ? ? ? ?.
    unfold compare_versions, version_lt.
    destruct (Z.eqb_spec x1 y1); cbn [negb];
      [destruct (Z.eqb_spec x2 y2); cbn [negb];
       [destruct (Z.eqb_spec x3 y3); cbn [negb]|]|];
      rewrite s32_small by lia; lia. }
  destruct (Hcmp a1 a2 a3 a4 b1 b2 b3 b4) as (Hlt & Heq & Hgt);
    try assumption.
  split; [exact Hlt|split; [|split; [exact Hgt|]]].
  - rewrite Heq. split.
    + intros (-> & -> & -> & ->). reflexivity.
    + intros E. injection E as -> -> -> ->. repeat split.
  - split; [reflexivity|split; [reflexivity|split; [reflexivity|]]].
    split; [reflexivity|].
    unfold firmware_too_old. rewrite Z.ltb_lt.
    apply (Hcmp a1 a2 a3 a4 1 1 0 1000); lia.
Qed.

Lemma compare_versions_orders_witness :
  version_nonneg (1, 0, 9, 2000) /\ version_nonneg (1, 1, 0, 1000)
  /\ (compare_versions (Some (1, 0, 9, 2000)) (Some (1, 1, 0, 1000)) < 0
      <-> version_lt (1, 0, 9, 2000) (1, 1, 0, 1000))
  /\ (compare_versions (Some (1, 0, 9, 2000)) (Some (1, 1, 0, 1000)) = 0
      <-> (1, 0, 9, 2000) = (1, 1, 0, 1000))
  /\ (0 < compare_versions (Some (1, 0, 9, 2000)) (Some (1, 1, 0, 1000))
      <-> version_lt (1, 1, 0, 1000) (1, 0, 9, 2000))
  /\ compare_versions None (Some (1, 1, 0, 1000)) = -1
  /\ compare_versions (Some (1, 0, 9, 2000)) None = 1
  /\ compare_versions None None = 0
  /\ firmware_too_old None = true
  /\ (firmware_too_old (Some (1, 0, 9, 2000)) = true
      <-> version_lt (1, 0, 9, 2000) (1, 1, 0, 1000)).
Proof.
  assert (Ha : version_nonneg (1, 0, 9, 2000)) by (cbn; lia).
  assert (Hb : version_nonneg (1, 1, 0, 1000)) by (cbn; lia).
  split; [exact Ha|split; [exact Hb|]].
  exact (compare_versions_orders (1, 0, 9, 2000) (1, 1, 0, 1000) Ha Hb).
Defined.

End VersionFacts.

(** ** The list of UDP tunnel ports *)

Module UdpTunnelFacts.
Import UdpTunnel.

Lemma find_port_app l l' p :
  __efx_ef100_udp_tnl_find_port (l ++ l') p
  = match __efx_ef100_udp_tnl_find_port l p with
    | Some e => Some e
    | None => __efx_ef100_udp_tnl_find_port l' p
    end.
Proof.
  induction l as [|t l IH]; cbn [app __efx_ef100_udp_tnl_find_port].
  - reflexivity.
  - destruct (p =? port t); [reflexivity|exact IH].
Qed.

Lemma find_port_found l p e :
  __efx_ef100_udp_tnl_find_port l p = Some e -> port e = p /\ In e l.
Proof.
  induction l as [|t l IH]; cbn [__efx_ef100_udp_tnl_find_port].
  - discriminate.
  - destruct (Z.eqb_spec p (port t)) as [Hp|Hp].
    + intros E. injection E as <-. split; [congruence|left; reflexivity].
    + intros E. destruct (IH E) as [Hport Hin].
      split; [exact Hport|right; exact Hin].
Qed.

Lemma find_port_none l p :
  __efx_ef100_udp_tnl_find_port l p = None <-> ~ In p (map port l).
Proof.
  induction l as [|t l IH]; cbn [__efx_ef100_udp_tnl_find_port map In].
  - split; [intros _ []|reflexivity].
  - destruct (Z.eqb_spec p (port t)) as [Hp|Hp].
    + split; [discriminate|]. intros H. exfalso. apply H. left. congruence.
    + rewrite IH. split.
      * intros Hn [E|Hin]; [congruence|contradiction].
      * intros Hn Hin. apply Hn. right. exact Hin.
Qed.

(** X16: looking up a port after [efx_ef100_udp_tnl_add_port]: for the
    port of the entry added the answer is the type already listed for
    that port if there was one - the list is not updated and the new
    type is dropped -, else the new type if the allocation succeeded, else
    none; for every other port the answer is what it was before. *)
Theorem udp_tnl_lookup_after_add kmalloc_ok udp_tunnels tnl p :
  efx_ef100_udp_tnl_lookup_port
    (efx_ef100_udp_tnl_add_port kmalloc_ok udp_tunnels tnl) p
  = if p =? port tnl then
      match __efx_ef100_udp_tnl_find_port udp_tunnels (port tnl) with
      | Some entry => type entry
      | None => if kmalloc_ok then type tnl else EFX_ENCAP_TYPE_NONE
      end
    else efx_ef100_udp_tnl_lookup_port udp_tunnels p.
Proof.
  unfold efx_ef100_udp_tnl_lookup_port, efx_ef100_udp_tnl_add_port.
  destruct (Z.eqb_spec p (port tnl)) as [->|Hp].
  - destruct (__efx_ef100_udp_tnl_find_port udp_tunnels (port tnl))
      as [e|] eqn:Hfind.
    + rewrite Hfind. reflexivity.
    + destruct kmalloc_ok.
      * rewrite find_port_app, Hfind.
        cbn [__efx_ef100_udp_tnl_find_port]. rewrite Z.eqb_refl.
        reflexivity.
      * rewrite Hfind. reflexivity.
  - destruct (__efx_ef100_udp_tnl_find_port udp_tunnels (port tnl));
      [reflexivity|].
    destruct kmalloc_ok; [|reflexivity].
    rewrite find_port_app.
    destruct (__efx_ef100_udp_tnl_find_port udp_tunnels p); [reflexivity|].
    cbn [__efx_ef100_udp_tnl_find_port].
    destruct (Z.eqb_spec p (port tnl)); [contradiction|reflexivity].
Qed.

Lemma del_found_ports l p :
  forall q, In q (map port (list_del_found l p)) -> In q (map port l).
Proof.
  induction l as [|t l IH]; cbn [list_del_found map In]; intros q.
  - exact (fun H => H).
  - destruct (p =? port t).
    + intros H. right. exact H.
    + cbn [map In]. intros [E|H]; [left; exact E|right; apply IH; exact H].
Qed.

Lemma del_found_nodup l p :
  NoDup (map port l) -> NoDup (map port (list_del_found l p)).
Proof.
  induction l as [|t l IH]; cbn [list_del_found map]; intros Hnd.
  - exact Hnd.
  - inversion Hnd as [|x xs Hnotin Hrest]; subst.
    destruct (p =? port t); [exact Hrest|].
    cbn [map]. constructor; [|apply IH; exact Hrest].
    intros Hin. apply Hnotin. apply (del_found_ports l p). exact Hin.
Qed.

Lemma del_found_find l p :
  NoDup (map port l) ->
  forall q,
    __efx_ef100_udp_tnl_find_port (list_del_found l p) q
    = if q =? p then None else __efx_ef100_udp_tnl_find_port l q.
Proof.
  induction l as [|t l IH]; cbn [list_del_found map]; intros Hnd q.
  - cbn. destruct (q =? p); reflexivity.
  - inversion Hnd as [|x xs Hnotin Hrest]; subst.
    destruct (Z.eqb_spec p (port t)) as [Hp|Hp].
    + cbn [__efx_ef100_udp_tnl_find_port].
      destruct (Z.eqb_spec q p) as [->|Hq].
      * apply find_port_none. rewrite Hp. exact Hnotin.
      * destruct (Z.eqb_spec q (port t)); [congruence|reflexivity].
    + cbn [__efx_ef100_udp_tnl_find_port]. rewrite (IH Hrest).
      destruct (Z.eqb_spec q (port t)) as [Hqt|Hqt].
      * destruct (Z.eqb_spec q p); [congruence|reflexivity].
      * reflexivity.
Qed.

(** The ports of the list stay distinct. *)
Lemma tunnel_step_nodup l rq :
  NoDup (map port l) -> NoDup (map port (tunnel_step l rq)).
Proof.
  intros Hnd. destruct rq as [ok tnl|tnl]; cbn [tunnel_step].
  - unfold efx_ef100_udp_tnl_add_port.
    destruct (__efx_ef100_udp_tnl_find_port l (port tnl)) eqn:Hfind;
      [exact Hnd|].
    destruct ok; [|exact Hnd].
    rewrite map_app. cbn [map].
    apply NoDup_app; [exact Hnd|constructor; [intros []|constructor]|].
    intros q Hq [<-|[]]. apply find_port_none in Hfind. contradiction.
  - unfold efx_ef100_udp_tnl_del_port.
    destruct (__efx_ef100_udp_tnl_find_port l (port tnl)); [|exact Hnd].
    destruct (encap_type_eqb (type e) (type tnl)); [|exact Hnd].
    apply del_found_nodup. exact Hnd.
Qed.

(** X17: whatever additions and deletions were made to the initially
    empty list, no port is listed twice.  Looking up a port after
    [efx_ef100_udp_tnl_del_port] then answers none for the port deleted,
    provided the port was listed with the type given - a deletion that
    names another type or an unlisted port changes nothing - and answers
    as before for every other port. *)
Theorem udp_tnl_ports_distinct requests :
  let udp_tunnels := fold_left tunnel_step requests [] in
  NoDup (map port udp_tunnels)
  /\ forall tnl p,
       efx_ef100_udp_tnl_lookup_port
         (efx_ef100_udp_tnl_del_port udp_tunnels tnl) p
       = if (p =? port tnl)
            && match __efx_ef100_udp_tnl_find_port udp_tunnels (port tnl)
               with
               | Some entry => encap_type_eqb (type entry) (type tnl)
               | None => false
               end
         then EFX_ENCAP_TYPE_NONE
         else efx_ef100_udp_tnl_lookup_port udp_tunnels p.
Proof.
  intros udp_tunnels.
  assert (Hnd : NoDup (map port udp_tunnels)).
  { subst udp_tunnels.
    assert (Hgen : forall rqs l, NoDup (map port l) ->
              NoDup (map port (fold_left tunnel_step rqs l))).
    { induction rqs as [|rq rqs IH]; intros l Hl; cbn [fold_left].
      - exact Hl.
      - apply IH. apply tunnel_step_nodup. exact Hl. }
    apply Hgen. constructor. }
  split; [exact Hnd|].
  intros tnl p.
  unfold efx_ef100_udp_tnl_lookup_port, efx_ef100_udp_tnl_del_port.
  destruct (__efx_ef100_udp_tnl_find_port udp_tunnels (port tnl))
    as [e|] eqn:Hfind.
  - destruct (encap_type_eqb (type e) (type tnl)).
    + rewrite (del_found_find udp_tunnels (port tnl) Hnd p).
      destruct (p =? port tnl); reflexivity.
    + rewrite andb_false_r. reflexivity.
  - rewrite andb_false_r. reflexivity.
Qed.

End UdpTunnelFacts.

(** ** MCDI request buffers *)

Module McdiPduFacts.
Import McdiPdu.

Lemma ALIGN_256 x :
  0 <= x -> ALIGN x 256 = 256 * ((x + 255) / 256).
Proof.
  intros Hx. unfold ALIGN. change (256 - 1) with (Z.ones 8).
  rewrite <- Z.ldiff_land, Z.ldiff_ones_r by lia.
  rewrite Z.shiftl_mul_pow2, Z.shiftr_div_pow2 by lia.
  change (2 ^ 8) with 256. change (Z.ones 8) with 255. lia.
Qed.

Lemma ALIGN_256_range x :
  0 <= x -> x <= ALIGN x 256 /\ ALIGN x 256 mod 256 = 0.
Proof.
  intros Hx. rewrite ALIGN_256 by exact Hx.
  pose proof (Z.div_mod (x + 255) 256 ltac:(lia)).
  pose proof (Z.mod_pos_bound (x + 255) 256 ltac:(lia)).
  split; [lia|].
  rewrite Z.mul_comm. apply Z.mod_mul. lia.
Qed.

Lemma read_memcpy mem dst src :
  map (fun i => memcpy mem dst src (Z.of_nat (length src))
                  (dst + Z.of_nat i))
    (seq 0 (length src))
  = src.
Proof.
  apply nth_error_ext. intros n.
  rewrite nth_error_map.
  destruct (Nat.lt_ge_cases n (length src)) as [Hlt|Hge].
  - rewrite nth_error_seq.
    destruct (Nat.ltb_spec n (length src)); [|lia].
    cbn [option_map Nat.add]. unfold memcpy.
    destruct (Z.leb_spec dst (dst + Z.of_nat n)); [|lia].
    destruct (Z.ltb_spec (dst + Z.of_nat n) (dst + Z.of_nat (length src)));
      [|lia].
    cbn [andb].
    replace (dst + Z.of_nat n - dst) with (Z.of_nat n) by lia.
    rewrite Nat2Z.id. symmetry. apply nth_error_nth'. exact Hlt.
  - rewrite (proj2 (nth_error_None _ _)) by (rewrite length_seq; exact Hge).
    cbn [option_map]. symmetry. apply nth_error_None. exact Hge.
Qed.

(** X18: [ef100_mcdi_request] lays the request out at the start of its
    buffer, the header followed at once by the payload: reading the
    buffer back with [ef100_mcdi_read_response] at offset 0 gives the
    header, and at the offset of the header length the payload, while
    the other buffers read as before.  It then rings the doorbell with
    two writes, the upper 32 bits of the DMA address of the buffer to the
    LWRD register first and the lower 32 bits to the HWRD register; the
    two values make up the address, which keeps the alignment of the
    buffer memory within 256 bytes. *)
Theorem mcdi_request_layout MCDI_BUF_LEN hw bufid hdr sdu :
  0 <= MCDI_BUF_LEN -> 0 <= bufid -> 0 <= buf_dma_addr hw ->
  buf_dma_addr hw + bufid * ALIGN MCDI_BUF_LEN 256 < 2 ^ 64 ->
  Z.of_nat (length hdr) + Z.of_nat (length sdu) <= MCDI_BUF_LEN ->
  let hdr_len := Z.of_nat (length hdr) in
  let sdu_len := Z.of_nat (length sdu) in
  let hw' := ef100_mcdi_request MCDI_BUF_LEN hw bufid hdr hdr_len sdu
               sdu_len in
  ef100_mcdi_read_response MCDI_BUF_LEN hw' bufid 0 hdr_len = hdr
  /\ ef100_mcdi_read_response MCDI_BUF_LEN hw' bufid hdr_len sdu_len = sdu
  /\ (forall other offset outlen,
        0 <= other -> other <> bufid -> 0 <= offset -> 0 <= outlen ->
        offset + outlen <= MCDI_BUF_LEN ->
        ef100_mcdi_read_response MCDI_BUF_LEN hw' other offset outlen
        = ef100_mcdi_read_response MCDI_BUF_LEN hw other offset outlen)
  /\ exists hi lo,
       writes hw'
       = writes hw ++ [(ER_GZ_MC_DB_LWRD, hi); (ER_GZ_MC_DB_HWRD, lo)]
       /\ 0 <= hi < 2 ^ 32 /\ 0 <= lo < 2 ^ 32
       /\ hi * 2 ^ 32 + lo = snd (ef100_mcdi_buf MCDI_BUF_LEN hw bufid)
       /\ snd (ef100_mcdi_buf MCDI_BUF_LEN hw bufid)
          = buf_dma_addr hw + bufid * ALIGN MCDI_BUF_LEN 256
       /\ lo mod 256 = buf_dma_addr hw mod 256.
Proof.
  intros Hlen Hbuf Hdma Hfit Hpdu hdr_len sdu_len hw'.
  destruct (ALIGN_256_range MCDI_BUF_LEN Hlen) as [Hge Hal].
  set (A := ALIGN MCDI_BUF_LEN 256) in *.
  assert (Hmem : buf_mem hw'
                 = memcpy (memcpy (buf_mem hw) (bufid * A) hdr hdr_len)
                     (bufid * A + hdr_len) sdu sdu_len) by reflexivity.
  assert (Hbase : buf_dma_addr hw' = buf_dma_addr hw) by reflexivity.
  split; [|split; [|split]].
  - unfold ef100_mcdi_read_response, ef100_mcdi_buf. cbn [fst]. fold A.
    rewrite Hmem. subst hdr_len. rewrite Nat2Z.id.
    rewrite <- (read_memcpy (buf_mem hw) (bufid * A) hdr) at 2.
    apply map_ext_in. intros i Hi. apply in_seq in Hi.
    rewrite Z.add_0_r. unfold memcpy at 1.
    destruct (Z.leb_spec (bufid * A + Z.of_nat (length hdr))
                (bufid * A + Z.of_nat i)); [lia|reflexivity].
  - unfold ef100_mcdi_read_response, ef100_mcdi_buf. cbn [fst]. fold A.
    rewrite Hmem. subst sdu_len. rewrite Nat2Z.id.
    apply read_memcpy.
  - intros other offset outlen Ho Hne Hoff Hout Hin.
    unfold ef100_mcdi_read_response, ef100_mcdi_buf. cbn [fst]. fold A.
    rewrite Hmem. apply map_ext_in. intros i Hi. apply in_seq in Hi.
    assert (Hi' : Z.of_nat i < outlen) by lia.
    assert (Hsep : other * A + offset + Z.of_nat i < bufid * A
                   \/ bufid * A + MCDI_BUF_LEN
                      <= other * A + offset + Z.of_nat i).
    { destruct (Z.lt_ge_cases other bufid); [left|right]; nia. }
    unfold memcpy.
    destruct (Z.leb_spec (bufid * A + hdr_len)
                (other * A + offset + Z.of_nat i));
      destruct (Z.ltb_spec (other * A + offset + Z.of_nat i)
                  (bufid * A + hdr_len + sdu_len));
      destruct (Z.leb_spec (bufid * A)
                  (other * A + offset + Z.of_nat i));
      destruct (Z.ltb_spec (other * A + offset + Z.of_nat i)
                  (bufid * A + hdr_len));
      cbn [andb]; try reflexivity; subst hdr_len sdu_len; lia.
  - assert (Hd : snd (ef100_mcdi_buf MCDI_BUF_LEN hw bufid)
                 = buf_dma_addr hw + bufid * A).
    { unfold ef100_mcdi_buf. cbn [snd]. fold A. unfold u64.
      apply Z.mod_small. nia. }
    set (d := buf_dma_addr hw + bufid * A) in *.
    assert (Hd0 : 0 <= d < 2 ^ 64) by (subst d; nia).
    exists (u32 (Z.shiftr d 32)), (u32 d).
    assert (Hhi : u32 (Z.shiftr d 32) = d / 2 ^ 32).
    { rewrite Z.shiftr_div_pow2 by lia. unfold u32. apply Z.mod_small.
      split; [apply Z.div_pos; lia|].
      apply Z.div_lt_upper_bound; [lia|].
      change (2 ^ 32 * 2 ^ 32) with (2 ^ 64). lia. }
    split; [|split; [|split; [|split; [|split; [exact Hd|]]]]].
    + subst hw'. unfold ef100_mcdi_request.
      change (ef100_mcdi_buf MCDI_BUF_LEN hw bufid)
        with (bufid * A, snd (ef100_mcdi_buf MCDI_BUF_LEN hw bufid)).
      rewrite Hd. reflexivity.
    + unfold u32. apply Z.mod_pos_bound. reflexivity.
    + unfold u32. apply Z.mod_pos_bound. reflexivity.
    + rewrite Hd, Hhi. unfold u32.
      pose proof (Z.div_mod d (2 ^ 32) ltac:(lia)). lia.
    + unfold u32. rewrite Z.mod_mod_divide by (exists (2 ^ 24); reflexivity).
      subst d. rewrite Z.add_mod by lia.
      replace ((bufid * A) mod 256) with 0.
      * rewrite Z.add_0_r. apply Z.mod_mod. lia.
      * symmetry. rewrite Z.mul_mod, Hal, Z.mul_0_r by lia. reflexivity.
Qed.

Lemma mcdi_request_layout_witness :
  let hw := mk_mcdi_hw (fun _ => 0) 0x123456700 [] in
  let hdr := [1; 2; 3; 4; 5; 6; 7; 8] in
  let sdu := [9; 10; 11; 12] in
  let hw' := ef100_mcdi_request 1032 hw 0 hdr 8 sdu 4 in
  ef100_mcdi_read_response 1032 hw' 0 0 8 = hdr
  /\ ef100_mcdi_read_response 1032 hw' 0 8 4 = sdu
  /\ (forall other offset outlen,
        0 <= other -> other <> 0 -> 0 <= offset -> 0 <= outlen ->
        offset + outlen <= 1032 ->
        ef100_mcdi_read_response 1032 hw' other offset outlen
        = ef100_mcdi_read_response 1032 hw other offset outlen)
  /\ exists hi lo,
       writes hw'
       = writes hw ++ [(ER_GZ_MC_DB_LWRD, hi); (ER_GZ_MC_DB_HWRD, lo)]
       /\ 0 <= hi < 2 ^ 32 /\ 0 <= lo < 2 ^ 32
       /\ hi * 2 ^ 32 + lo = snd (ef100_mcdi_buf 1032 hw 0)
       /\ snd (ef100_mcdi_buf 1032 hw 0)
          = buf_dma_addr hw + 0 * ALIGN 1032 256
       /\ lo mod 256 = buf_dma_addr hw mod 256.
Proof.
  intros hw hdr sdu hw'.
  apply (mcdi_request_layout 1032 hw 0 hdr sdu); cbn; lia.
Defined.

(** The doorbell writes of the example: the upper dword 1 first, then the
    lower dword. *)
Example mcdi_request_doorbell :
  writes (ef100_mcdi_request 1032 (mk_mcdi_hw (fun _ => 0) 0x123456700 [])
            0 [1; 2; 3; 4; 5; 6; 7; 8] 8 [9; 10; 11; 12] 4)
  = [(ER_GZ_MC_DB_LWRD, 1); (ER_GZ_MC_DB_HWRD, 0x23456700)].
Proof. vm_compute. reflexivity. Qed.

End McdiPduFacts.

(** ** Reboot detection in full *)

Module McdiPollFacts.
Import Mcdi McdiFacts.

(** X19: [ef100_mcdi_poll_reboot] returns 0 or -EIO and nothing else.
    It returns -EIO exactly when the status dword is not all-ones, carries
    the magic pattern and a boot counter other than the stored one; only
    then is the stored counter changed, to the counter read.  The device
    state is changed exactly when the status dword is all-ones: the
    device is then marked disabled by [ef100_get_warm_boot_count], which
    returns -ENETDOWN, while the reboot detector still answers 0 and
    keeps the stored counter. *)
Theorem poll_reboot_effects efx reg :
  let r := ef100_mcdi_poll_reboot efx reg in
  (fst r = 0 \/ fst r = - EIO)
  /\ (fst r = - EIO
      <-> u32 reg <> 0xffffffff /\ EFX_WORD_1 reg = 0xb007
          /\ EFX_WORD_0 reg <> warm_boot_count efx)
  /\ (fst r = - EIO -> warm_boot_count (snd r) = EFX_WORD_0 reg)
  /\ (fst r = 0 -> warm_boot_count (snd r) = warm_boot_count efx)
  /\ state (snd r)
     = (if u32 reg =? 0xffffffff then STATE_DISABLED else state efx)
  /\ (u32 reg = 0xffffffff ->
      r = (0, mk_efx_nic STATE_DISABLED (warm_boot_count efx))
      /\ fst (ef100_get_warm_boot_count efx reg) = - ENETDOWN).
Proof.
  intros r. subst r.
  unfold ef100_mcdi_poll_reboot, ef100_get_warm_boot_count.
  pose proof (word_0_range reg) as Hw.
  destruct (Z.eqb_spec (u32 reg) 0xffffffff) as [Hones|Hones].
  - cbn. repeat split; auto; try discriminate.
    + intros [Hne _]. contradiction.
  - destruct (Z.eqb_spec (EFX_WORD_1 reg) 0xb007) as [Hm|Hm].
    + destruct (Z.ltb_spec (EFX_WORD_0 reg) 0); [lia|].
      destruct (Z.eqb_spec (EFX_WORD_0 reg) (warm_boot_count efx))
        as [Hsame|Hdiff]; cbn [fst snd state warm_boot_count].
      * split; [left; reflexivity|].
        split; [split; [discriminate|intros (_ & _ & Hd); contradiction]|].
        split; [discriminate|].
        split; [reflexivity|split; [reflexivity|contradiction]].
      * split; [right; reflexivity|].
        split; [split; [intros _; repeat split; assumption|reflexivity]|].
        split; [reflexivity|].
        split; [discriminate|split; [reflexivity|contradiction]].
    + cbn. split; [left; reflexivity|].
      split; [split; [discriminate|intros (_ & Hmm & _); contradiction]|].
      split; [discriminate|].
      split; [reflexivity|split; [reflexivity|contradiction]].
Qed.

End McdiPollFacts.

(** ** Probing the device *)

Module ProbeFacts.
Import Probe.

Lemma get_count_valid efx reg :
  0 <= reg < 2 ^ 32 -> status_valid reg = true ->
  Mcdi.ef100_get_warm_boot_count efx reg = (Mcdi.EFX_WORD_0 reg, efx)
  /\ 0 <= Mcdi.EFX_WORD_0 reg < 65536.
Proof.
  intros Hreg Hv. unfold status_valid in Hv.
  apply andb_true_iff in Hv. destruct Hv as [_ Hm].
  apply Z.eqb_eq in Hm.
  split; [apply McdiFacts.get_warm_boot_count_valid; assumption|].
  apply McdiFacts.word_0_range.
Qed.

Lemma get_count_invalid efx reg :
  0 <= reg < 2 ^ 32 -> status_valid reg = false ->
  fst (Mcdi.ef100_get_warm_boot_count efx reg) < 0
  /\ Mcdi.warm_boot_count (snd (Mcdi.ef100_get_warm_boot_count efx reg))
     = Mcdi.warm_boot_count efx.
Proof.
  intros Hreg Hv. unfold status_valid in Hv.
  unfold Mcdi.ef100_get_warm_boot_count.
  destruct (u32 reg =? 0xffffffff); cbn [negb andb] in Hv.
  - cbn. split; [lia|reflexivity].
  - rewrite Hv. cbn. split; [lia|reflexivity].
Qed.

Section LoopFacts.
Variable env : probe_env.
Hypothesis Hdword : forall n, 0 <= sft_status env n < 2 ^ 32.

Lemma failed_reads_fields : forall n st from,
  nic (failed_reads env st from n) = nic st
  /\ port_num (failed_reads env st from n) = port_num st
  /\ calls (failed_reads env st from n)
     = calls st ++ concat (repeat [efx_readd_sft_status; ssleep] n)
  /\ ((forall t, (t < n)%nat ->
         status_valid (sft_status env (from + t)) = false) ->
      Mcdi.warm_boot_count (efx (failed_reads env st from n))
      = Mcdi.warm_boot_count (efx st)).
Proof.
  induction n as [|n IH]; intros st from; cbn [failed_reads].
  - cbn. rewrite app_nil_r. repeat split.
  - destruct (IH (mk_probe_state (nic st)
                    (snd (Mcdi.ef100_get_warm_boot_count (efx st)
                            (sft_status env from)))
                    (port_num st)
                    (calls st ++ [efx_readd_sft_status; ssleep]))
                (S from)) as (Hn & Hp & Hc & Hw).
    cbn [nic port_num calls efx] in Hn, Hp, Hc, Hw.
    split; [exact Hn|split; [exact Hp|split]].
    + rewrite Hc. cbn [repeat concat]. rewrite <- app_assoc. reflexivity.
    + intros Hinv. rewrite Hw.
      * apply get_count_invalid; [apply Hdword|].
        specialize (Hinv 0%nat ltac:(lia)). rewrite Nat.add_0_r in Hinv.
        exact Hinv.
      * intros t Ht. specialize (Hinv (S t) ltac:(lia)).
        rewrite Nat.add_succ_r in Hinv. exact Hinv.
Qed.

(** The loop goes past status reads that are not valid, sleeping after
    each, as long as fewer than five reads have been made. *)
Lemma warm_boot_loop_skip : forall j fuel from st,
  (from + j < 5)%nat ->
  (forall t, (t < j)%nat ->
     status_valid (sft_status env (from + t)) = false) ->
  warm_boot_loop (j + fuel) env (Z.of_nat from) from st
  = warm_boot_loop fuel env (Z.of_nat (from + j)) (from + j)
      (failed_reads env st from j).
Proof.
  induction j as [|j IH]; intros fuel from st Hlt Hinv.
  - rewrite Nat.add_0_r. reflexivity.
  - cbn [Nat.add warm_boot_loop failed_reads].
    pose proof (Hinv 0%nat ltac:(lia)) as H0. rewrite Nat.add_0_r in H0.
    destruct (get_count_invalid (efx st) (sft_status env from)
                (Hdword from) H0) as [Hneg _].
    destruct (Mcdi.ef100_get_warm_boot_count (efx st) (sft_status env from))
      as [rc efx1]. cbn [fst snd] in Hneg |- *.
    destruct (Z.leb_spec 0 rc); [lia|].
    rewrite s32_small by lia.
    destruct (Z.eqb_spec (Z.of_nat from + 1) 5); [lia|].
    cbn [nic efx port_num calls]. rewrite <- app_assoc. cbn [app].
    replace (Z.of_nat from + 1) with (Z.of_nat (S from)) by lia.
    rewrite (IH fuel (S from)).
    + replace (S from + j)%nat with (from + S j)%nat by lia. reflexivity.
    + lia.
    + intros t Ht. specialize (Hinv (S t) ltac:(lia)).
      rewrite Nat.add_succ_r in Hinv. exact Hinv.
Qed.

(** X20: the loop of [ef100_probe_main] that reads the warm boot count
    reads the status register at most five times and sleeps only between
    two reads.  If the first valid status dword - not all-ones, with the
    magic pattern - comes at the [j]-th retry, [j] below 5, the loop ends
    with the boot counter of that dword after [j + 1] reads and [j]
    sleeps; if the first five reads are all invalid it gives up with the
    negative result of the fifth read, after five reads and four sleeps.
    Either way the stored boot counter is not changed by the loop. *)
Theorem warm_boot_loop_retries st (j : nat) :
  (forall t, (t < j)%nat -> status_valid (sft_status env t) = false) ->
  ((j < 5)%nat -> status_valid (sft_status env j) = true ->
   exists st',
     (forall fuel, (j < fuel)%nat ->
        warm_boot_loop fuel env 0 0 st
        = Some (Mcdi.EFX_WORD_0 (sft_status env j), true, st'))
     /\ calls st'
        = calls st ++ concat (repeat [efx_readd_sft_status; ssleep] j)
          ++ [efx_readd_sft_status]
     /\ Mcdi.warm_boot_count (efx st') = Mcdi.warm_boot_count (efx st)
     /\ nic st' = nic st /\ port_num st' = port_num st)
  /\ (j = 5%nat ->
      exists rc st',
        (forall fuel, (5 <= fuel)%nat ->
           warm_boot_loop fuel env 0 0 st = Some (rc, false, st'))
        /\ rc < 0
        /\ calls st'
           = calls st ++ concat (repeat [efx_readd_sft_status; ssleep] 4)
             ++ [efx_readd_sft_status]
        /\ Mcdi.warm_boot_count (efx st') = Mcdi.warm_boot_count (efx st)).
Proof.
  intros Hinv. split.
  - intros Hj Hvalid.
    destruct (failed_reads_fields j st 0%nat) as (Hn & Hp & Hc & Hw).
    destruct (get_count_valid (efx (failed_reads env st 0 j))
                (sft_status env j) (Hdword j) Hvalid) as [Hget Hr].
    eexists. split.
    + intros fuel Hf.
      replace fuel with (j + S (fuel - S j))%nat by lia.
      rewrite (warm_boot_loop_skip j _ 0 st) by (cbn; lia || exact Hinv).
      cbn [Nat.add warm_boot_loop]. rewrite Hget.
      destruct (Z.leb_spec 0 (Mcdi.EFX_WORD_0 (sft_status env j))); [|lia].
      reflexivity.
    + cbn [calls efx nic port_num].
      rewrite Hc, <- app_assoc. split; [reflexivity|].
      split; [apply Hw; exact Hinv|split; assumption].
  - intros ->.
    destruct (failed_reads_fields 4 st 0%nat) as (Hn & Hp & Hc & Hw).
    destruct (get_count_invalid (efx (failed_reads env st 0 4))
                (sft_status env 4) (Hdword 4%nat) (Hinv 4%nat ltac:(lia)))
      as [Hneg Hkeep].
    exists (fst (Mcdi.ef100_get_warm_boot_count
                   (efx (failed_reads env st 0 4)) (sft_status env 4))).
    eexists. split.
    + intros fuel Hf.
      replace fuel with (4 + S (fuel - 5))%nat by lia.
      rewrite (warm_boot_loop_skip 4 _ 0 st)
        by (cbn; lia || (intros t Ht; apply Hinv; lia)).
      cbn [Nat.add warm_boot_loop].
      destruct (Mcdi.ef100_get_warm_boot_count
                  (efx (failed_reads env st 0 4)) (sft_status env 4))
        as [rc efx1] eqn:Hget.
      cbn [fst snd] in Hneg |- *.
      destruct (Z.leb_spec 0 rc); [lia|].
      change (s32 (Z.of_nat (0 + 4) + 1) =? 5) with true. cbv iota.
      replace efx1
        with (snd (Mcdi.ef100_get_warm_boot_count
                     (efx (failed_reads env st 0 4)) (sft_status env 4)))
        by (rewrite Hget; reflexivity).
      reflexivity.
    + cbn [calls efx]. rewrite Hc, <- app_assoc.
      split; [exact Hneg|split; [reflexivity|]].
      rewrite Hkeep. apply Hw. intros t Ht. apply Hinv. lia.
Qed.

End LoopFacts.

(** Three reads: the first finds the device unreachable (all-ones), the
    second finds no magic pattern, the third is valid with boot counter 8.
    The loop sleeps twice and ends with 8. *)
Lemma warm_boot_loop_retries_witness :
  let env :=
    mk_probe_env 4096 true (fun _ => 0) 0 0
      (fun n => match n with
                | O => 0xffffffff
                | S O => 0
                | _ => 0xb0070008
                end) 0 0 0 (Some (1, 1, 0, 1000)) 0 in
  let st := mk_probe_state Tlv.design_params0
              (Mcdi.mk_efx_nic Mcdi.STATE_PROBED 0) 0 [] in
  ((2 < 5)%nat -> status_valid (sft_status env 2) = true ->
   exists st',
     (forall fuel, (2 < fuel)%nat ->
        warm_boot_loop fuel env 0 0 st
        = Some (Mcdi.EFX_WORD_0 (sft_status env 2), true, st'))
     /\ calls st'
        = calls st ++ concat (repeat [efx_readd_sft_status; ssleep] 2)
          ++ [efx_readd_sft_status]
     /\ Mcdi.warm_boot_count (efx st') = Mcdi.warm_boot_count (efx st)
     /\ nic st' = nic st /\ port_num st' = port_num st)
  /\ (2%nat = 5%nat ->
      exists rc st',
        (forall fuel, (5 <= fuel)%nat ->
           warm_boot_loop fuel env 0 0 st = Some (rc, false, st'))
        /\ rc < 0
        /\ calls st'
           = calls st ++ concat (repeat [efx_readd_sft_status; ssleep] 4)
             ++ [efx_readd_sft_status]
        /\ Mcdi.warm_boot_count (efx st') = Mcdi.warm_boot_count (efx st)).
Proof.
  intros env st.
  apply (warm_boot_loop_retries env).
  - intros [|[|n]]; cbn; lia.
  - intros [|[|t]] Ht; [reflexivity|reflexivity|lia].
Defined.



Section MainFacts.
Context `{regs : Tlv.ef100_regs}.
Variables hdr_len_default num_frames_default num_segs_default
          payload_len_default : Z.


End MainFacts.


End ProbeFacts.
